(** * The agentic workflow of starlight-form-agent

    A shallow embedding of [src/lib/agentic-workflow.ts] (with the types of
    [src/types/agents.ts]): the shared context store, the planner, reviewer,
    researcher and executor agents and the orchestrator loop, followed by
    the properties of the written specification.

    Conventions of the embedding.
    - Values that come back from [JSON.parse] are dynamically typed; they
      are kept as [json] trees and read with the JavaScript rules for
      property access, truthiness, [||], [??] and [?.].
    - A template literal converts the values it shows to strings, and the
      conversion of an object with a property named [toString] throws a
      [TypeError]. Where a prompt or a logged message shows a value that
      came from [JSON.parse], the conversion is part of the embedding;
      what is shown is not.
    - Task objects are shared between [currentPlan.tasks], [pendingTasks]
      and [completedTasks]; they live in a heap and the three collections
      hold references (heap indices).
    - The reasoning service, the browser automation and the clock are
      external: their answers are read from an environment [Ext].
    - Fields filled from [generateId()] or from the wall clock ([sessionId],
      [Plan.id], [MemoryItem.id], [HistoryEntry.id], [createdAt],
      [updatedAt], [timestamp], [reviewedAt], [executedAt], [duration]) are
      written and never read by the module; the records leave them out. *)

From Stdlib Require Import String Ascii ZArith List Bool Lia.
From stdpp Require Import base option list strings pretty.
From stdpp Require Import relations.

Import ListNotations.
Set Warnings "-register-all".
Local Open Scope string_scope.
Local Open Scope list_scope.

(* ===================================================================== *)
(** ** Values returned by [JSON.parse] *)
(* ===================================================================== *)

(** A parsed JSON text. A number is kept as the text that [String]
    gives for it ([1], [0.5], [1e+21]), which determines the number up to
    the sign of zero: the module only tests numbers for zero and converts
    them to strings. The fields of an object are its own properties;
    [JSON.parse] keeps one value per key, and a lookup takes the first
    field with the key. *)
Inductive json : Type :=
  | JNull
  | JBool (b : bool)
  | JNum (shown : string)
  | JStr (s : string)
  | JArr (items : list json)
  | JObj (fields : list (string * json)).

(** [!!v] is false exactly for the falsy values. *)
Definition truthy (v : json) : bool :=
  match v with
  | JNull => false
  | JBool b => b
  | JNum shown => negb (String.eqb shown "0")
  | JStr s => negb (String.eqb s "")
  | JArr _ | JObj _ => true
  end.

(** A JavaScript value that may also be [undefined]. *)
Definition jsval := option json.

Definition truthy_val (v : jsval) : bool :=
  match v with Some j => truthy j | None => false end.

(** [v == null]: [null] or [undefined]. *)
Definition nullish (v : jsval) : bool :=
  match v with None | Some JNull => true | Some _ => false end.

Fixpoint assoc (k : string) (fields : list (string * json)) : jsval :=
  match fields with
  | [] => None
  | (k', v) :: rest => if String.eqb k' k then Some v else assoc k rest
  end.

(** [v.k] for a value [v] that is not [null] and a name [k] that no
    prototype defines (all names read by the module are of that kind):
    own properties of objects, [undefined] for everything else. *)
Definition get (v : json) (k : string) : jsval :=
  match v with
  | JObj fields => assoc k fields
  | _ => None
  end.

(** [v?.k]. *)
Definition get_opt (v : json) (k : string) : jsval :=
  match v with
  | JNull => None
  | _ => get v k
  end.

(** [a || b] and [a ?? b] with a JSON default. *)
Definition or_else (a : jsval) (b : json) : json :=
  match a with
  | Some j => if truthy j then j else b
  | None => b
  end.

Definition nullish_else (a : jsval) (b : json) : json :=
  match a with
  | Some JNull | None => b
  | Some j => j
  end.

(* ===================================================================== *)
(** ** Exceptions *)
(* ===================================================================== *)

(** What a [throw] carries: an [Error] with its message, or any other
    value. The [TypeError]s that the module's own code can raise are
    [Error]s; their message text is the engine's, and the three constants
    below stand for it. *)
Inductive exn : Type :=
  | Error (message : string)
  | Thrown.

Definition TypeError_property_of_null : exn :=
  Error "Cannot read properties of null".

Definition TypeError_not_a_function : exn :=
  Error "map is not a function".

Definition TypeError_not_primitive : exn :=
  Error "Cannot convert object to primitive value".

(** [error instanceof Error ? error.message : 'Unknown error'] *)
Definition error_message (e : exn) : string :=
  match e with
  | Error m => m
  | Thrown => "Unknown error"
  end.

Inductive outcome (A : Type) : Type :=
  | Ok (a : A)
  | Throw (e : exn).
Arguments Ok {A} a.
Arguments Throw {A} e.

(** [String(v)], as a template literal [`${v}`] computes it. An object is
    converted by its [toString]: the inherited one gives
    [[object Object]]; an own property [toString], which in a parsed JSON
    text is never a function, leaves only [valueOf], and the conversion
    throws a [TypeError]. An array joins the conversions of its elements,
    with nothing for [null], and throws when one of them does. *)
Fixpoint js_string (v : json) : outcome string :=
  match v with
  | JNull => Ok "null"
  | JBool true => Ok "true"
  | JBool false => Ok "false"
  | JNum shown => Ok shown
  | JStr s => Ok s
  | JArr items =>
      (fix join (l : list json) : outcome string :=
         match l with
         | [] => Ok ""
         | x :: rest =>
             match (match x with JNull => Ok "" | _ => js_string x end) with
             | Ok sx =>
                 match rest with
                 | [] => Ok sx
                 | _ :: _ =>
                     match join rest with
                     | Ok sr => Ok (sx +:+ "," +:+ sr)
                     | Throw e => Throw e
                     end
                 end
             | Throw e => Throw e
             end
         end) items
  | JObj fields =>
      match assoc "toString" fields with
      | Some _ => Throw TypeError_not_primitive
      | None => Ok "[object Object]"
      end
  end.

(** The same for a value that may be [undefined]. *)
Definition js_string_val (v : jsval) : outcome string :=
  match v with
  | Some j => js_string j
  | None => Ok "undefined"
  end.

(* ===================================================================== *)
(** ** Types of [types/agents.ts] *)
(* ===================================================================== *)

Inductive AgentRole := orchestrator | planner | reviewer | researcher | executor.

Inductive TaskStatus :=
  | pending | in_progress | needs_review | approved | rejected | completed | failed.

Definition TaskStatus_eqb (a b : TaskStatus) : bool :=
  match a, b with
  | pending, pending | in_progress, in_progress | needs_review, needs_review
  | approved, approved | rejected, rejected | completed, completed
  | failed, failed => true
  | _, _ => false
  end.

Record TaskResult := {
  success : json;
  data : jsval;
  reviewNotes : jsval;
}.

Record Task := {
  id : string;
  description : jsval;
  status : TaskStatus;
  priority : jsval;
  dependencies : option (list string);
  result : option TaskResult;
}.

(** A reference to a task object. *)
Abbreviation ref := nat (only parsing).

Record Plan := {
  plan_goal : string;
  tasks : list ref;
  estimatedSteps : nat;
}.

(** [taskId] is [None] for a plan review, whose subject is the plan's
    generated id. *)
Record Review := {
  taskId : option string;
  review_approved : json;
  feedback : json;
  suggestions : jsval;
}.

Record ExecutedAction := {
  action_description : json;
  action_success : bool;
  action_result : jsval;
}.

Record ExecutionResult := {
  exec_taskId : string;
  exec_success : bool;
  output : jsval;
  actions : list ExecutedAction;
}.

Record MemoryItem := {
  key : string;
  value : json;
  source : AgentRole;
}.

Record ContextState := {
  isLoggedIn : bool;
  currentPage : option string;
  selectedCarer : jsval;
  formData : jsval;
  lastError : option string;
}.

(** A [Partial<ContextState>] as the module builds them. *)
Record StateUpdate := {
  upd_isLoggedIn : option bool;
  upd_currentPage : option string;
  upd_selectedCarer : jsval;
}.

(** The [input]/[output] payloads that [addHistory] is called with. *)
Inductive payload :=
  | PNull
  | PGoal (g : string)
  | PTaskId (t : string)
  | PAction (a : json)
  | PUpdates (u : StateUpdate)
  | PState (s : ContextState)
  | PPlan (p : Plan)
  | PReview (r : Review)
  | PExecution (r : ExecutionResult).

Record HistoryEntry := {
  agent : AgentRole;
  action : string;
  input : payload;
  hist_output : payload;
}.

Record SharedContext := {
  goal : string;
  currentPlan : option Plan;
  completedTasks : list ref;
  pendingTasks : list ref;
  memory : list MemoryItem;
  state : ContextState;
  history : list HistoryEntry;
}.

Record AgentMessage := {
  msg_from : AgentRole;
  msg_to : AgentRole;
  msg_type : string;
  content : string;
  msg_payload : ExecutionResult;
}.

(** The configuration that an orchestrator runs with, the defaults
    already merged in; the two limits are counts. *)
Record WorkflowConfig := {
  maxIterations : nat;
  requireReview : bool;
  autoRetry : bool;
  retryLimit : nat;
  timeout : Z;
}.

Definition DEFAULT_CONFIG : WorkflowConfig :=
  {| maxIterations := 15; requireReview := true; autoRetry := true;
     retryLimit := 2; timeout := 300000 |}.

Record CompiledOutput := {
  out_state : ContextState;
  results : list (jsval * option TaskResult);
  out_memory : list (string * json);
}.

Record WorkflowResult := {
  wf_success : bool;
  wf_goal : string;
  wf_completedTasks : nat;
  wf_totalTasks : nat;
  wf_output : option CompiledOutput;
  error : option string;
  wf_history : list HistoryEntry;
}.

(* ===================================================================== *)
(** ** The session: heap of task objects, shared context, message log *)
(* ===================================================================== *)

(** The calls made to the browser automation functions of
    [browser-agent.ts], in the order they are made. The log is not part of
    the source; it records the calls so that they can be counted. *)
Inductive AutomationCall :=
  | CallLogin
  | CallExtractCarers
  | CallSelectCarer (carerCode : json)
  | CallNavigateToForm
  | CallFillForm (data : json)
  | CallSubmitForm (submitType : json)
  | CallGetPageState.

Record Session := {
  heap : list Task;
  context : SharedContext;
  messages : list AgentMessage;
  automation_calls : list AutomationCall;
}.

Definition with_context (f : SharedContext -> SharedContext) (s : Session) : Session :=
  {| heap := heap s; context := f (context s); messages := messages s;
     automation_calls := automation_calls s |}.

Definition with_heap (f : list Task -> list Task) (s : Session) : Session :=
  {| heap := f (heap s); context := context s; messages := messages s;
     automation_calls := automation_calls s |}.

Definition set_plan_fields (p : Plan) (c : SharedContext) : SharedContext :=
  {| goal := goal c; currentPlan := Some p; completedTasks := completedTasks c;
     pendingTasks := tasks p; memory := memory c; state := state c;
     history := history c |}.

Definition set_queues (done todo : list ref) (c : SharedContext) : SharedContext :=
  {| goal := goal c; currentPlan := currentPlan c; completedTasks := done;
     pendingTasks := todo; memory := memory c; state := state c;
     history := history c |}.

Definition set_memory (m : list MemoryItem) (c : SharedContext) : SharedContext :=
  {| goal := goal c; currentPlan := currentPlan c;
     completedTasks := completedTasks c; pendingTasks := pendingTasks c;
     memory := m; state := state c; history := history c |}.

Definition set_state (st : ContextState) (c : SharedContext) : SharedContext :=
  {| goal := goal c; currentPlan := currentPlan c;
     completedTasks := completedTasks c; pendingTasks := pendingTasks c;
     memory := memory c; state := st; history := history c |}.

Definition set_history (h : list HistoryEntry) (c : SharedContext) : SharedContext :=
  {| goal := goal c; currentPlan := currentPlan c;
     completedTasks := completedTasks c; pendingTasks := pendingTasks c;
     memory := memory c; state := state c; history := h |}.

(** [Array.prototype.findIndex], with [None] for [-1]. *)
Fixpoint findIndex {A : Type} (p : A -> bool) (l : list A) : option nat :=
  match l with
  | [] => None
  | x :: rest => if p x then Some 0 else S <$> findIndex p rest
  end.

Module ContextManager.

(** [constructor(goal)] *)
Definition new (g : string) : Session :=
  {| heap := [];
     context :=
       {| goal := g; currentPlan := None; completedTasks := [];
          pendingTasks := []; memory := [];
          state := {| isLoggedIn := false; currentPage := None;
                      selectedCarer := None; formData := None;
                      lastError := None |};
          history := [] |};
     messages := [];
     automation_calls := [] |}.

Definition getContext (s : Session) : SharedContext := context s.

Definition addHistory (a : AgentRole) (act : string) (i o : payload)
    (s : Session) : Session :=
  with_context
    (fun c => set_history
       (history c ++ [{| agent := a; action := act; input := i; hist_output := o |}]) c)
    s.

(** [{ ...state, ...updates }] *)
Definition merge_state (st : ContextState) (u : StateUpdate) : ContextState :=
  {| isLoggedIn := default (isLoggedIn st) (upd_isLoggedIn u);
     currentPage :=
       match upd_currentPage u with Some p => Some p | None => currentPage st end;
     selectedCarer :=
       match upd_selectedCarer u with Some c => Some c | None => selectedCarer st end;
     formData := formData st;
     lastError := lastError st |}.

Definition updateState (u : StateUpdate) (s : Session) : Session :=
  let st' := merge_state (state (context s)) u in
  addHistory orchestrator "state_update" (PUpdates u) (PState st')
    (with_context (set_state st') s).

Definition setMemory (k : string) (v : json) (src : AgentRole)
    (s : Session) : Session :=
  let mem := memory (context s) in
  let existing := findIndex (fun m => String.eqb (key m) k) mem in
  let item := {| key := k; value := v; source := src |} in
  match existing with
  | Some i => with_context (set_memory (<[i := item]> mem)) s
  | None => with_context (set_memory (mem ++ [item])) s
  end.

Definition getMemory (k : string) (s : Session) : jsval :=
  value <$> List.find (fun m => String.eqb (key m) k) (memory (context s)).

Definition setPlan (p : Plan) (s : Session) : Session :=
  with_context (set_plan_fields p) s.

(** The test [t => t.id === taskId] on a task reference. *)
Definition has_id (h : list Task) (tid : string) (r : ref) : bool :=
  match h !! r with
  | Some t => String.eqb (id t) tid
  | None => false
  end.

(** A [Partial<Task>] as the module builds them. *)
Record TaskUpdate := {
  upd_status : option TaskStatus;
  upd_result : option TaskResult;
}.

Definition assign (t : Task) (u : TaskUpdate) : Task :=
  {| id := id t; description := description t;
     status := default (status t) (upd_status u);
     priority := priority t; dependencies := dependencies t;
     result := match upd_result u with Some r => Some r | None => result t end |}.

Definition updateTask (tid : string) (u : TaskUpdate) (s : Session) : Session :=
  match List.find (has_id (heap s) tid) (pendingTasks (context s)) with
  | Some r =>
      match heap s !! r with
      | Some t => with_heap (fun h => <[r := assign t u]> h) s
      | None => s
      end
  | None => s
  end.

Definition completeTask (tid : string) (res : TaskResult) (s : Session) : Session :=
  let todo := pendingTasks (context s) in
  match findIndex (has_id (heap s) tid) todo with
  | Some idx =>
      match todo !! idx with
      | Some r =>
          match heap s !! r with
          | Some t =>
              let t' := {| id := id t; description := description t;
                           status := completed; priority := priority t;
                           dependencies := dependencies t;
                           result := Some res |} in
              with_context
                (fun c => set_queues (completedTasks c ++ [r]) (delete idx todo) c)
                (with_heap (fun h => <[r := t']> h) s)
          | None => s
          end
      | None => s
      end
  | None => s
  end.

(** The test [t => t.status === 'pending' || t.status === 'approved']. *)
Definition is_ready (h : list Task) (r : ref) : bool :=
  match h !! r with
  | Some t => TaskStatus_eqb (status t) pending || TaskStatus_eqb (status t) approved
  | None => false
  end.

(** The task found, as its reference together with the object. *)
Definition getNextTask (s : Session) : option (ref * Task) :=
  match List.find (is_ready (heap s)) (pendingTasks (context s)) with
  | Some r => pair r <$> heap s !! r
  | None => None
  end.

End ContextManager.

(* ===================================================================== *)
(** ** Effects: a state-and-exception monad over the session *)
(* ===================================================================== *)

(** An [async] method: it reads and writes the session and either returns
    or throws. Writes made before a throw stay in the session. *)
Definition M (A : Type) : Type := Session -> outcome A * Session.

Definition ret {A} (a : A) : M A := fun s => (Ok a, s).

Definition throw {A} (e : exn) : M A := fun s => (Throw e, s).

Definition bind {A B} (m : M A) (k : A -> M B) : M B :=
  fun s =>
    match m s with
    | (Ok a, s') => k a s'
    | (Throw e, s') => (Throw e, s')
    end.

(** A method of the context manager, which returns nothing and cannot throw. *)
Definition modify (f : Session -> Session) : M unit := fun s => (Ok tt, f s).

Definition lift {A} (o : outcome A) : M A := fun s => (o, s).

Declare Scope monad_scope.
Delimit Scope monad_scope with M.
Notation "x <- m ;; k" := (bind m (fun x => k))
  (at level 100, m at next level, right associativity) : monad_scope.
Notation "m ;;; k" := (bind m (fun _ => k))
  (at level 100, right associativity) : monad_scope.
Local Open Scope monad_scope.

(* ===================================================================== *)
(** ** External services *)
(* ===================================================================== *)

(** The browser automation functions of [browser-agent.ts] that the
    executor calls: what each of them returns, or throws, when called. *)
Record Automation := {
  login : outcome bool;
  extractCarers : outcome (list json);
  selectCarer : json -> outcome bool;
  navigateToSupervisoryHomeVisitForm : outcome bool;
  fillForm : json -> outcome bool;
  submitForm : json -> outcome (bool * string);
  getPageState : outcome (string * string);
}.

(** Everything a run reads from outside. An answer of the reasoning
    service is what [parseJson (await think ...)] evaluates to: [Throw]
    when the request to the service is rejected, [Ok JNull] when no JSON
    could be extracted from the text ([parseJson] returns [null]), and
    [Ok v] for the parsed value [v] otherwise. The loop makes at most one
    executor request, one automation call, one review request and one
    clock reading per iteration, so these are indexed by the iteration
    number. [elapsed i] is [Date.now() - startTime] at the end of
    iteration [i]. *)
Record Ext := {
  plan_answer : outcome json;
  plan_review_answer : outcome json;
  revision_answer : outcome json;
  executor_answer : nat -> outcome json;
  review_answer : nat -> outcome json;
  automation : nat -> Automation;
  elapsed : nat -> Z;
}.

(** The two methods of [BaseAgent]. *)
Module BaseAgent.

(** [parseJson (response)]. [extract] stands for the two regular
    expressions: it gives the text handed to [JSON.parse]
    ([match[1] || match[0]]) when one of them matches. [JSON_parse]
    stands for [JSON.parse], which throws on a text that is not JSON.
    The [catch] logs the error, and the method then returns [null]. *)
Definition parseJson (extract : string -> option string)
    (JSON_parse : string -> outcome json) (response : string) : json :=
  match extract response with
  | Some text =>
      match JSON_parse text with
      | Ok v => v
      | Throw _ => JNull
      end
  | None => JNull
  end.

(** [this.parseJson (await this.think (prompt, systemPrompt))], where
    the completion request returns a text or is rejected: the answers
    of [Ext] are values of this form. *)
Definition answer (extract : string -> option string)
    (JSON_parse : string -> outcome json) (completion : outcome string)
    : outcome json :=
  match completion with
  | Ok response => Ok (parseJson extract JSON_parse response)
  | Throw e => Throw e
  end.

End BaseAgent.

(** [arr.map(f)] where [arr] came from [JSON.parse]: a [TypeError] unless
    it is an array. *)
Definition as_array (v : json) : outcome (list json) :=
  match v with
  | JArr items => Ok items
  | _ => Throw TypeError_not_a_function
  end.

(** [items.map((t, idx) => f idx t)], stopping at the first throw. *)
Fixpoint map_indexed {A} (f : nat -> json -> outcome A) (idx : nat)
    (items : list json) : outcome (list A) :=
  match items with
  | [] => Ok []
  | t :: rest =>
      match f idx t with
      | Ok a =>
          match map_indexed f (S idx) rest with
          | Ok l => Ok (a :: l)
          | Throw e => Throw e
          end
      | Throw e => Throw e
      end
  end.

(** [items.map(f)] for an [f] that can throw, stopping at the first throw. *)
Fixpoint map_outcome {A B} (f : A -> outcome B) (items : list A) : outcome (list B) :=
  match items with
  | [] => Ok []
  | x :: rest =>
      match f x with
      | Ok b =>
          match map_outcome f rest with
          | Ok l => Ok (b :: l)
          | Throw e => Throw e
          end
      | Throw e => Throw e
      end
  end.

(** [tasks.map(t => `... ${t.description} ...`)] in a prompt: the
    description of each task is converted to a string, in order. *)
Definition describe_tasks (tasks : list ref) : M unit :=
  fun s =>
    match map_outcome
            (fun r => match heap s !! r with
                      | Some t => js_string_val (description t)
                      | None => Ok "undefined"
                      end) tasks with
    | Ok _ => (Ok tt, s)
    | Throw e => (Throw e, s)
    end.

(** [new] objects: append them to the heap and return their references. *)
Definition allocate (ts : list Task) : M (list ref) :=
  fun s => (Ok (seq (length (heap s)) (length ts)), with_heap (fun h => h ++ ts) s).

(* ===================================================================== *)
(** ** Planner *)
(* ===================================================================== *)

Module PlannerAgent.

(** One entry of [parsed.tasks] in [createPlan]. Reading a property of
    [null] throws; [t.dependencies?.map] throws when [dependencies] is
    neither nullish nor an array, and [`task-${d}`] when a dependency
    cannot be converted to a string. *)
Definition planned_task (idx : nat) (t : json) : outcome Task :=
  match t with
  | JNull => Throw TypeError_property_of_null
  | _ =>
      let mk deps :=
        {| id := "task-" +:+ pretty idx;
           description := get t "description";
           status := pending;
           priority := get t "priority";
           dependencies := deps;
           result := None |} in
      match get t "dependencies" with
      | None | Some JNull => Ok (mk None)
      | Some (JArr ds) =>
          match map_outcome
                  (fun d => match js_string d with
                            | Ok shown => Ok ("task-" +:+ shown)
                            | Throw e => Throw e
                            end) ds with
          | Ok deps => Ok (mk (Some deps))
          | Throw e => Throw e
          end
      | Some _ => Throw TypeError_not_a_function
      end
  end.

(** The prompt of [createPlan] shows the goal and three fields of the
    state; of these, [selectedCarer || 'none'] is a value of any kind. *)
Definition createPlan_prompt : M unit :=
  fun s =>
    match js_string (or_else (selectedCarer (state (context s))) (JStr "none")) with
    | Ok _ => (Ok tt, s)
    | Throw e => (Throw e, s)
    end.

Definition createPlan (g : string) (answer : outcome json) : M Plan :=
  createPlan_prompt ;;;
  modify (ContextManager.addHistory planner "create_plan" (PGoal g) PNull) ;;;
  parsed <- lift answer ;;
  entries <- lift (as_array (or_else (get_opt parsed "tasks") (JArr []))) ;;
  new_tasks <- lift (map_indexed planned_task 0 entries) ;;
  refs <- allocate new_tasks ;;
  let plan := {| plan_goal := g; tasks := refs; estimatedSteps := length refs |} in
  modify (ContextManager.setPlan plan) ;;;
  modify (ContextManager.addHistory planner "plan_created" PNull (PPlan plan)) ;;;
  ret plan.

(** One entry of [parsed.tasks] in [revisePlan]. *)
Definition revised_task (idx : nat) (t : json) : outcome Task :=
  match t with
  | JNull => Throw TypeError_property_of_null
  | _ =>
      Ok {| id := "task-r-" +:+ pretty idx;
            description := get t "description";
            status := pending;
            priority := get t "priority";
            dependencies := None;
            result := None |}
  end.

(** The test [t => t.status === 'completed'] on a task reference. *)
Definition is_completed (h : list Task) (r : ref) : bool :=
  match h !! r with
  | Some t => TaskStatus_eqb (status t) completed
  | None => false
  end.

(** The system prompt lists the tasks of the current plan, and the
    prompt shows the feedback. *)
Definition revisePlan (fb : json) (answer : outcome json) : M Plan :=
  fun s =>
    let currentPlan := currentPlan (context s) in
    (describe_tasks (match currentPlan with Some p => tasks p | None => [] end) ;;;
     lift (js_string fb) ;;;
     parsed <- lift answer ;;
     entries <- lift (as_array (or_else (get_opt parsed "tasks") (JArr []))) ;;
     new_tasks <- lift (map_indexed revised_task 0 entries) ;;
     refs <- allocate new_tasks ;;
     fun s' =>
       let kept :=
         match currentPlan with
         | Some p => List.filter (is_completed (heap s')) (tasks p)
         | None => []
         end in
       let plan :=
         {| plan_goal := match currentPlan with Some p => plan_goal p | None => "" end;
            tasks := kept ++ refs;
            estimatedSteps := length refs |} in
       (modify (ContextManager.setPlan plan) ;;; ret plan) s') s.

End PlannerAgent.

(* ===================================================================== *)
(** ** Reviewer *)
(* ===================================================================== *)

(** The two methods are given from the request to the reasoning service
    on. What each of them does before, which is to build its prompt, is
    given apart: [reviewTaskResult_prompt] and [reviewPlan_prompt]. A call
    of a method is its prompt followed by the method. *)
Module ReviewerAgent.

(** The prompt shows the description of the task, the result as
    [JSON.stringify] gives it, and the goal. *)
Definition reviewTaskResult_prompt (task : Task) : M unit :=
  lift (js_string_val (description task)) ;;; ret tt.

(** The prompt shows the goal and lists the tasks of the plan. *)
Definition reviewPlan_prompt (plan : Plan) : M unit := describe_tasks (tasks plan).

Definition reviewTaskResult (task : Task) (res : jsval) (answer : outcome json)
    : M Review :=
  modify (ContextManager.addHistory reviewer "review_start" (PTaskId (id task)) PNull) ;;;
  parsed <- lift answer ;;
  let review :=
    {| taskId := Some (id task);
       review_approved := nullish_else (get_opt parsed "approved") (JBool true);
       feedback := or_else (get_opt parsed "feedback") (JStr "Review completed");
       suggestions := get_opt parsed "suggestions" |} in
  modify (ContextManager.addHistory reviewer "review_complete" PNull (PReview review)) ;;;
  modify (ContextManager.updateTask (id task)
    {| ContextManager.upd_status :=
         Some (if truthy (review_approved review) then approved else rejected);
       ContextManager.upd_result :=
         Some {| success := review_approved review;
                 data := res;
                 reviewNotes := Some (feedback review) |} |}) ;;;
  ret review.

Definition reviewPlan (plan : Plan) (answer : outcome json) : M Review :=
  parsed <- lift answer ;;
  ret {| taskId := None;
         review_approved := nullish_else (get_opt parsed "approved") (JBool true);
         feedback := or_else (get_opt parsed "feedback") (JStr "Plan approved");
         suggestions := get_opt parsed "suggestions" |}.

End ReviewerAgent.

(* ===================================================================== *)
(** ** Researcher *)
(* ===================================================================== *)

Module ResearcherAgent.

Record TaskContext := {
  ctx_isLoggedIn : bool;
  ctx_currentPage : option string;
  ctx_selectedCarer : jsval;
  ctx_carers : jsval;
  ctx_formData : jsval;
  previousResults : list (jsval * option TaskResult);
}.

(** [arr.slice(-3)] *)
Definition last_three {A} (l : list A) : list A := drop (length l - 3) l.

Definition describe (h : list Task) (r : ref) : option (jsval * option TaskResult) :=
  (fun t => (description t, result t)) <$> h !! r.

(** A read of the session: nothing is written and nothing can throw. *)
Definition gatherContext (task : Task) (s : Session) : TaskContext :=
  let ctx := ContextManager.getContext s in
  {| ctx_isLoggedIn := isLoggedIn (state ctx);
     ctx_currentPage := currentPage (state ctx);
     ctx_selectedCarer := selectedCarer (state ctx);
     ctx_carers := ContextManager.getMemory "carers" s;
     ctx_formData := formData (state ctx);
     previousResults := omap (describe (heap s)) (last_three (completedTasks ctx)) |}.

End ResearcherAgent.

(* ===================================================================== *)
(** ** Executor *)
(* ===================================================================== *)

Module ExecutorAgent.

(** The [{ success, data }] that [performAction] resolves to. *)
Record ActionResult := {
  ar_success : bool;
  ar_data : jsval;
}.

(** The [catch] of [performAction]. *)
Definition caught (e : exn) : ActionResult :=
  {| ar_success := false; ar_data := Some (JStr (error_message e)) |}.

(** Call an automation function: the call is logged, and a throw leaves
    the [try] block for the [catch]. *)
Definition call {A} (c : AutomationCall) (o : outcome A)
    (k : A -> Session -> ActionResult * Session) (s : Session)
    : ActionResult * Session :=
  let s' := {| heap := heap s; context := context s; messages := messages s;
               automation_calls := automation_calls s ++ [c] |} in
  match o with
  | Ok a => k a s'
  | Throw e => (caught e, s')
  end.

(** The [case] labels of the [switch]. *)
Inductive ActionName :=
  | LOGIN | GET_CARERS | SELECT_CARER | NAVIGATE_TO_FORM | FILL_FORM
  | SUBMIT_FORM | GET_STATE.

(** Which [case] the value [action] selects ([===] against each label). *)
Definition select_case (act : json) : option ActionName :=
  match act with
  | JStr a =>
      if String.eqb a "LOGIN" then Some LOGIN
      else if String.eqb a "GET_CARERS" then Some GET_CARERS
      else if String.eqb a "SELECT_CARER" then Some SELECT_CARER
      else if String.eqb a "NAVIGATE_TO_FORM" then Some NAVIGATE_TO_FORM
      else if String.eqb a "FILL_FORM" then Some FILL_FORM
      else if String.eqb a "SUBMIT_FORM" then Some SUBMIT_FORM
      else if String.eqb a "GET_STATE" then Some GET_STATE
      else None
  | _ => None
  end.

Definition fail_with (msg : string) : ActionResult :=
  {| ar_success := false; ar_data := Some (JStr msg) |}.

(** The seven [case]s of the [switch], inside the [try]. *)
Definition known_action (c : ActionName) (params : json) (auto : Automation)
    (s : Session) : ActionResult * Session :=
  match c with
  | LOGIN =>
      call CallLogin (login auto) (fun ok s =>
        ({| ar_success := ok; ar_data := Some (JObj [("isLoggedIn", JBool ok)]) |},
         ContextManager.updateState
           {| upd_isLoggedIn := Some ok; upd_currentPage := None;
              upd_selectedCarer := None |} s)) s
  | GET_CARERS =>
      call CallExtractCarers (extractCarers auto) (fun carers s =>
        ({| ar_success := negb (Nat.eqb (length carers) 0);
            ar_data := Some (JArr carers) |},
         ContextManager.setMemory "carers" (JArr carers) executor s)) s
  | SELECT_CARER =>
      match get params "carerCode" with
      | Some carerCode =>
          if truthy carerCode then
            call (CallSelectCarer carerCode) (selectCarer auto carerCode) (fun ok s =>
              ({| ar_success := ok;
                  ar_data := Some (JObj [("selectedCarer", carerCode)]) |},
               if ok then
                 ContextManager.updateState
                   {| upd_isLoggedIn := None; upd_currentPage := None;
                      upd_selectedCarer := Some carerCode |} s
               else s)) s
          else (fail_with "Carer code required", s)
      | None => (fail_with "Carer code required", s)
      end
  | NAVIGATE_TO_FORM =>
      call CallNavigateToForm (navigateToSupervisoryHomeVisitForm auto) (fun ok s =>
        ({| ar_success := ok; ar_data := None |},
         if ok then
           ContextManager.updateState
             {| upd_isLoggedIn := None; upd_currentPage := Some "home_visit_form";
                upd_selectedCarer := None |} s
         else s)) s
  | FILL_FORM =>
      match get params "formData" with
      | Some fd =>
          if truthy fd then
            let s1 := ContextManager.setMemory "formData" fd executor s in
            call (CallFillForm fd) (fillForm auto fd) (fun ok s =>
              ({| ar_success := ok; ar_data := None |}, s)) s1
          else (fail_with "Form data required", s)
      | None => (fail_with "Form data required", s)
      end
  | SUBMIT_FORM =>
      let submitType := or_else (get params "submitType") (JStr "draft") in
      call (CallSubmitForm submitType) (submitForm auto submitType) (fun r s =>
        ({| ar_success := fst r; ar_data := Some (JStr (snd r)) |}, s)) s
  | GET_STATE =>
      call CallGetPageState (getPageState auto) (fun st s =>
        ({| ar_success := true;
            ar_data := Some (JObj [("url", JStr (fst st)); ("title", JStr (snd st))]) |},
         ContextManager.updateState
           {| upd_isLoggedIn := None; upd_currentPage := Some (fst st);
              upd_selectedCarer := None |} s)) s
  end.

(** [performAction]. In the [default] branch the message converts
    [action] to a string; when that throws, the [catch] is entered, and
    the message that the [catch] logs converts [action] again, before
    anything is returned. *)
Definition performAction (act params : json) (auto : Automation) : M ActionResult :=
  fun s =>
    match select_case act with
    | Some c => let (r, s') := known_action c params auto s in (Ok r, s')
    | None =>
        match js_string act with
        | Ok name => (Ok (fail_with ("Unknown action: " +:+ name)), s)
        | Throw e =>
            match js_string act with
            | Ok _ => (Ok (caught e), s)
            | Throw e' => (Throw e', s)
            end
        end
    end.

(** The prompt of [execute] shows the description of the task and the
    state, the carers and the form data as [JSON.stringify] gives
    them. *)
Definition execute_prompt (task : Task) : M unit :=
  lift (js_string_val (description task)) ;;; ret tt.

(** [execute], from the [execute_start] entry on; before it the method
    builds its prompt, [execute_prompt]. *)
Definition execute (task : Task) (answer : outcome json) (auto : Automation)
    : M ExecutionResult :=
  modify (ContextManager.addHistory executor "execute_start" (PTaskId (id task)) PNull) ;;;
  parsed <- lift answer ;;
  match get_opt parsed "action" with
  | Some act =>
      if truthy act then
        actionResult <-
          performAction act (or_else (get parsed "params") (JObj [])) auto ;;
        let res :=
          {| exec_taskId := id task;
             exec_success := ar_success actionResult;
             output := ar_data actionResult;
             actions := [{| action_description := act;
                            action_success := ar_success actionResult;
                            action_result := ar_data actionResult |}] |} in
        modify (ContextManager.addHistory executor "execute_complete"
                  (PAction act) (PExecution res)) ;;;
        ret res
      else
        ret {| exec_taskId := id task; exec_success := false; output := None;
               actions := [] |}
  | None =>
      ret {| exec_taskId := id task; exec_success := false; output := None;
             actions := [] |}
  end.

End ExecutorAgent.

(* ===================================================================== *)
(** ** Orchestrator *)
(* ===================================================================== *)

Module Orchestrator.

Definition sendMessage (from to : AgentRole) (ty cont : string)
    (pl : ExecutionResult) (s : Session) : Session :=
  {| heap := heap s; context := context s;
     messages := messages s ++
       [{| msg_from := from; msg_to := to; msg_type := ty; content := cont;
           msg_payload := pl |}];
     automation_calls := automation_calls s |}.

(** [console.log (`... ${v}`)]: of this, the conversion of [v]. *)
Definition log (v : jsval) : M unit := lift (js_string_val v) ;;; ret tt.

(** Steps 1 and 2 of [run]: the plan, and its review when required. The
    feedback of a rejected plan is logged before the plan is revised. *)
Definition planning (cfg : WorkflowConfig) (ext : Ext) : M unit :=
  fun s =>
    (plan <- PlannerAgent.createPlan (goal (context s)) (plan_answer ext) ;;
     if requireReview cfg then
       ReviewerAgent.reviewPlan_prompt plan ;;;
       planReview <- ReviewerAgent.reviewPlan plan (plan_review_answer ext) ;;
       if negb (truthy (review_approved planReview)) then
         log (Some (feedback planReview)) ;;;
         PlannerAgent.revisePlan (feedback planReview) (revision_answer ext) ;;;
         ret tt
       else ret tt
     else ret tt) s.

(** How one pass through the body of the [while] loop ends: with the
    [break] at [getNextTask], with the [continue] of a retry, or at the
    bottom of the body after the task was completed or marked failed.
    [timed_out] is the outcome of the timeout test, which [break]s. *)
Inductive iteration_end :=
  | NoTask
  | Retried (task : ref)
  | Completed (task : ref) (timed_out : bool)
  | Failed (task : ref) (timed_out : bool).

(** What the review block of the body decides. *)
Inductive review_end :=
  | Retry (retryCount : nat)
  | Proceed (retryCount : nat).

(** The body of the loop at iteration number [iteration] (already
    incremented), returning how it ended and the value of [retryCount].
    The three [log]s are the messages that show a value other than a
    number or a string: the description of the task, the feedback of a
    rejecting review and the output of a failed execution. *)
Definition body (cfg : WorkflowConfig) (ext : Ext) (iteration retryCount : nat)
    : M (iteration_end * nat) :=
  fun s =>
    match ContextManager.getNextTask s with
    | None => (Ok (NoTask, retryCount), s)
    | Some (r, task) =>
        (log (description task) ;;;
         let taskContext := ResearcherAgent.gatherContext task s in
         modify (ContextManager.updateTask (id task)
           {| ContextManager.upd_status := Some in_progress;
              ContextManager.upd_result := None |}) ;;;
         ExecutorAgent.execute_prompt task ;;;
         execResult <- ExecutorAgent.execute task (executor_answer ext iteration)
                         (automation ext iteration) ;;
         reviewed <-
           (if requireReview cfg && exec_success execResult then
              ReviewerAgent.reviewTaskResult_prompt task ;;;
              review <- ReviewerAgent.reviewTaskResult task (output execResult)
                          (review_answer ext iteration) ;;
              if negb (truthy (review_approved review)) then
                log (Some (feedback review)) ;;;
                if autoRetry cfg && (retryCount <? retryLimit cfg)%nat then
                  modify (ContextManager.updateTask (id task)
                    {| ContextManager.upd_status := Some pending;
                       ContextManager.upd_result := None |}) ;;;
                  ret (Retry (S retryCount))
                else ret (Proceed retryCount)
              else ret (Proceed 0)
            else ret (Proceed retryCount)) ;;
         match reviewed with
         | Retry rc => ret (Retried r, rc)
         | Proceed rc =>
             let timed_out := (elapsed ext iteration >? timeout cfg)%Z in
             if exec_success execResult then
               modify (ContextManager.completeTask (id task)
                 {| success := JBool true; data := output execResult;
                    reviewNotes := None |}) ;;;
               ret (Completed r timed_out, rc)
             else
               modify (ContextManager.updateTask (id task)
                 {| ContextManager.upd_status := Some failed;
                    ContextManager.upd_result := None |}) ;;;
               log (output execResult) ;;;
               modify (sendMessage executor planner "error" "Task failed" execResult) ;;;
               ret (Failed r timed_out, rc)
         end) s
    end.

Definition breaks (e : iteration_end) : bool :=
  match e with
  | NoTask => true
  | Retried _ => false
  | Completed _ timed_out | Failed _ timed_out => timed_out
  end.

(** Where the [try] block stands. *)
Inductive progress :=
  | Running
  | Exited
  | Aborted (e : exn).

(** The local variables of [run] between two tests of the loop
    condition, the session, and the record of how each pass ended. *)
Record LoopState := {
  iteration : nat;
  retryCount : nat;
  session : Session;
  at_ : progress;
  trace : list iteration_end;
}.

(** One test of [iteration < maxIterations] and, when it holds, one pass
    through the body. A loop that has exited or thrown stays where it is. *)
Definition step (cfg : WorkflowConfig) (ext : Ext) (ls : LoopState) : LoopState :=
  match at_ ls with
  | Running =>
      if (iteration ls <? maxIterations cfg)%nat then
        let i := S (iteration ls) in
        match body cfg ext i (retryCount ls) (session ls) with
        | (Ok (e, rc), s') =>
            {| iteration := i; retryCount := rc; session := s';
               at_ := if breaks e then Exited else Running;
               trace := trace ls ++ [e] |}
        | (Throw x, s') =>
            {| iteration := i; retryCount := retryCount ls; session := s';
               at_ := Aborted x; trace := trace ls |}
        end
      else
        {| iteration := iteration ls; retryCount := retryCount ls;
           session := session ls; at_ := Exited; trace := trace ls |}
  | _ => ls
  end.

(** The state in which the loop is entered ([iteration = 0],
    [retryCount = 0]), or the throw of the planning steps. *)
Definition start (cfg : WorkflowConfig) (g : string) (ext : Ext) : LoopState :=
  match planning cfg ext (ContextManager.new g) with
  | (Ok _, s) =>
      {| iteration := 0; retryCount := 0; session := s; at_ := Running; trace := [] |}
  | (Throw x, s) =>
      {| iteration := 0; retryCount := 0; session := s; at_ := Aborted x; trace := [] |}
  end.

(** The run after [k] tests of the loop condition. *)
Definition after (cfg : WorkflowConfig) (g : string) (ext : Ext) (k : nat) : LoopState :=
  Nat.iter k (step cfg ext) (start cfg g ext).

(** The condition fails at the latest at test [maxIterations + 1]. *)
Definition final (cfg : WorkflowConfig) (g : string) (ext : Ext) : LoopState :=
  after cfg g ext (S (maxIterations cfg)).

Definition compileOutput (s : Session) : CompiledOutput :=
  let ctx := context s in
  {| out_state := state ctx;
     results := omap (ResearcherAgent.describe (heap s)) (completedTasks ctx);
     out_memory := map (fun m => (key m, value m)) (memory ctx) |}.

Definition total_tasks (ctx : SharedContext) : nat :=
  match currentPlan ctx with
  | Some p => length (tasks p)
  | None => 0
  end.

(** The [WorkflowResult] that [run] resolves to. *)
Definition run (cfg : WorkflowConfig) (g : string) (ext : Ext) : WorkflowResult :=
  let ls := final cfg g ext in
  let ctx := context (session ls) in
  match at_ ls with
  | Aborted e =>
      {| wf_success := false;
         wf_goal := goal ctx;
         wf_completedTasks := length (completedTasks ctx);
         wf_totalTasks := total_tasks ctx;
         wf_output := None;
         error := Some (error_message e);
         wf_history := history ctx |}
  | _ =>
      {| wf_success := Nat.eqb (length (pendingTasks ctx)) 0;
         wf_goal := goal ctx;
         wf_completedTasks := length (completedTasks ctx);
         wf_totalTasks := total_tasks ctx;
         wf_output := Some (compileOutput (session ls));
         error := None;
         wf_history := history ctx |}
  end.

(** [getContext ()] and [getMessages ()] of the orchestrator. *)
Definition getContext (s : Session) : SharedContext := ContextManager.getContext s.

Definition getMessages (s : Session) : list AgentMessage := messages s.

End Orchestrator.

(* ===================================================================== *)
(** * Vocabulary of the properties *)
(* ===================================================================== *)

(** The test [m => m.key === key] of [setMemory] and [getMemory]. *)
Definition keyed (k : string) (m : MemoryItem) : bool := String.eqb (key m) k.

(** What [setMemory] does to the [memory] array. *)
Definition upsert (item : MemoryItem) (mem : list MemoryItem) : list MemoryItem :=
  match findIndex (keyed (key item)) mem with
  | Some i => <[i := item]> mem
  | None => mem ++ [item]
  end.

(** Whether a history entry is the [execute_start] record of task [tid]:
    [execute] writes one such entry each time it is called for the task. *)
Definition is_attempt (tid : string) (e : HistoryEntry) : bool :=
  match agent e, input e with
  | executor, PTaskId t => String.eqb (action e) "execute_start" && String.eqb t tid
  | _, _ => false
  end.

(** How many times the executor has been started on task [tid]. *)
Definition attempts (tid : string) (s : Session) : nat :=
  length (List.filter (is_attempt tid) (history (context s))).

(** The tasks held by the two collections. *)
Definition queued (s : Session) : list ref :=
  pendingTasks (context s) ++ completedTasks (context s).

Definition status_of (s : Session) (r : ref) : option TaskStatus :=
  status <$> heap s !! r.

Definition id_of (s : Session) (r : ref) : option string :=
  id <$> heap s !! r.

(** A value that a template literal can show: its conversion to a string
    does not throw. *)
Definition prints (v : jsval) : Prop := exists shown, js_string_val v = Ok shown.

(** The values that a template literal can show: those that neither are
    nor hold, in nested arrays, an object with an own [toString]
    property. *)
Fixpoint printable (v : json) : bool :=
  match v with
  | JArr items => forallb printable items
  | JObj fields =>
      match assoc "toString" fields with
      | Some _ => false
      | None => true
      end
  | _ => true
  end.

(** The task object at [r] has a description that can be shown. *)
Definition described (s : Session) (r : ref) : Prop :=
  exists t, heap s !! r = Some t /\ prints (description t).

(** A step that leaves the task objects, the plan and the two collections
    alone and starts no execution. *)
Definition quiet (s s' : Session) : Prop :=
  heap s' = heap s /\
  currentPlan (context s') = currentPlan (context s) /\
  pendingTasks (context s') = pendingTasks (context s) /\
  completedTasks (context s') = completedTasks (context s) /\
  forall tid, attempts tid s' = attempts tid s.

(** A response from which [parseJson] gets nothing: neither regular
    expression matches, or [JSON.parse] throws on the matched text. *)
Definition unparsable (extract : string -> option string)
    (JSON_parse : string -> outcome json) (response : string) : Prop :=
  extract response = None \/
  exists text e, extract response = Some text /\ JSON_parse text = Throw e.

(** The verdict that the orchestrator reads off a reviewer's parsed answer:
    [parsed?.approved ?? true], taken as a condition. *)
Definition verdict (parsed : json) : bool :=
  truthy (nullish_else (get_opt parsed "approved") (JBool true)).

(** The feedback that the orchestrator reads off the parsed answer of a
    task review: [parsed?.feedback || 'Review completed']. *)
Definition feedback_of (parsed : json) : json :=
  or_else (get_opt parsed "feedback") (JStr "Review completed").

(** The session invariant of a run: task ids are pairwise distinct, the
    collections hold allocated references without repetition, and together
    they hold exactly the tasks of the current plan. *)
Record consistent (s : Session) : Prop := {
  ids_unique : NoDup (map id (heap s));
  refs_valid : forall r, r ∈ queued s -> r < length (heap s);
  refs_unique : NoDup (queued s);
  plan_covers :
    match currentPlan (context s) with
    | Some p => tasks p ≡ₚ queued s
    | None => queued s = []
    end;
}.

(** [s'] differs from [s] on the task objects at most at [r], whose id
    and description are kept, and has the same plan. *)
Record touches (r : ref) (s s' : Session) : Prop := {
  touches_ids : map id (heap s') = map id (heap s);
  touches_descriptions : map description (heap s') = map description (heap s);
  touches_others : forall r', r' <> r -> heap s' !! r' = heap s !! r';
  touches_plan : currentPlan (context s') = currentPlan (context s);
}.

(** While the loop body works on the task [r] with id [tid]: the session
    [s] differs from the session [s0] at the top of the body at most in
    the object [r], and has the same two collections. *)
Record tracked (r : ref) (tid : string) (s0 s : Session) : Prop := {
  tracked_touches : touches r s0 s;
  tracked_pending : pendingTasks (context s) = pendingTasks (context s0);
  tracked_completed : completedTasks (context s) = completedTasks (context s0);
  tracked_task : exists t, heap s !! r = Some t /\ id t = tid;
}.

(** The session in which the loop is entered: consistent, with every task
    still [pending], none completed and none attempted. *)
Record fresh (s : Session) : Prop := {
  fresh_consistent : consistent s;
  fresh_attempts : forall tid, attempts tid s = 0;
  fresh_status : Forall (fun t => status t = pending) (heap s);
  fresh_completed : completedTasks (context s) = [];
}.

(** What holds of the loop state at every test of the loop condition. A
    task is in status [rejected] only when the run was aborted. *)
Record loop_invariant (cfg : WorkflowConfig) (ls : Orchestrator.LoopState) : Prop := {
  inv_consistent : consistent (Orchestrator.session ls);
  inv_attempts :
    forall tid, attempts tid (Orchestrator.session ls) <= S (retryLimit cfg);
  inv_failed :
    forall r, status_of (Orchestrator.session ls) r = Some failed ->
              r ∈ pendingTasks (context (Orchestrator.session ls));
  inv_verdicts :
    forall r, (status_of (Orchestrator.session ls) r = Some rejected ->
               exists e, Orchestrator.at_ ls = Orchestrator.Aborted e) /\
              status_of (Orchestrator.session ls) r <> Some approved;
  inv_running :
    Orchestrator.at_ ls = Orchestrator.Running ->
    Orchestrator.retryCount ls <= retryLimit cfg /\
    forall r t,
      r ∈ pendingTasks (context (Orchestrator.session ls)) ->
      heap (Orchestrator.session ls) !! r = Some t ->
      ContextManager.is_ready (heap (Orchestrator.session ls)) r = true ->
      attempts (id t) (Orchestrator.session ls) <= Orchestrator.retryCount ls /\
      (List.find (ContextManager.is_ready (heap (Orchestrator.session ls)))
         (pendingTasks (context (Orchestrator.session ls))) <> Some r ->
       attempts (id t) (Orchestrator.session ls) = 0);
}.

(** At iteration [i] the executor's request is answered, the action it
    names is carried out, and the action succeeds, whatever the task. *)
Definition execution_succeeds (ext : Ext) (i : nat) : Prop :=
  forall task s, exists res s',
    ExecutorAgent.execute task (executor_answer ext i) (automation ext i) s = (Ok res, s') /\
    exec_success res = true.

(** At iteration [i] the reviewer answers with a rejection. *)
Definition review_rejects (ext : Ext) (i : nat) : Prop :=
  exists v, review_answer ext i = Ok v /\ verdict v = false.

(** The feedback of the review at iteration [i] can be shown. *)
Definition feedback_prints (ext : Ext) (i : nat) : Prop :=
  forall v, review_answer ext i = Ok v -> prints (Some (feedback_of v)).

(** The plan review, when there is one, approves: the plan that
    [createPlan] made is the one the loop works on. *)
Definition plan_stands (cfg : WorkflowConfig) (ext : Ext) : Prop :=
  requireReview cfg = false \/
  exists v, plan_review_answer ext = Ok v /\ verdict v = true.

(** The parsed answer of the planner has no task: [parsed?.tasks] is
    falsy, or it is the empty array. *)
Definition no_tasks (parsed : json) : Prop :=
  truthy_val (get_opt parsed "tasks") = false \/
  get_opt parsed "tasks" = Some (JArr []).

(** The plan review rejects the plan, with feedback that can be shown,
    and the revision has no task either. *)
Definition empty_revision (cfg : WorkflowConfig) (ext : Ext) : Prop :=
  requireReview cfg = true /\
  exists v parsed,
    plan_review_answer ext = Ok v /\ verdict v = false /\
    printable (or_else (get_opt v "feedback") (JStr "Plan approved")) = true /\
    revision_answer ext = Ok parsed /\ no_tasks parsed.

(** An entry of the planner's task list from which [createPlan] makes a
    task: it is not [null], and its [dependencies] are missing, [null],
    or an array of values that can be shown. *)
Definition entry_ok (t : json) : bool :=
  match t with
  | JNull => false
  | _ =>
      match get t "dependencies" with
      | None | Some JNull => true
      | Some (JArr ds) => forallb printable ds
      | Some _ => false
      end
  end.

(** The number of tasks of the plan that [createPlan] makes in session [s]
    from the answer to its request, when it makes one: the selected carer
    can be shown in the prompt, the request is answered, and the task
    list is missing, falsy, or an array of entries that are [entry_ok]. *)
Definition plannable (s : Session) (answer : outcome json) : option nat :=
  if printable (or_else (selectedCarer (state (context s))) (JStr "none")) then
    match answer with
    | Throw _ => None
    | Ok parsed =>
        match get_opt parsed "tasks" with
        | Some (JArr entries) =>
            if forallb entry_ok entries then Some (length entries) else None
        | Some v => if truthy v then None else Some 0
        | None => Some 0
        end
    end
  else None.


(** The loop state while the only task [r], whose description can be
    shown, is being retried: [j] attempts made, all of them rejected. *)
Record retrying (r : ref) (j : nat) (ls : Orchestrator.LoopState) : Prop := {
  retrying_running : Orchestrator.at_ ls = Orchestrator.Running;
  retrying_iteration : Orchestrator.iteration ls = j;
  retrying_count : Orchestrator.retryCount ls = j;
  retrying_consistent : consistent (Orchestrator.session ls);
  retrying_pending : pendingTasks (context (Orchestrator.session ls)) = [r];
  retrying_completed : completedTasks (context (Orchestrator.session ls)) = [];
  retrying_task :
    exists t, heap (Orchestrator.session ls) !! r = Some t /\ status t = pending /\
              prints (description t) /\
              attempts (id t) (Orchestrator.session ls) = j;
}.

(** ** Concrete runs *)

Module Examples.

(** Automation functions that all succeed. *)
Definition automation_ok : Automation :=
  {| login := Ok true;
     extractCarers := Ok [JObj [("code", JStr "FCC-18")]];
     selectCarer := fun _ => Ok true;
     navigateToSupervisoryHomeVisitForm := Ok true;
     fillForm := fun _ => Ok true;
     submitForm := fun _ => Ok (true, "saved");
     getPageState := Ok ("/home", "Home") |}.

Definition plan_of (descriptions : list string) : json :=
  JObj [("tasks", JArr (map (fun d => JObj [("description", JStr d)]) descriptions))].

(** The planner answers with the given tasks, the plan review cannot be
    parsed (and so approves), every execution is a successful
    [GET_STATE], and every task review rejects. *)
Definition always_rejecting (descriptions : list string) : Ext :=
  {| plan_answer := Ok (plan_of descriptions);
     plan_review_answer := Ok JNull;
     revision_answer := Ok JNull;
     executor_answer := fun _ => Ok (JObj [("action", JStr "GET_STATE")]);
     review_answer := fun _ =>
       Ok (JObj [("approved", JBool false); ("feedback", JStr "not what was asked")]);
     automation := fun _ => automation_ok;
     elapsed := fun _ => 0%Z |}.

(** The planner answers with an empty task list, and the request for
    the review of the plan is rejected. *)
Definition review_unavailable : Ext :=
  {| plan_answer := Ok (plan_of []);
     plan_review_answer := Throw (Error "Connection error.");
     revision_answer := Ok JNull;
     executor_answer := fun _ => Ok JNull;
     review_answer := fun _ => Ok JNull;
     automation := fun _ => automation_ok;
     elapsed := fun _ => 0%Z |}.

(** The planner answers with an empty task list, the plan review
    rejects it, and the revision cannot be parsed. *)
Definition empty_twice : Ext :=
  {| plan_answer := Ok (plan_of []);
     plan_review_answer :=
       Ok (JObj [("approved", JBool false); ("feedback", JStr "the plan has no steps")]);
     revision_answer := Ok JNull;
     executor_answer := fun _ => Ok JNull;
     review_answer := fun _ => Ok JNull;
     automation := fun _ => automation_ok;
     elapsed := fun _ => 0%Z |}.

(** The default configuration without the reviews. *)
Definition without_review : WorkflowConfig :=
  {| maxIterations := 15; requireReview := false; autoRetry := true;
     retryLimit := 2; timeout := 300000 |}.


End Examples.

(** The outcome that Scenario C of the specification states for the task
    [r] of a run. *)
Definition left_rejected (cfg : WorkflowConfig) (g : string) (ext : Ext) (r : ref) : Prop :=
  let s := Orchestrator.session (Orchestrator.final cfg g ext) in
  status_of s r = Some rejected /\
  (r ∉ completedTasks (context s)) /\
  wf_success (Orchestrator.run cfg g ext) = false.

(** The outcome that the specification states for an always-rejected task
    [r]: left in status [rejected] or [failed]. *)
Definition left_rejected_or_failed (cfg : WorkflowConfig) (g : string) (ext : Ext)
    (r : ref) : Prop :=
  let s := Orchestrator.session (Orchestrator.final cfg g ext) in
  status_of s r = Some rejected \/ status_of s r = Some failed.

(** What the specification states of [createPlan] and of a run whose
    first plan has no task. *)
Definition createPlan_never_throws : Prop :=
  forall g answer s, exists plan s',
    PlannerAgent.createPlan g answer s = (Ok plan, s').

Definition zero_task_run (cfg : WorkflowConfig) (g : string) (ext : Ext) : Prop :=
  forall plan s',
    PlannerAgent.createPlan g (plan_answer ext) (ContextManager.new g) = (Ok plan, s') ->
    tasks plan = [] ->
    wf_success (Orchestrator.run cfg g ext) = true /\
    wf_completedTasks (Orchestrator.run cfg g ext) = 0 /\
    wf_totalTasks (Orchestrator.run cfg g ext) = 0.

(** ** The writes of a run *)

(** The session after one more call of an automation function. *)
Definition logged (c : AutomationCall) (s : Session) : Session :=
  {| heap := heap s; context := context s; messages := messages s;
     automation_calls := automation_calls s ++ [c] |}.

(** One write to the session by the loop body: the methods of the context
    manager and [sendMessage], with the arguments that the body, the
    executor and the task reviewer give them. *)
Inductive loop_write : Session -> Session -> Prop :=
  | write_history a act i o s :
      loop_write s (ContextManager.addHistory a act i o s)
  | write_state u s :
      loop_write s
        (with_context (set_state (ContextManager.merge_state (state (context s)) u)) s)
  | write_memory k v s :
      k = "carers" \/ k = "formData" ->
      loop_write s (ContextManager.setMemory k v executor s)
  | write_task tid st res s :
      st <> completed ->
      loop_write s
        (ContextManager.updateTask tid
           {| ContextManager.upd_status := Some st; ContextManager.upd_result := res |} s)
  | write_complete tid d s :
      loop_write s
        (ContextManager.completeTask tid
           {| success := JBool true; data := d; reviewNotes := None |} s)
  | write_message pl s :
      exec_success pl = false ->
      loop_write s (Orchestrator.sendMessage executor planner "error" "Task failed" pl s)
  | write_call c s :
      loop_write s (logged c s).

(** One write to the session by the planning steps. *)
Inductive plan_write : Session -> Session -> Prop :=
  | plan_history act i o s :
      plan_write s (ContextManager.addHistory planner act i o s)
  | plan_allocate ts s :
      Forall (fun t => status t = pending) ts ->
      plan_write s (with_heap (fun h => h ++ ts) s)
  | plan_setPlan p s :
      plan_write s (ContextManager.setPlan p s).

(** The [TaskResult] that the loop gives to [completeTask]. *)
Definition successful (res : option TaskResult) : Prop :=
  exists d, res = Some {| success := JBool true; data := d; reviewNotes := None |}.

(** Every task in [completedTasks] has the status [completed], and no
    task in [pendingTasks] has it. *)
Record closed (s : Session) : Prop := {
  closed_completed : forall r, r ∈ completedTasks (context s) ->
                               status_of s r = Some completed;
  closed_pending : forall r, r ∈ pendingTasks (context s) ->
                             status_of s r <> Some completed;
}.

(** The history entry that [createPlan] starts with. *)
Definition create_plan_entry (g : string) : HistoryEntry :=
  {| agent := planner; action := "create_plan"; input := PGoal g; hist_output := PNull |}.

Definition by_reviewer (e : HistoryEntry) : bool :=
  match agent e with reviewer => true | _ => false end.

Definition is_retry (e : Orchestrator.iteration_end) : bool :=
  match e with Orchestrator.Retried _ => true | _ => false end.

(** The configuration [cfg] with a retry limit of zero. *)
Definition without_retries (cfg : WorkflowConfig) : WorkflowConfig :=
  {| maxIterations := maxIterations cfg; requireReview := requireReview cfg;
     autoRetry := autoRetry cfg; retryLimit := 0; timeout := timeout cfg |}.

(** ** Sample sessions *)

Module Samples.

(** The session in which the loop is entered when the planner names two
    tasks: both are pending. *)
Definition two_pending : Session :=
  Orchestrator.session
    (Orchestrator.start DEFAULT_CONFIG "goal"
       (Examples.always_rejecting ["log in"; "list carers"])).

(** The same two tasks, the first of which has failed. *)
Definition second_is_next : Session :=
  ContextManager.updateTask "task-0"
    {| ContextManager.upd_status := Some failed; ContextManager.upd_result := None |}
    two_pending.

(** The same two tasks, the second of which has the higher priority. *)
Definition urgent_second : Session :=
  with_heap
    (fun _ =>
       [ {| id := "task-0"; description := Some (JStr "log in"); status := pending;
            priority := Some (JStr "low"); dependencies := None; result := None |};
         {| id := "task-1"; description := Some (JStr "list carers"); status := pending;
            priority := Some (JStr "high"); dependencies := Some ["task-0"];
            result := None |} ])
    two_pending.

(** A configuration whose timeout has passed at the first reading of
    the clock, and an environment in which two tasks succeed and are
    approved. *)
Definition no_time : WorkflowConfig :=
  {| maxIterations := 15; requireReview := true; autoRetry := true;
     retryLimit := 2; timeout := 0 |}.

Definition two_successes : Ext :=
  {| plan_answer := Ok (Examples.plan_of ["log in"; "list carers"]);
     plan_review_answer := Ok JNull;
     revision_answer := Ok JNull;
     executor_answer := fun _ => Ok (JObj [("action", JStr "GET_STATE")]);
     review_answer := fun _ => Ok (JObj [("approved", JBool true)]);
     automation := fun _ => Examples.automation_ok;
     elapsed := fun i => (1000 * Z.of_nat i)%Z |}.

(** One task, every execution of which succeeds and is then rejected
    with a feedback that is not a string but an object with a property
    named [toString]. *)
Definition unprintable_feedback : Ext :=
  {| plan_answer := Ok (Examples.plan_of ["log in"]);
     plan_review_answer := Ok JNull;
     revision_answer := Ok JNull;
     executor_answer := fun _ => Ok (JObj [("action", JStr "GET_STATE")]);
     review_answer := fun _ =>
       Ok (JObj [("approved", JBool false);
                 ("feedback", JObj [("toString", JNum "1")])]);
     automation := fun _ => Examples.automation_ok;
     elapsed := fun _ => 0%Z |}.

(** One task, whose description is not a string but an object with a
    property named [toString]; the request of the executor would be
    rejected. Without a plan review the task reaches the loop. *)
Definition unprintable_description : Ext :=
  {| plan_answer :=
       Ok (JObj [("tasks",
                  JArr [JObj [("description", JObj [("toString", JNum "1")])]])]);
     plan_review_answer := Ok JNull;
     revision_answer := Ok JNull;
     executor_answer := fun _ => Throw (Error "rate limit");
     review_answer := fun _ => Ok JNull;
     automation := fun _ => Examples.automation_ok;
     elapsed := fun _ => 0%Z |}.

End Samples.

(** ** Vocabulary of the further properties *)

(** A memory item written by the executor under one of its two keys. *)
Definition by_executor (m : MemoryItem) : Prop :=
  (key m = "carers" \/ key m = "formData") /\ source m = executor.

(** The message that the loop sends for a failed execution. *)
Definition failure_report (m : AgentMessage) : Prop :=
  msg_from m = executor /\ msg_to m = planner /\ msg_type m = "error" /\
  content m = "Task failed" /\ exec_success (msg_payload m) = false.

Definition is_failure (e : Orchestrator.iteration_end) : bool :=
  match e with Orchestrator.Failed _ _ => true | _ => false end.

(** A step that sends no message and calls no automation function. *)
Definition same_traffic (s s' : Session) : Prop :=
  messages s' = messages s /\ automation_calls s' = automation_calls s.

(** The history entries written by the reviewer. *)
Definition reviews (s : Session) : list HistoryEntry :=
  List.filter by_reviewer (history (context s)).

(** Every task with the status [completed] carries the result that the
    loop gave to [completeTask]. *)
Definition results_recorded (s : Session) : Prop :=
  forall r t, heap s !! r = Some t -> status t = completed -> successful (result t).

(** The environment [ext] with other answers from the reviewer and to the
    request for a revised plan. *)
Definition with_reviews (ext : Ext) (plan_review revision : outcome json)
    (task_review : nat -> outcome json) : Ext :=
  {| plan_answer := plan_answer ext;
     plan_review_answer := plan_review;
     revision_answer := revision;
     executor_answer := executor_answer ext;
     review_answer := task_review;
     automation := automation ext;
     elapsed := elapsed ext |}.

(** The loop state records no pass that ended in a retry. *)
Definition never_retried (ls : Orchestrator.LoopState) : Prop :=
  Forall (fun e => is_retry e = false) (Orchestrator.trace ls).

(** At iteration [i] the reviewer answers with an approval. *)
Definition review_approves (ext : Ext) (i : nat) : Prop :=
  exists v, review_answer ext i = Ok v /\ verdict v = true.

(** The loop state after [j] passes that each completed the next task of
    the list [todo] with which the loop was entered; the descriptions of
    the tasks still to do can be shown. *)
Record advancing (todo : list ref) (j : nat) (ls : Orchestrator.LoopState) : Prop := {
  adv_alive : forall x, Orchestrator.at_ ls <> Orchestrator.Aborted x;
  adv_consistent : consistent (Orchestrator.session ls);
  adv_pending : pendingTasks (context (Orchestrator.session ls)) = drop j todo;
  adv_completed : completedTasks (context (Orchestrator.session ls)) = take j todo;
  adv_status : forall r, r ∈ pendingTasks (context (Orchestrator.session ls)) ->
                         status_of (Orchestrator.session ls) r = Some pending;
  adv_described : forall r, r ∈ pendingTasks (context (Orchestrator.session ls)) ->
                            described (Orchestrator.session ls) r;
}.

(** Automation functions that all throw [e]. *)
Definition broken (e : exn) : Automation :=
  {| login := Throw e;
     extractCarers := Throw e;
     selectCarer := fun _ => Throw e;
     navigateToSupervisoryHomeVisitForm := Throw e;
     fillForm := fun _ => Throw e;
     submitForm := fun _ => Throw e;
     getPageState := Throw e |}.

(** The statuses that a task can have at a test of the loop condition:
    [in_progress] and [rejected] are left on a task only by a throw. *)
Definition settled (ls : Orchestrator.LoopState) (st : TaskStatus) : Prop :=
  st = pending \/ st = completed \/ st = failed \/
  ((st = in_progress \/ st = rejected) /\
   exists x, Orchestrator.at_ ls = Orchestrator.Aborted x).

(* ===================================================================== *)
(** * Properties *)
(* ===================================================================== *)

(** ** The monad of the agents *)

Lemma bind_modify {B} (f : Session -> Session) (k : unit -> M B) s :
  bind (modify f) k s = k tt (f s).
Proof. reflexivity. Qed.

Lemma bind_ret {A B} (a : A) (k : A -> M B) s : bind (ret a) k s = k a s.
Proof. reflexivity. Qed.

Lemma bind_lift {A B} (o : outcome A) (k : A -> M B) s :
  bind (lift o) k s = match o with Ok a => k a s | Throw e => (Throw e, s) end.
Proof. unfold bind, lift. by destruct o. Qed.

Lemma bind_assoc {A B C} (m : M A) (k1 : A -> M B) (k2 : B -> M C) s :
  bind (bind m k1) k2 s = bind m (fun a => bind (k1 a) k2) s.
Proof. unfold bind. by destruct (m s) as [[a|e] s1]. Qed.

Lemma bind_log {B} (v : jsval) (k : unit -> M B) s :
  bind (Orchestrator.log v) k s =
  match js_string_val v with Ok _ => k tt s | Throw e => (Throw e, s) end.
Proof. unfold Orchestrator.log, bind, lift, ret. by destruct (js_string_val v). Qed.

Lemma bind_execute_prompt {B} (task : Task) (k : unit -> M B) s :
  bind (ExecutorAgent.execute_prompt task) k s =
  match js_string_val (description task) with
  | Ok _ => k tt s
  | Throw e => (Throw e, s)
  end.
Proof.
  unfold ExecutorAgent.execute_prompt, bind, lift, ret.
  by destruct (js_string_val _).
Qed.

Lemma bind_reviewTaskResult_prompt {B} (task : Task) (k : unit -> M B) s :
  bind (ReviewerAgent.reviewTaskResult_prompt task) k s =
  match js_string_val (description task) with
  | Ok _ => k tt s
  | Throw e => (Throw e, s)
  end.
Proof.
  unfold ReviewerAgent.reviewTaskResult_prompt, bind, lift, ret.
  by destruct (js_string_val _).
Qed.

Lemma bind_describe_tasks {B} (l : list ref) (k : unit -> M B) s :
  bind (describe_tasks l) k s =
  match map_outcome
          (fun r => match heap s !! r with
                    | Some t => js_string_val (description t)
                    | None => Ok "undefined"
                    end) l with
  | Ok _ => k tt s
  | Throw e => (Throw e, s)
  end.
Proof. unfold describe_tasks, bind. by destruct (map_outcome _ _). Qed.

Lemma bind_createPlan_prompt {B} (k : unit -> M B) s :
  bind PlannerAgent.createPlan_prompt k s =
  match js_string (or_else (selectedCarer (state (context s))) (JStr "none")) with
  | Ok _ => k tt s
  | Throw e => (Throw e, s)
  end.
Proof. unfold PlannerAgent.createPlan_prompt, bind. by destruct (js_string _). Qed.

Ltac mstep :=
  rewrite ?bind_assoc;
  first [rewrite bind_modify | rewrite bind_ret | rewrite bind_lift];
  cbv beta.

(** ** Lists: [findIndex], [find] and in-place replacement *)

Section ListFacts.
Context {A : Type}.
Implicit Types (p : A -> bool) (l : list A).

Lemma findIndex_Some p l i :
  findIndex p l = Some i ->
  exists x, l !! i = Some x /\ p x = true /\ List.find p l = Some x.
Proof.
  revert i. induction l as [|a l IH]; intros i; simpl; [discriminate|].
  destruct (p a) eqn:Hp.
  - intros [= <-]. exists a. auto.
  - destruct (findIndex p l) as [j|] eqn:Hj; simpl; [|discriminate].
    intros [= <-]. destruct (IH j eq_refl) as (x & ? & ? & ?). exists x. auto.
Qed.

Lemma find_Some_findIndex p l x :
  List.find p l = Some x -> exists i, findIndex p l = Some i /\ l !! i = Some x.
Proof.
  induction l as [|a l IH]; simpl; [discriminate|].
  destruct (p a) eqn:Hp.
  - intros [= <-]. exists 0. auto.
  - intros H. destruct (IH H) as (i & -> & ?). exists (S i). auto.
Qed.

Lemma find_elem p l x : List.find p l = Some x -> x ∈ l /\ p x = true.
Proof.
  intros H. apply List.find_some in H as [H1 H2]. split; [|done].
  by apply list_elem_of_In.
Qed.

End ListFacts.

(** ** The memory store *)

Section Memory.
Import ContextManager.

Lemma setMemory_memory k v src s :
  memory (context (setMemory k v src s)) =
  upsert {| key := k; value := v; source := src |} (memory (context s)).
Proof.
  unfold setMemory, upsert, keyed. simpl.
  by destruct (findIndex _ _).
Qed.

Lemma upsert_cons item a mem :
  upsert item (a :: mem) =
  if keyed (key item) a then item :: mem else a :: upsert item mem.
Proof.
  unfold upsert. simpl. destruct (keyed (key item) a); [done|].
  by destruct (findIndex _ mem).
Qed.

Lemma upsert_find item mem :
  List.find (keyed (key item)) (upsert item mem) = Some item.
Proof.
  induction mem as [|a mem IH].
  - unfold upsert, keyed. simpl. by rewrite String.eqb_refl.
  - rewrite upsert_cons. destruct (keyed (key item) a) eqn:Ha; simpl.
    + unfold keyed. by rewrite String.eqb_refl.
    + by rewrite Ha.
Qed.

Lemma upsert_find_other item mem k :
  k <> key item ->
  List.find (keyed k) (upsert item mem) = List.find (keyed k) mem.
Proof.
  intros Hk.
  assert (Hitem : keyed k item = false).
  { unfold keyed. apply String.eqb_neq. congruence. }
  induction mem as [|a mem IH].
  - unfold upsert. simpl. by rewrite Hitem.
  - rewrite upsert_cons. destruct (keyed (key item) a) eqn:Ha; simpl.
    + rewrite Hitem.
      assert (keyed k a = false) as ->; [|done].
      unfold keyed in *. apply String.eqb_eq in Ha. apply String.eqb_neq. congruence.
    + by rewrite IH.
Qed.

Lemma upsert_filter_other item mem :
  List.filter (fun m => negb (keyed (key item) m)) (upsert item mem) =
  List.filter (fun m => negb (keyed (key item) m)) mem.
Proof.
  assert (Hitem : keyed (key item) item = true).
  { unfold keyed. apply String.eqb_refl. }
  induction mem as [|a mem IH].
  - unfold upsert. simpl. by rewrite Hitem.
  - rewrite upsert_cons. destruct (keyed (key item) a) eqn:Ha; simpl.
    + by rewrite Hitem, Ha.
    + by rewrite Ha, IH.
Qed.

Lemma filter_keyed_absent k mem :
  k ∉ map key mem -> List.filter (keyed k) mem = [].
Proof.
  induction mem as [|a mem IH]; simpl; [done|].
  intros Hk. apply not_elem_of_cons in Hk as [Hne Hk].
  assert (keyed k a = false) as ->.
  { unfold keyed. apply String.eqb_neq. congruence. }
  auto.
Qed.

Lemma upsert_unique item mem :
  NoDup (map key mem) ->
  List.filter (keyed (key item)) (upsert item mem) = [item].
Proof.
  assert (Hitem : keyed (key item) item = true).
  { unfold keyed. apply String.eqb_refl. }
  induction mem as [|a mem IH]; intros Hnd.
  - unfold upsert. simpl. by rewrite Hitem.
  - simpl in Hnd. apply NoDup_cons in Hnd as [Ha Hnd].
    rewrite upsert_cons. destruct (keyed (key item) a) eqn:Hk; simpl.
    + rewrite Hitem. f_equal. apply filter_keyed_absent.
      unfold keyed in Hk. apply String.eqb_eq in Hk. by rewrite <- Hk.
    + rewrite Hk. auto.
Qed.

Lemma upsert_keys item mem :
  NoDup (map key mem) -> NoDup (map key (upsert item mem)).
Proof.
  induction mem as [|a mem IH]; intros Hnd.
  - unfold upsert. simpl. apply NoDup_singleton.
  - simpl in Hnd. apply NoDup_cons in Hnd as [Ha Hnd].
    rewrite upsert_cons. destruct (keyed (key item) a) eqn:Hk; simpl.
    + unfold keyed in Hk. apply String.eqb_eq in Hk. rewrite <- Hk.
      by apply NoDup_cons.
    + apply NoDup_cons. split; [|auto].
      intros Hin. apply Ha.
      apply list_elem_of_fmap in Hin as (m & Hm & Hin).
      apply list_elem_of_fmap.
      unfold upsert in Hin. destruct (findIndex _ mem) as [i|] eqn:Hi.
      * apply list_elem_of_lookup in Hin as [j Hj].
        destruct (decide (i = j)) as [->|Hne].
        -- apply findIndex_Some in Hi as (x & Hx & _).
           rewrite list_lookup_insert_eq in Hj by (by eapply lookup_lt_Some).
           injection Hj as <-. unfold keyed in Hk. rewrite Hm in Hk.
           by rewrite String.eqb_refl in Hk.
        -- rewrite list_lookup_insert_ne in Hj by done.
           exists m. split; [done|]. apply list_elem_of_lookup. eauto.
      * apply elem_of_app in Hin as [Hin|Hin]; [eauto|].
        apply list_elem_of_singleton in Hin as ->.
        unfold keyed in Hk. rewrite Hm in Hk. by rewrite String.eqb_refl in Hk.
Qed.

(** The keys of the memory stay pairwise distinct: they are in the new
    session, and [setMemory] keeps them so. *)
Lemma new_memory_keys g : NoDup (map key (memory (context (new g)))).
Proof. simpl. apply NoDup_nil_2. Qed.

Lemma setMemory_keys k v src s :
  NoDup (map key (memory (context s))) ->
  NoDup (map key (memory (context (setMemory k v src s)))).
Proof. rewrite setMemory_memory. apply upsert_keys. Qed.

(** C9. Memory is last-write-wins per key: after [setMemory k v1 s1] and
    then [setMemory k v2 s2], [getMemory k] is [v2], exactly one memory
    item has key [k] (the second one written), and the items and the
    readings of all other keys are as before the two writes. *)
Theorem memory_last_write_wins (s : Session) (k : string) (v1 v2 : json)
    (s1 s2 : AgentRole) :
  NoDup (map key (memory (context s))) ->
  let s' := setMemory k v2 s2 (setMemory k v1 s1 s) in
  getMemory k s' = Some v2 /\
  List.filter (keyed k) (memory (context s')) =
    [{| key := k; value := v2; source := s2 |}] /\
  List.filter (fun m => negb (keyed k m)) (memory (context s')) =
    List.filter (fun m => negb (keyed k m)) (memory (context s)) /\
  (forall k', k' <> k -> getMemory k' s' = getMemory k' s).
Proof.
  intros Hnd s'. subst s'.
  set (i1 := {| key := k; value := v1; source := s1 |}).
  set (i2 := {| key := k; value := v2; source := s2 |}).
  assert (Hmem : memory (context (setMemory k v2 s2 (setMemory k v1 s1 s))) =
                 upsert i2 (upsert i1 (memory (context s)))).
  { by rewrite !setMemory_memory. }
  unfold getMemory. rewrite Hmem. repeat split.
  - change (fun m => String.eqb (key m) k) with (keyed (key i2)).
    by rewrite upsert_find.
  - change (keyed k) with (keyed (key i2)). apply upsert_unique.
    by apply upsert_keys.
  - change k with (key i2) at 1. rewrite upsert_filter_other.
    change (key i2) with (key i1). by rewrite upsert_filter_other.
  - intros k' Hk'.
    change (fun m => String.eqb (key m) k') with (keyed k').
    rewrite upsert_find_other by done. by rewrite upsert_find_other by done.
Qed.

Lemma memory_last_write_wins_witness :
  let s := setMemory "formData" (JObj []) executor (new "goal") in
  let s' := setMemory "carers" (JArr [JStr "FCC-18"]) executor
              (setMemory "carers" (JArr []) executor s) in
  getMemory "carers" s' = Some (JArr [JStr "FCC-18"]) /\
  List.filter (keyed "carers") (memory (context s')) =
    [{| key := "carers"; value := JArr [JStr "FCC-18"]; source := executor |}] /\
  List.filter (fun m => negb (keyed "carers" m)) (memory (context s')) =
    List.filter (fun m => negb (keyed "carers" m)) (memory (context s)) /\
  (forall k', k' <> "carers" -> getMemory k' s' = getMemory k' s).
Proof.
  intros s. apply (memory_last_write_wins s "carers").
  subst s. apply setMemory_keys, new_memory_keys.
Defined.

End Memory.

(** ** Parse failures *)

Section ParseFailures.
Import ContextManager.

Lemma parseJson_unparsable extract JSON_parse response :
  unparsable extract JSON_parse response ->
  BaseAgent.parseJson extract JSON_parse response = JNull.
Proof.
  unfold BaseAgent.parseJson. intros [->|(text & e & -> & ->)]; reflexivity.
Qed.

Lemma nullish_else_default (a : jsval) (b : json) :
  nullish a = true -> nullish_else a b = b.
Proof. destruct a as [[]|]; simpl; congruence. Qed.

Lemma find_has_id_lookup (h : list Task) (tid : string) (l : list ref) (r : ref) :
  List.find (has_id h tid) l = Some r ->
  exists t, h !! r = Some t /\ id t = tid /\ r ∈ l.
Proof.
  intros H. apply find_elem in H as [Hin Hp].
  unfold has_id in Hp. destruct (h !! r) as [t|]; [|discriminate].
  apply String.eqb_eq in Hp. eauto.
Qed.

Lemma updateTask_found tid u s r t :
  List.find (has_id (heap s) tid) (pendingTasks (context s)) = Some r ->
  heap s !! r = Some t ->
  updateTask tid u s = with_heap (fun h => <[r := assign t u]> h) s.
Proof. intros Hf Ht. unfold updateTask. by rewrite Hf, Ht. Qed.

(** C7. When the reviewer's parsed answer has no usable verdict, as when
    the response could not be parsed and [parseJson] returned [null],
    both [reviewPlan] and [reviewTaskResult] return a review with
    [approved = true], and [reviewTaskResult] marks the task [approved]:
    a malformed answer never rejects a plan or a task. *)
Theorem review_fails_open (parsed : json) :
  nullish (get_opt parsed "approved") = true ->
  (forall plan s,
     exists rv, ReviewerAgent.reviewPlan plan (Ok parsed) s = (Ok rv, s) /\
                review_approved rv = JBool true) /\
  (forall task res s,
     exists rv s',
       ReviewerAgent.reviewTaskResult task res (Ok parsed) s = (Ok rv, s') /\
       review_approved rv = JBool true /\
       forall r, List.find (has_id (heap s) (id task)) (pendingTasks (context s)) = Some r ->
                 status <$> heap s' !! r = Some approved).
Proof.
  intros Hn. split.
  - intros plan s. eexists. split; [reflexivity|].
    simpl. by apply nullish_else_default.
  - intros task res s.
    unfold ReviewerAgent.reviewTaskResult, bind, modify, lift, ret. simpl.
    eexists. eexists. split; [reflexivity|].
    simpl. rewrite (nullish_else_default _ _ Hn). split; [done|].
    intros r Hr. simpl.
    destruct (find_has_id_lookup _ _ _ _ Hr) as (t & Ht & _ & _).
    erewrite updateTask_found; [| exact Hr | exact Ht].
    simpl. rewrite list_lookup_insert_eq by (by eapply lookup_lt_Some).
    reflexivity.
Qed.

(** A response in which neither regular expression finds anything. *)
Lemma review_fails_open_witness :
  let parsed :=
    BaseAgent.parseJson (fun _ => None) (fun _ => Throw Thrown) "Looks fine to me." in
  (forall plan s,
     exists rv, ReviewerAgent.reviewPlan plan (Ok parsed) s = (Ok rv, s) /\
                review_approved rv = JBool true) /\
  (forall task res s,
     exists rv s',
       ReviewerAgent.reviewTaskResult task res (Ok parsed) s = (Ok rv, s') /\
       review_approved rv = JBool true /\
       forall r, List.find (has_id (heap s) (id task)) (pendingTasks (context s)) = Some r ->
                 status <$> heap s' !! r = Some approved).
Proof.
  intros parsed. apply (review_fails_open parsed). reflexivity.
Defined.

(** Every unparsable response is such an answer, for the reviewer and
    for the executor. *)
Lemma unparsable_no_verdict extract JSON_parse response :
  unparsable extract JSON_parse response ->
  nullish (get_opt (BaseAgent.parseJson extract JSON_parse response) "approved") = true.
Proof. intros H. by rewrite (parseJson_unparsable _ _ _ H). Qed.

Lemma unparsable_no_action extract JSON_parse response :
  unparsable extract JSON_parse response ->
  truthy_val (get_opt (BaseAgent.parseJson extract JSON_parse response) "action") = false.
Proof. intros H. by rewrite (parseJson_unparsable _ _ _ H). Qed.

(** C8. When the executor's parsed answer has no usable [action], as
    when the response could not be parsed and [parseJson] returned
    [null], [execute] returns a result with [success = false] and no actions,
    and no automation function has been called. *)
Theorem execute_without_action (task : Task) (parsed : json) (auto : Automation)
    (s : Session) :
  truthy_val (get_opt parsed "action") = false ->
  exists res s',
    ExecutorAgent.execute task (Ok parsed) auto s = (Ok res, s') /\
    exec_success res = false /\
    actions res = [] /\
    output res = None /\
    automation_calls s' = automation_calls s.
Proof.
  intros Hact. unfold ExecutorAgent.execute, bind, modify, lift. simpl.
  destruct (get_opt parsed "action") as [act|] eqn:Ha.
  - simpl in Hact. rewrite Hact. unfold ret. eauto 10.
  - unfold ret. eauto 10.
Qed.

Lemma execute_without_action_witness :
  let task := {| id := "task-0"; description := None; status := in_progress;
                 priority := None; dependencies := None; result := None |} in
  let auto := {| login := Ok true; extractCarers := Ok [];
                 selectCarer := fun _ => Ok true;
                 navigateToSupervisoryHomeVisitForm := Ok true;
                 fillForm := fun _ => Ok true;
                 submitForm := fun _ => Ok (true, "saved");
                 getPageState := Ok ("/home", "Home") |} in
  let parsed :=
    BaseAgent.parseJson (fun r => Some r) (fun _ => Throw (Error "Unexpected token"))
      "{action: LOGIN" in
  exists res s',
    ExecutorAgent.execute task (Ok parsed) auto (new "goal") = (Ok res, s') /\
    exec_success res = false /\
    actions res = [] /\
    output res = None /\
    automation_calls s' = automation_calls (new "goal").
Proof.
  intros task auto parsed. apply (execute_without_action task parsed). reflexivity.
Defined.

End ParseFailures.

(** ** Conversion to a string *)

Section Printing.

Lemma json_induction (P : json -> Prop) :
  P JNull -> (forall b, P (JBool b)) -> (forall n, P (JNum n)) ->
  (forall str, P (JStr str)) ->
  (forall items, Forall P items -> P (JArr items)) ->
  (forall fields, P (JObj fields)) ->
  forall v, P v.
Proof.
  intros HNull HBool HNum HStr HArr HObj.
  fix IH 1. intros [|b|n|str|items|fields];
    [exact HNull|apply HBool|apply HNum|apply HStr| |apply HObj].
  apply HArr. induction items as [|x items IHitems]; constructor;
    [apply IH|exact IHitems].
Qed.

Lemma js_string_cons x items :
  js_string (JArr (x :: items)) =
  match (match x with JNull => Ok "" | _ => js_string x end) with
  | Ok sx =>
      match items with
      | [] => Ok sx
      | _ :: _ =>
          match js_string (JArr items) with
          | Ok sr => Ok (sx +:+ "," +:+ sr)
          | Throw e => Throw e
          end
      end
  | Throw e => Throw e
  end.
Proof. reflexivity. Qed.

(** The conversion throws, and then a [TypeError], exactly on the
    values that are not [printable]. *)
Lemma js_string_printable v :
  if printable v then exists shown, js_string v = Ok shown
  else js_string v = Throw TypeError_not_primitive.
Proof.
  induction v as [|b|n|str|items IH|fields] using json_induction.
  - simpl; eauto.
  - simpl; destruct b; eauto.
  - simpl; eauto.
  - simpl; eauto.
  - cbn [printable].
    induction IH as [|x items Hx _ IHitems]; [simpl; eauto|].
    rewrite js_string_cons. cbn [forallb].
    assert (Hx' : if printable x
                  then exists sx, match x with JNull => Ok "" | _ => js_string x end = Ok sx
                  else match x with JNull => Ok "" | _ => js_string x end =
                       Throw TypeError_not_primitive).
    { destruct x; try exact Hx. simpl. eauto. }
    destruct (printable x); cbn [andb].
    + destruct Hx' as [sx ->].
      destruct (forallb printable items).
      * destruct IHitems as [sr Hsr]. destruct items; [eauto|].
        rewrite Hsr. eauto.
      * destruct items; [discriminate|]. by rewrite IHitems.
    + by rewrite Hx'.
  - simpl. destruct (assoc "toString" fields); eauto.
Qed.

Lemma printable_prints v : printable v = true -> prints (Some v).
Proof.
  intros H. pose proof (js_string_printable v) as Hv. by rewrite H in Hv.
Qed.

Lemma prints_printable v : prints (Some v) -> printable v = true.
Proof.
  intros [shown H]. pose proof (js_string_printable v) as Hv.
  destruct (printable v); [done|]. simpl in H. congruence.
Qed.

Lemma js_string_throws v e : js_string v = Throw e -> e = TypeError_not_primitive.
Proof.
  intros H. pose proof (js_string_printable v) as Hv.
  destruct (printable v); [destruct Hv; congruence|congruence].
Qed.

End Printing.

(** ** Steps that do not touch the tasks *)

Section Frames.
Import ContextManager.

Lemma quiet_refl s : quiet s s.
Proof. unfold quiet. auto. Qed.

Lemma quiet_trans s1 s2 s3 : quiet s1 s2 -> quiet s2 s3 -> quiet s1 s3.
Proof.
  unfold quiet. intros (?&?&?&?&?) (?&?&?&?&?).
  repeat split; try congruence.
Qed.

Lemma attempts_addHistory a act i o s tid :
  attempts tid (addHistory a act i o s) =
  attempts tid s +
  (if is_attempt tid {| agent := a; action := act; input := i; hist_output := o |}
   then 1 else 0).
Proof.
  unfold attempts, addHistory. simpl.
  rewrite List.filter_app, length_app. simpl.
  by destruct (is_attempt _ _).
Qed.

Lemma quiet_addHistory a act i o s :
  (forall tid, is_attempt tid {| agent := a; action := act; input := i;
                                 hist_output := o |} = false) ->
  quiet s (addHistory a act i o s).
Proof.
  intros H. unfold quiet. repeat split; try reflexivity.
  intros tid. rewrite attempts_addHistory, H. lia.
Qed.

Lemma quiet_updateState u s : quiet s (updateState u s).
Proof.
  unfold updateState.
  eapply quiet_trans; [|apply quiet_addHistory; by intros].
  unfold quiet. repeat split; reflexivity.
Qed.

Lemma quiet_setMemory k v src s : quiet s (setMemory k v src s).
Proof.
  unfold setMemory. destruct (findIndex _ _); unfold quiet; repeat split; reflexivity.
Qed.

Lemma quiet_call {A} c (o : outcome A) k s r s' :
  (forall a s1 r1 s2, k a s1 = (r1, s2) -> quiet s1 s2) ->
  ExecutorAgent.call c o k s = (r, s') -> quiet s s'.
Proof.
  intros Hk. unfold ExecutorAgent.call.
  set (s0 := Build_Session _ _ _ _).
  assert (quiet s s0) by (unfold quiet; repeat split; reflexivity).
  destruct o as [a|e].
  - intros Hr. eapply quiet_trans; [eassumption|]. eapply Hk, Hr.
  - intros [= <- <-]. assumption.
Qed.

Lemma quiet_known_action c params auto s r s' :
  ExecutorAgent.known_action c params auto s = (r, s') -> quiet s s'.
Proof.
  unfold ExecutorAgent.known_action.
  destruct c.
  - apply quiet_call. intros a s1 r1 s2 [= <- <-]. apply quiet_updateState.
  - apply quiet_call. intros a s1 r1 s2 [= <- <-]. apply quiet_setMemory.
  - destruct (get params "carerCode") as [code|]; [destruct (truthy code)|].
    + apply quiet_call. intros a s1 r1 s2 [= <- <-].
      destruct a; [apply quiet_updateState|apply quiet_refl].
    + intros [= <- <-]. apply quiet_refl.
    + intros [= <- <-]. apply quiet_refl.
  - apply quiet_call. intros a s1 r1 s2 [= <- <-].
    destruct a; [apply quiet_updateState|apply quiet_refl].
  - destruct (get params "formData") as [fd|]; [destruct (truthy fd)|].
    + intros H. eapply quiet_trans; [apply quiet_setMemory|].
      eapply quiet_call; [|exact H]. intros a s1 r1 s2 [= <- <-]. apply quiet_refl.
    + intros [= <- <-]. apply quiet_refl.
    + intros [= <- <-]. apply quiet_refl.
  - apply quiet_call. intros a s1 r1 s2 [= <- <-]. apply quiet_refl.
  - apply quiet_call. intros a s1 r1 s2 [= <- <-]. apply quiet_updateState.
Qed.

Lemma performAction_cases act params auto s o s' :
  ExecutorAgent.performAction act params auto s = (o, s') ->
  (exists c r, ExecutorAgent.select_case act = Some c /\
               ExecutorAgent.known_action c params auto s = (r, s') /\ o = Ok r) \/
  (ExecutorAgent.select_case act = None /\ s' = s /\
   match js_string act with
   | Ok name => o = Ok (ExecutorAgent.fail_with ("Unknown action: " +:+ name))
   | Throw e => o = Throw e
   end).
Proof.
  unfold ExecutorAgent.performAction.
  destruct (ExecutorAgent.select_case act) as [c|].
  - destruct (ExecutorAgent.known_action c params auto s) as [r s1] eqn:Hk.
    intros [= <- <-]. left. eauto.
  - destruct (js_string act) as [name|e]; intros [= <- <-]; right; done.
Qed.

Lemma quiet_performAction act params auto s o s' :
  ExecutorAgent.performAction act params auto s = (o, s') -> quiet s s'.
Proof.
  intros H. apply performAction_cases in H as [(c & r & _ & H & _)|(_ & -> & _)].
  - eapply quiet_known_action, H.
  - apply quiet_refl.
Qed.

(** What a failed action hands back can always be shown. *)
Lemma known_action_failure c params auto s r s' :
  ExecutorAgent.known_action c params auto s = (r, s') ->
  ExecutorAgent.ar_success r = false -> prints (ExecutorAgent.ar_data r).
Proof.
  unfold ExecutorAgent.known_action, ExecutorAgent.call, prints.
  destruct c.
  - destruct (login auto); intros [= <- <-] _; simpl; eauto.
  - destruct (extractCarers auto) as [[|c cs]|]; intros [= <- <-]; simpl;
      try discriminate; eauto.
  - destruct (get params "carerCode") as [code|]; [destruct (truthy code)|];
      [destruct (selectCarer auto code)|..]; intros [= <- <-] _; simpl; eauto.
  - destruct (navigateToSupervisoryHomeVisitForm auto); intros [= <- <-] _; simpl; eauto.
  - destruct (get params "formData") as [fd|]; [destruct (truthy fd)|];
      [destruct (fillForm auto fd)|..]; intros [= <- <-] _; simpl; eauto.
  - destruct (submitForm auto _); intros [= <- <-] _; simpl; eauto.
  - destruct (getPageState auto); intros [= <- <-] _; simpl; eauto.
Qed.

(** [execute] writes one [execute_start] entry for its task and leaves
    the task objects, the plan and the collections as they are. *)
Lemma execute_effect task ans auto s o s' :
  ExecutorAgent.execute task ans auto s = (o, s') ->
  heap s' = heap s /\
  currentPlan (context s') = currentPlan (context s) /\
  pendingTasks (context s') = pendingTasks (context s) /\
  completedTasks (context s') = completedTasks (context s) /\
  forall tid, attempts tid s' =
              attempts tid s + (if String.eqb (id task) tid then 1 else 0).
Proof.
  unfold ExecutorAgent.execute, bind, modify, lift, ret. simpl.
  set (s0 := addHistory executor "execute_start" (PTaskId (id task)) PNull s).
  assert (H0 : forall tid, attempts tid s0 =
               attempts tid s + (if String.eqb (id task) tid then 1 else 0)).
  { intros tid. subst s0. rewrite attempts_addHistory. reflexivity. }
  assert (Hq : forall s1, quiet s0 s1 ->
            heap s1 = heap s /\
            currentPlan (context s1) = currentPlan (context s) /\
            pendingTasks (context s1) = pendingTasks (context s) /\
            completedTasks (context s1) = completedTasks (context s) /\
            forall tid, attempts tid s1 =
                        attempts tid s + (if String.eqb (id task) tid then 1 else 0)).
  { intros s1 (?&?&?&?&Ha). repeat split; try assumption.
    intros tid. rewrite Ha. apply H0. }
  destruct ans as [parsed|e]; [|intros [= <- <-]; apply Hq, quiet_refl].
  destruct (get_opt parsed "action") as [act|];
    [destruct (truthy act)|]; try (intros [= <- <-]; apply Hq, quiet_refl).
  destruct (ExecutorAgent.performAction _ _ _ _) as [[ar|e] s1] eqn:Hp.
  - intros [= <- <-]. apply Hq.
    eapply quiet_trans; [eapply quiet_performAction, Hp|].
    apply quiet_addHistory. by intros.
  - intros [= <- <-]. apply Hq. eapply quiet_performAction, Hp.
Qed.

(** The output of a failed execution can always be shown. *)
Lemma failed_output_prints task ans auto s res s' :
  ExecutorAgent.execute task ans auto s = (Ok res, s') ->
  exec_success res = false -> prints (output res).
Proof.
  unfold ExecutorAgent.execute, bind, modify, lift, ret. simpl.
  destruct ans as [parsed|e]; [|discriminate].
  assert (Hu : prints None) by (by exists "undefined").
  destruct (get_opt parsed "action") as [act|];
    [destruct (truthy act)|]; try (by intros [= <- <-]).
  destruct (ExecutorAgent.performAction _ _ _ _) as [[ar|e] s1] eqn:Hp; [|discriminate].
  intros [= <- <-]. simpl.
  apply performAction_cases in Hp as [(c & r & _ & H & [= <-])|(_ & _ & H)].
  - by eapply known_action_failure.
  - destruct (js_string act); [|discriminate].
    injection H as ->. intros _. unfold prints. simpl. eauto.
Qed.

End Frames.

(** ** Finding a task by its id *)

Section TaskLookup.
Import ContextManager.

Lemma lookup_id_inj (h : list Task) r1 r2 t1 t2 :
  NoDup (map id h) ->
  h !! r1 = Some t1 -> h !! r2 = Some t2 -> id t1 = id t2 -> r1 = r2.
Proof.
  intros Hnd H1 H2 Hid.
  eapply NoDup_lookup; [exact Hnd| |].
  - rewrite list_lookup_fmap, H1. reflexivity.
  - rewrite list_lookup_fmap, H2. simpl. by rewrite Hid.
Qed.

Lemma has_id_lookup (h : list Task) tid r :
  has_id h tid r =
  match map id h !! r with Some i => String.eqb i tid | None => false end.
Proof. unfold has_id. rewrite list_lookup_fmap. destruct (h !! r); reflexivity. Qed.

Lemma find_by_id (h : list Task) l r t :
  NoDup (map id h) -> h !! r = Some t -> r ∈ l ->
  List.find (has_id h (id t)) l = Some r.
Proof.
  intros Hnd Ht. induction l as [|a l IH]; intros Hin.
  - by apply elem_of_nil in Hin.
  - simpl. destruct (has_id h (id t) a) eqn:Ha.
    + unfold has_id in Ha. destruct (h !! a) as [ta|] eqn:Hta; [|discriminate].
      apply String.eqb_eq in Ha. f_equal. eapply lookup_id_inj; eauto.
    + apply elem_of_cons in Hin as [->|Hin]; [|auto].
      unfold has_id in Ha. rewrite Ht, String.eqb_refl in Ha. discriminate.
Qed.

Lemma map_id_insert (h : list Task) r t t' :
  h !! r = Some t -> id t' = id t -> map id (<[r := t']> h) = map id h.
Proof.
  intros Ht Hid. rewrite list_fmap_insert, Hid.
  apply list_insert_id. rewrite list_lookup_fmap, Ht. reflexivity.
Qed.

Lemma map_description_insert (h : list Task) r t t' :
  h !! r = Some t -> description t' = description t ->
  map description (<[r := t']> h) = map description h.
Proof.
  intros Ht Hid. rewrite list_fmap_insert, Hid.
  apply list_insert_id. rewrite list_lookup_fmap, Ht. reflexivity.
Qed.

Lemma getNextTask_Some s r t :
  getNextTask s = Some (r, t) ->
  r ∈ pendingTasks (context s) /\ heap s !! r = Some t /\
  is_ready (heap s) r = true /\
  List.find (is_ready (heap s)) (pendingTasks (context s)) = Some r.
Proof.
  unfold getNextTask.
  destruct (List.find _ _) as [r'|] eqn:Hf; [|discriminate].
  destruct (heap s !! r') as [t'|] eqn:Ht; simpl; [|discriminate].
  intros [= <- <-]. apply find_elem in Hf as Hf'. destruct Hf'. auto.
Qed.

End TaskLookup.

(** ** One pass through the loop body *)

Section Body.
Import ContextManager.

Lemma updateTask_by_id s r t u :
  NoDup (map id (heap s)) -> heap s !! r = Some t ->
  r ∈ pendingTasks (context s) ->
  updateTask (id t) u s = with_heap (fun h => <[r := assign t u]> h) s.
Proof.
  intros Hnd Ht Hin. eapply updateTask_found; [|exact Ht].
  by apply find_by_id.
Qed.

Lemma completeTask_by_id s r t res :
  NoDup (map id (heap s)) -> heap s !! r = Some t ->
  r ∈ pendingTasks (context s) ->
  exists idx,
    pendingTasks (context s) !! idx = Some r /\
    completeTask (id t) res s =
    with_context
      (fun c => set_queues (completedTasks c ++ [r])
                  (delete idx (pendingTasks (context s))) c)
      (with_heap (fun h => <[r := {| id := id t; description := description t;
                                     status := completed; priority := priority t;
                                     dependencies := dependencies t;
                                     result := Some res |}]> h) s).
Proof.
  intros Hnd Ht Hin.
  pose proof (find_by_id _ _ _ _ Hnd Ht Hin) as Hf.
  apply find_Some_findIndex in Hf as (idx & Hidx & Hl).
  exists idx. split; [done|].
  unfold completeTask. by rewrite Hidx, Hl, Ht.
Qed.

Lemma touches_refl r s : touches r s s.
Proof. by split. Qed.

Lemma tracked_init s r t : heap s !! r = Some t -> tracked r (id t) s s.
Proof. intros Ht. split; [apply touches_refl|done|done|eauto]. Qed.

Lemma tracked_frame r tid s0 s s' :
  tracked r tid s0 s ->
  heap s' = heap s ->
  currentPlan (context s') = currentPlan (context s) ->
  pendingTasks (context s') = pendingTasks (context s) ->
  completedTasks (context s') = completedTasks (context s) ->
  tracked r tid s0 s'.
Proof.
  intros [[Hi Hd Ho Hp] Hpe Hco Ht] Hh Hp' Hpe' Hco'.
  split; [split|..]; rewrite ?Hh; try congruence; auto.
Qed.

Lemma tracked_updateTask r tid s0 s u :
  NoDup (map id (heap s0)) -> r ∈ pendingTasks (context s0) ->
  tracked r tid s0 s ->
  tracked r tid s0 (updateTask tid u s) /\
  (forall st, upd_status u = Some st -> status_of (updateTask tid u s) r = Some st) /\
  history (context (updateTask tid u s)) = history (context s).
Proof.
  intros Hnd Hin [[Hi Hd Ho Hp] Hpe Hco (t & Ht & Hid)]. subst tid.
  rewrite (updateTask_by_id s r t u); [| by rewrite Hi | done | by rewrite Hpe].
  split; [|split]; [|intros st Hst|reflexivity].
  - split; [split|..]; simpl; try done.
    + erewrite map_id_insert; eauto.
    + erewrite map_description_insert; eauto.
    + intros r' Hr'. rewrite list_lookup_insert_ne by done. auto.
    + exists (assign t u). split; [|done].
      apply list_lookup_insert_eq. by eapply lookup_lt_Some.
  - unfold status_of. simpl.
    rewrite list_lookup_insert_eq by (by eapply lookup_lt_Some).
    simpl. by rewrite Hst.
Qed.

Lemma tracked_completeTask r tid s0 s res :
  NoDup (map id (heap s0)) -> r ∈ pendingTasks (context s0) ->
  tracked r tid s0 s ->
  touches r s0 (completeTask tid res s) /\
  (exists idx, pendingTasks (context s0) !! idx = Some r /\
     pendingTasks (context (completeTask tid res s)) =
     delete idx (pendingTasks (context s0))) /\
  completedTasks (context (completeTask tid res s)) =
    completedTasks (context s0) ++ [r] /\
  status_of (completeTask tid res s) r = Some completed /\
  history (context (completeTask tid res s)) = history (context s).
Proof.
  intros Hnd Hin [[Hi Hd Ho Hp] Hpe Hco (t & Ht & Hid)]. subst tid.
  destruct (completeTask_by_id s r t res) as (idx & Hidx & ->);
    [by rewrite Hi | done | by rewrite Hpe |].
  rewrite Hpe in Hidx. repeat split; simpl.
  - erewrite map_id_insert; eauto.
  - erewrite map_description_insert; eauto.
  - intros r' Hr'. rewrite list_lookup_insert_ne by done. auto.
  - done.
  - exists idx. by rewrite Hpe.
  - by rewrite Hco.
  - unfold status_of. simpl.
    by rewrite list_lookup_insert_eq by (by eapply lookup_lt_Some).
Qed.

Lemma attempts_same_history s s' tid :
  history (context s') = history (context s) -> attempts tid s' = attempts tid s.
Proof. unfold attempts. by intros ->. Qed.

Lemma status_same_heap r s s' st :
  heap s' = heap s -> status_of s r = Some st -> status_of s' r = Some st.
Proof. unfold status_of. by intros ->. Qed.

(** What one pass through the body does, case by case. *)
Lemma body_spec cfg ext i rc s o s' :
  consistent s ->
  Orchestrator.body cfg ext i rc s = (o, s') ->
  match getNextTask s with
  | None => o = Ok (Orchestrator.NoTask, rc) /\ s' = s
  | Some (r, t) =>
      match js_string_val (description t) with
      | Throw e => o = Throw e /\ s' = s
      | Ok _ =>
      touches r s s' /\
      (forall tid, attempts tid s' =
                   attempts tid s + (if String.eqb (id t) tid then 1 else 0)) /\
      let exec :=
        fst (ExecutorAgent.execute t (executor_answer ext i) (automation ext i)
               (updateTask (id t)
                  {| upd_status := Some in_progress; upd_result := None |} s)) in
      match o with
      | Throw e =>
          pendingTasks (context s') = pendingTasks (context s) /\
          completedTasks (context s') = completedTasks (context s) /\
          ((status_of s' r = Some in_progress /\
            (exec = Throw e \/
             exists res, exec = Ok res /\ exec_success res = true /\
                         requireReview cfg = true /\ review_answer ext i = Throw e)) \/
           (status_of s' r = Some rejected /\
            exists res v, exec = Ok res /\ exec_success res = true /\
                          requireReview cfg = true /\
                          review_answer ext i = Ok v /\ verdict v = false /\
                          js_string (feedback_of v) = Throw e))
      | Ok (Orchestrator.NoTask, _) => False
      | Ok (Orchestrator.Retried r', rc') =>
          r' = r /\ rc' = S rc /\
          pendingTasks (context s') = pendingTasks (context s) /\
          completedTasks (context s') = completedTasks (context s) /\
          status_of s' r = Some pending /\
          requireReview cfg = true /\ autoRetry cfg = true /\ rc < retryLimit cfg /\
          exists res v, exec = Ok res /\ exec_success res = true /\
                        review_answer ext i = Ok v /\ verdict v = false /\
                        prints (Some (feedback_of v))
      | Ok (Orchestrator.Completed r' timed_out, rc') =>
          r' = r /\ timed_out = (elapsed ext i >? timeout cfg)%Z /\
          (exists idx, pendingTasks (context s) !! idx = Some r /\
             pendingTasks (context s') = delete idx (pendingTasks (context s))) /\
          completedTasks (context s') = completedTasks (context s) ++ [r] /\
          status_of s' r = Some completed /\
          exists res, exec = Ok res /\ exec_success res = true /\
            ((requireReview cfg = false /\ rc' = rc) \/
             (requireReview cfg = true /\
              exists v, review_answer ext i = Ok v /\
                ((verdict v = true /\ rc' = 0) \/
                 (verdict v = false /\ prints (Some (feedback_of v)) /\
                  autoRetry cfg && (rc <? retryLimit cfg)%nat = false /\ rc' = rc))))
      | Ok (Orchestrator.Failed r' timed_out, rc') =>
          r' = r /\ timed_out = (elapsed ext i >? timeout cfg)%Z /\ rc' = rc /\
          pendingTasks (context s') = pendingTasks (context s) /\
          completedTasks (context s') = completedTasks (context s) /\
          status_of s' r = Some failed /\
          exists res, exec = Ok res /\ exec_success res = false
      end
      end
  end.
Proof.
  intros Hc. unfold Orchestrator.body.
  destruct (getNextTask s) as [[r t]|] eqn:Hnext; [|intros [= <- <-]; done].
  apply getNextTask_Some in Hnext as (Hin & Ht & Hready & Hfind).
  destruct Hc as [Hnd Hval Huniq Hplan].
  pose proof (tracked_init s r t Ht) as Htr0.
  rewrite bind_log.
  destruct (js_string_val (description t)) as [shown|e0] eqn:Hd;
    [|intros [= <- <-]; done].
  cbv zeta.
  unfold bind at 1. unfold modify at 1.
  destruct (tracked_updateTask r (id t) s s
              {| upd_status := Some in_progress; upd_result := None |}
              Hnd Hin Htr0) as (Htr1 & Hst1 & Hhist1).
  specialize (Hst1 in_progress eq_refl).
  set (s1 := updateTask (id t) _ s) in *.
  rewrite bind_execute_prompt, Hd.
  unfold bind at 1.
  destruct (ExecutorAgent.execute _ _ _ s1) as [oe s2] eqn:Hexec.
  pose proof (execute_effect _ _ _ _ _ _ Hexec) as (Hh2 & Hp2 & Hpe2 & Hco2 & Hat2).
  assert (Htr2 : tracked r (id t) s s2) by (eapply tracked_frame; eauto).
  assert (Hst2 : status_of s2 r = Some in_progress)
    by (eapply status_same_heap; eauto).
  assert (Hatt2 : forall tid, attempts tid s2 =
            attempts tid s + (if String.eqb (id t) tid then 1 else 0)).
  { intros tid. rewrite Hat2. f_equal. by apply attempts_same_history. }
  destruct oe as [res|e]; cbv beta iota.
  2: { intros [= <- <-]. split; [apply Htr2|]. split; [exact Hatt2|].
       cbv zeta. cbn [fst].
       split; [apply Htr2|]. split; [apply Htr2|]. left. auto. }
  cbv zeta. cbn [fst].
  assert (Hcomplete : forall s3 rcX,
    tracked r (id t) s s3 ->
    (forall tid, attempts tid s3 =
                 attempts tid s + (if String.eqb (id t) tid then 1 else 0)) ->
    (modify (completeTask (id t)
               {| success := JBool true; data := output res; reviewNotes := None |}) ;;;
     ret (Orchestrator.Completed r (elapsed ext i >? timeout cfg)%Z, rcX)) s3 = (o, s') ->
    o = Ok (Orchestrator.Completed r (elapsed ext i >? timeout cfg)%Z, rcX) /\
    touches r s s' /\
    (forall tid, attempts tid s' =
                 attempts tid s + (if String.eqb (id t) tid then 1 else 0)) /\
    (exists idx, pendingTasks (context s) !! idx = Some r /\
       pendingTasks (context s') = delete idx (pendingTasks (context s))) /\
    completedTasks (context s') = completedTasks (context s) ++ [r] /\
    status_of s' r = Some completed).
  { intros s3 rcX Htr3 Hatt3. unfold bind, modify, ret. intros [= <- <-].
    destruct (tracked_completeTask r (id t) s s3
                {| success := JBool true; data := output res; reviewNotes := None |}
                Hnd Hin Htr3) as (Hto & Hpe & Hco & Hst & Hh).
    split_and!; try assumption; try reflexivity.
    intros tid. rewrite <- Hatt3. by apply attempts_same_history. }
  destruct (exec_success res) eqn:Hsucc.
  - rewrite andb_true_r. destruct (requireReview cfg) eqn:Hrr.
    + rewrite ?bind_assoc, bind_reviewTaskResult_prompt, Hd.
      unfold ReviewerAgent.reviewTaskResult. mstep.
      set (s2a := addHistory reviewer "review_start" _ _ s2).
      assert (Htr2a : tracked r (id t) s s2a)
        by (eapply tracked_frame; [exact Htr2|reflexivity..]).
      assert (Hatt2a : forall tid, attempts tid s2a =
                attempts tid s + (if String.eqb (id t) tid then 1 else 0)).
      { intros tid. subst s2a. rewrite attempts_addHistory. simpl.
        rewrite Hatt2. lia. }
      mstep.
      destruct (review_answer ext i) as [v|e] eqn:Hv.
      2: { intros [= <- <-]. split; [apply Htr2a|]. split; [exact Hatt2a|].
           split; [apply Htr2a|]. split; [apply Htr2a|]. left.
           split; [eapply status_same_heap; [|exact Hst2]; reflexivity|].
           right. eauto. }
      cbv zeta. mstep.
      set (s2b := addHistory reviewer "review_complete" _ _ s2a).
      assert (Htr2b : tracked r (id t) s s2b)
        by (eapply tracked_frame; [exact Htr2a|reflexivity..]).
      assert (Hatt2b : forall tid, attempts tid s2b =
                attempts tid s + (if String.eqb (id t) tid then 1 else 0)).
      { intros tid. subst s2b. rewrite attempts_addHistory. simpl.
        rewrite Hatt2a. lia. }
      mstep.
      match goal with |- context [updateTask (id t) ?u s2b] =>
        destruct (tracked_updateTask r (id t) s s2b u Hnd Hin Htr2b)
          as (Htr3 & Hst3 & Hh3);
        set (s3 := updateTask (id t) u s2b) in *
      end.
      cbn [upd_status review_approved] in Hst3.
      assert (Hatt3 : forall tid, attempts tid s3 =
                attempts tid s + (if String.eqb (id t) tid then 1 else 0)).
      { intros tid. rewrite <- Hatt2b. by apply attempts_same_history. }
      mstep. cbn [review_approved].
      change (truthy (nullish_else (get_opt v "approved") (JBool true)))
        with (verdict v).
      destruct (verdict v) eqn:Hverd; cbn [negb].
      * mstep.
        intros Hrun.
        destruct (Hcomplete _ _ Htr3 Hatt3 Hrun) as (-> & ? & ? & ? & ? & ?).
        split_and!; try assumption; try reflexivity.
        exists res. split_and!; try done. right. split; [done|].
        exists v. split; [done|]. by left.
      * change (truthy (nullish_else (get_opt v "approved") (JBool true)))
          with (verdict v) in Hst3.
        rewrite Hverd in Hst3. specialize (Hst3 rejected eq_refl).
        rewrite ?bind_assoc, bind_log. cbn [feedback].
        change (js_string_val (Some (or_else (get_opt v "feedback")
                                       (JStr "Review completed"))))
          with (js_string (feedback_of v)).
        destruct (js_string (feedback_of v)) as [fshown|e] eqn:Hfb.
        2: { intros [= <- <-]. split; [apply Htr3|]. split; [exact Hatt3|].
             split; [apply Htr3|]. split; [apply Htr3|]. right.
             split; [exact Hst3|]. exists res, v. auto 10. }
        assert (Hfp : prints (Some (feedback_of v))) by (by exists fshown).
        destruct (autoRetry cfg && (rc <? retryLimit cfg)%nat) eqn:Hretry.
        -- mstep. mstep. unfold ret. intros [= <- <-].
           destruct (tracked_updateTask r (id t) s s3
                       {| upd_status := Some pending; upd_result := None |}
                       Hnd Hin Htr3) as (Htr4 & Hst4 & Hh4).
           apply andb_true_iff in Hretry as [Har Hlt].
           apply Nat.ltb_lt in Hlt.
           split; [apply Htr4|]. split.
           { intros tid. rewrite <- Hatt3. by apply attempts_same_history. }
           split_and!; try done; try apply Htr4; auto.
           exists res, v. auto 10.
        -- mstep.
           intros Hrun.
           destruct (Hcomplete _ _ Htr3 Hatt3 Hrun) as (-> & ? & ? & ? & ? & ?).
           split_and!; try assumption; try reflexivity.
           exists res. split_and!; try done. right. split; [done|].
           exists v. split; [done|]. right. auto.
    + cbn [andb]. mstep.
      intros Hrun.
      destruct (Hcomplete _ _ Htr2 Hatt2 Hrun) as (-> & ? & ? & ? & ? & ?).
      split_and!; try assumption; try reflexivity.
      exists res. split_and!; try done. by left.
  - rewrite andb_false_r. mstep. mstep.
    rewrite ?bind_assoc, bind_log.
    destruct (failed_output_prints _ _ _ _ _ _ Hexec Hsucc) as [oshown ->].
    mstep. unfold ret. intros [= <- <-].
    destruct (tracked_updateTask r (id t) s s2
                {| upd_status := Some failed; upd_result := None |}
                Hnd Hin Htr2) as (Htr3 & Hst3 & Hh3).
    split; [eapply tracked_frame; [exact Htr3|reflexivity..]|]. split.
    { intros tid. rewrite <- Hatt2. by apply attempts_same_history. }
    split_and!; try done; try apply Htr3.
    + eapply status_same_heap; [|apply Hst3; reflexivity]. reflexivity.
    + eauto.
Qed.

End Body.

(** ** Planning *)

Section Planning.
Import ContextManager.

Lemma map_indexed_Forall {A} (f : nat -> json -> outcome A) (P : nat -> A -> Prop)
    k items l :
  (forall i t x, f i t = Ok x -> P i x) ->
  map_indexed f k items = Ok l ->
  Forall2 P (seq k (length l)) l.
Proof.
  intros Hf. revert k l. induction items as [|t items IH]; intros k l; simpl.
  - intros [= <-]. constructor.
  - destruct (f k t) as [a|e] eqn:Ha; [|discriminate].
    destruct (map_indexed f (S k) items) as [l'|e] eqn:Hl; [|discriminate].
    intros [= <-]. simpl. constructor; eauto.
Qed.

Lemma Forall2_ids (g : nat -> string) (ks : list nat) (l : list Task) :
  Forall2 (fun i x => id x = g i /\ status x = pending) ks l ->
  map id l = map g ks /\ Forall (fun x => status x = pending) l.
Proof.
  induction 1 as [|i x ks l [Hi Hs] _ [IH1 IH2]]; simpl; [by split|].
  split; [by rewrite Hi, IH1 | by constructor].
Qed.

Lemma planned_task_spec i t x :
  PlannerAgent.planned_task i t = Ok x ->
  id x = "task-" +:+ pretty i /\ status x = pending.
Proof.
  unfold PlannerAgent.planned_task. intros H.
  destruct t; try discriminate;
    repeat (match type of H with
            | context [match ?c with _ => _ end] => destruct c; try discriminate
            end);
    injection H as <-; by split.
Qed.

Lemma revised_task_spec i t x :
  PlannerAgent.revised_task i t = Ok x ->
  id x = "task-r-" +:+ pretty i /\ status x = pending.
Proof.
  unfold PlannerAgent.revised_task. intros H.
  destruct t; try discriminate; injection H as <-; by split.
Qed.

Lemma pretty_N_go_not_r x s s' :
  s <> String "r"%char s' -> pretty_N_go x s <> String "r"%char s'.
Proof.
  revert s. induction (N.lt_wf_0 x) as [x _ IH]; intros s Hs.
  assert (x = 0 \/ 0 < x)%N as [->|Hx] by lia.
  - by rewrite pretty_N_go_0.
  - rewrite pretty_N_go_step by done. apply IH.
    { by apply N.div_lt. }
    unfold pretty_N_char. by repeat case_match.
Qed.

Lemma pretty_nat_not_r (i : nat) s : pretty i <> String "r"%char s.
Proof.
  unfold pretty, pretty_nat, pretty, pretty_N.
  case_decide; [discriminate|]. by apply pretty_N_go_not_r.
Qed.

Lemma task_id_not_revised (i j : nat) :
  "task-" +:+ pretty i <> "task-r-" +:+ pretty j.
Proof. intros H. simplify_eq/=. by eapply pretty_nat_not_r. Qed.

Lemma createPlan_spec g ans s o s' :
  PlannerAgent.createPlan g ans s = (o, s') ->
  (forall tid, attempts tid s' = attempts tid s) /\
  completedTasks (context s') = completedTasks (context s) /\
  match o with
  | Ok plan =>
      exists new_tasks,
        heap s' = heap s ++ new_tasks /\
        map id new_tasks =
          map (fun i : nat => "task-" +:+ pretty i) (seq 0 (length new_tasks)) /\
        Forall (fun x => status x = pending) new_tasks /\
        tasks plan = seq (length (heap s)) (length new_tasks) /\
        currentPlan (context s') = Some plan /\
        pendingTasks (context s') = tasks plan
  | Throw _ =>
      heap s' = heap s /\
      currentPlan (context s') = currentPlan (context s) /\
      pendingTasks (context s') = pendingTasks (context s)
  end.
Proof.
  unfold PlannerAgent.createPlan. rewrite bind_createPlan_prompt.
  destruct (js_string _) as [carer|e]; [|by intros [= <- <-]].
  mstep.
  set (s0 := addHistory planner "create_plan" _ _ s).
  assert (Hq : quiet s s0) by (apply quiet_addHistory; by intros).
  destruct Hq as (Hh0 & Hp0 & Hpe0 & Hco0 & Hat0).
  mstep. destruct ans as [parsed|e]; [|by intros [= <- <-]].
  mstep. destruct (as_array _) as [entries|e]; [|by intros [= <- <-]].
  mstep. destruct (map_indexed _ 0 entries) as [new_tasks|e] eqn:Hmap;
    [|by intros [= <- <-]].
  unfold allocate. unfold bind at 1. cbv beta iota.
  mstep. mstep. unfold ret. intros [= <- <-].
  pose proof (map_indexed_Forall _ _ _ _ _ planned_task_spec Hmap) as HF.
  apply Forall2_ids in HF as [Hids Hst].
  split; [|split; [done|]].
  { intros tid. rewrite attempts_addHistory. simpl. rewrite <- Hat0.
    unfold attempts. simpl. lia. }
  exists new_tasks. simpl. rewrite length_seq. split_and!; auto.
Qed.

Lemma revisePlan_spec fb ans s o s' :
  PlannerAgent.revisePlan fb ans s = (o, s') ->
  history (context s') = history (context s) /\
  completedTasks (context s') = completedTasks (context s) /\
  match o with
  | Ok plan =>
      exists new_tasks,
        heap s' = heap s ++ new_tasks /\
        map id new_tasks =
          map (fun i : nat => "task-r-" +:+ pretty i) (seq 0 (length new_tasks)) /\
        Forall (fun x => status x = pending) new_tasks /\
        tasks plan =
          match currentPlan (context s) with
          | Some p => List.filter (PlannerAgent.is_completed (heap s')) (tasks p)
          | None => []
          end ++ seq (length (heap s)) (length new_tasks) /\
        currentPlan (context s') = Some plan /\
        pendingTasks (context s') = tasks plan
  | Throw _ => s' = s
  end.
Proof.
  unfold PlannerAgent.revisePlan. cbv zeta. rewrite bind_describe_tasks.
  destruct (map_outcome _ _) as [shown|e]; [|by intros [= <- <-]].
  mstep. destruct (js_string fb) as [fshown|e]; [|by intros [= <- <-]].
  mstep. destruct ans as [parsed|e]; [|by intros [= <- <-]].
  mstep. destruct (as_array _) as [entries|e]; [|by intros [= <- <-]].
  mstep. destruct (map_indexed _ 0 entries) as [new_tasks|e] eqn:Hmap;
    [|by intros [= <- <-]].
  unfold allocate. unfold bind at 1. cbv beta iota zeta.
  mstep. unfold ret. intros [= <- <-].
  pose proof (map_indexed_Forall _ _ _ _ _ revised_task_spec Hmap) as HF.
  apply Forall2_ids in HF as [Hids Hst].
  split; [done|]. split; [done|].
  exists new_tasks. simpl. rewrite length_seq. split_and!; auto.
Qed.

Lemma filter_is_completed_pending (h : list Task) (l : list ref) :
  Forall (fun t => status t = pending) h ->
  List.filter (PlannerAgent.is_completed h) l = [].
Proof.
  intros Hall. induction l as [|r l IH]; simpl; [done|].
  unfold PlannerAgent.is_completed at 1.
  destruct (h !! r) as [t|] eqn:Ht; [|done].
  rewrite Forall_lookup in Hall. by rewrite (Hall _ _ Ht).
Qed.

Lemma elem_of_seq_lt (a n r : nat) : r ∈ seq a n -> r < a + n.
Proof. rewrite elem_of_seq. lia. Qed.

Lemma fresh_new g : fresh (new g).
Proof.
  split; [split|..]; simpl; try done.
  - apply NoDup_nil_2.
  - intros r Hr. by apply elem_of_nil in Hr.
  - apply NoDup_nil_2.
Qed.

Lemma fresh_frame s s' :
  fresh s -> heap s' = heap s ->
  currentPlan (context s') = currentPlan (context s) ->
  pendingTasks (context s') = pendingTasks (context s) ->
  completedTasks (context s') = completedTasks (context s) ->
  (forall tid, attempts tid s' = attempts tid s) ->
  fresh s'.
Proof.
  intros [[Hnd Hval Huniq Hplan] Hat Hst Hco] Hh Hp Hpe Hco' Hat'.
  split; [split|..]; unfold queued in *; rewrite ?Hh, ?Hp, ?Hpe, ?Hco'; try done.
  intros tid. by rewrite Hat'.
Qed.

Lemma planning_spec cfg ext g o s :
  Orchestrator.planning cfg ext (new g) = (o, s) -> fresh s.
Proof.
  unfold Orchestrator.planning. cbv beta. unfold bind at 1.
  destruct (PlannerAgent.createPlan _ _ _) as [[plan|e] s1] eqn:Hcp.
  2: { intros [= <- <-].
       apply createPlan_spec in Hcp as (Hat & Hco & Hh & Hp & Hpe).
       eapply fresh_frame; [apply (fresh_new g)|done..]. }
  apply createPlan_spec in Hcp as (Hat & Hco & new1 & Hh & Hids & Hst & Htasks & Hp & Hpe).
  simpl in Hh, Htasks, Hco.
  assert (Hfresh1 : fresh s1).
  { split; [split|..]; unfold queued; rewrite ?Hh, ?Hp, ?Hpe, ?Hco, ?Htasks, ?app_nil_r;
      try done.
    - rewrite Hids. apply (NoDup_fmap_2 _). apply NoDup_seq.
    - intros r Hr. by apply elem_of_seq_lt in Hr.
    - apply NoDup_seq. }
  destruct (requireReview cfg); [|by intros [= <- <-]].
  unfold ReviewerAgent.reviewPlan_prompt. rewrite bind_describe_tasks.
  destruct (map_outcome _ _) as [shown|e]; [|by intros [= <- <-]].
  unfold ReviewerAgent.reviewPlan. mstep.
  destruct (plan_review_answer ext) as [v|e]; [|by intros [= <- <-]].
  mstep. cbn [review_approved feedback].
  destruct (negb _); [|by intros [= <- <-]].
  rewrite bind_log. destruct (js_string_val _) as [fshown|e]; [|by intros [= <- <-]].
  unfold bind at 1.
  destruct (PlannerAgent.revisePlan _ _ _) as [[plan2|e] s2] eqn:Hrp;
    apply revisePlan_spec in Hrp.
  2: { destruct Hrp as (_ & _ & ->). by intros [= <- <-]. }
  destruct Hrp as (Hhist & Hco2 & new2 & Hh2 & Hids2 & Hst2 & Htasks2 & Hp2 & Hpe2).
  intros [= <- <-].
  assert (Hall : Forall (fun t => status t = pending) (heap s2)).
  { rewrite Hh2. apply Forall_app. split; [apply Hfresh1|done]. }
  rewrite Hp, filter_is_completed_pending in Htasks2 by done.
  simpl in Htasks2.
  split; [split|..]; unfold queued;
    rewrite ?Hp2, ?Hpe2, ?Hco2, ?Htasks2, ?(fresh_completed _ Hfresh1), ?app_nil_r;
    try done.
  - rewrite Hh2, map_app, Hids2, Hh, Hids.
    apply NoDup_app. split_and!.
    + apply (NoDup_fmap_2 _). apply NoDup_seq.
    + intros x Hx1 Hx2.
      apply list_elem_of_fmap in Hx1 as (i & -> & _).
      apply list_elem_of_fmap in Hx2 as (j & Hij & _).
      by apply task_id_not_revised in Hij.
    + apply (NoDup_fmap_2 _). apply NoDup_seq.
  - intros r Hr. apply elem_of_seq_lt in Hr. by rewrite Hh2, length_app.
  - apply NoDup_seq.
  - intros tid. unfold attempts. rewrite Hhist. apply Hfresh1.
Qed.

End Planning.

(** ** The loop *)

Section Loop.
Import ContextManager Orchestrator.

Lemma consistent_perm s s' :
  consistent s ->
  map id (heap s') = map id (heap s) ->
  currentPlan (context s') = currentPlan (context s) ->
  queued s' ≡ₚ queued s ->
  consistent s'.
Proof.
  intros [Hnd Hval Huniq Hplan] Hids Hp Hq. split.
  - by rewrite Hids.
  - intros r Hr. rewrite Hq in Hr. apply Hval in Hr.
    apply (f_equal length) in Hids. rewrite !length_map in Hids. lia.
  - by rewrite Hq.
  - rewrite Hp. destruct (currentPlan (context s)).
    + by rewrite Hq.
    + rewrite Hplan in Hq. by apply Permutation_nil_r in Hq.
Qed.

(** The cases of [body_spec], without the conditions under which each
    one is taken. *)
Lemma body_summary cfg ext i rc s o s' :
  consistent s ->
  body cfg ext i rc s = (o, s') ->
  (s' = s /\
   ((getNextTask s = None /\ o = Ok (NoTask, rc)) \/
    exists r t e, getNextTask s = Some (r, t) /\
                  js_string_val (description t) = Throw e /\ o = Throw e)) \/
  exists r t st,
    getNextTask s = Some (r, t) /\
    touches r s s' /\
    (forall tid, attempts tid s' =
                 attempts tid s + (if String.eqb (id t) tid then 1 else 0)) /\
    status_of s' r = Some st /\
    ((pendingTasks (context s') = pendingTasks (context s) /\
      completedTasks (context s') = completedTasks (context s) /\
      ((exists e, o = Throw e /\ (st = in_progress \/ st = rejected)) \/
       (o = Ok (Retried r, S rc) /\ st = pending /\ rc < retryLimit cfg) \/
       (exists timed_out, o = Ok (Failed r timed_out, rc) /\ st = failed))) \/
     (exists timed_out rc' idx,
        o = Ok (Completed r timed_out, rc') /\ st = completed /\
        (rc' = 0 \/ rc' = rc) /\
        pendingTasks (context s) !! idx = Some r /\
        pendingTasks (context s') = delete idx (pendingTasks (context s)) /\
        completedTasks (context s') = completedTasks (context s) ++ [r])).
Proof.
  intros Hc Hb. pose proof (body_spec _ _ _ _ _ _ _ Hc Hb) as Hs.
  destruct (getNextTask s) as [[r t]|]; [|left; tauto].
  destruct (js_string_val (description t)) as [shown|e0] eqn:Hd.
  2: { left. destruct Hs as [-> ->]. split; [done|]. right. by exists r, t, e0. }
  right. destruct Hs as (Hto & Hat & Hs). cbv zeta in Hs.
  destruct o as [[[|r'|r' timed_out|r' timed_out] rc']|e].
  - done.
  - destruct Hs as (-> & -> & Hpe & Hco & Hst & _ & _ & Hlt & _).
    exists r, t, pending. split_and!; try done. left. split_and!; try done.
    right. left. done.
  - destruct Hs as (-> & -> & (idx & Hidx & Hpe) & Hco & Hst & res & _ & _ & Hrc).
    exists r, t, completed. split_and!; try done. right.
    exists (elapsed ext i >? timeout cfg)%Z, rc', idx. split_and!; try done.
    destruct Hrc as [[_ ->]|[_ (v & _ & [[_ ->]|(_ & _ & _ & ->)])]]; auto.
  - destruct Hs as (-> & -> & -> & Hpe & Hco & Hst & _).
    exists r, t, failed. split_and!; try done. left. split_and!; try done.
    right. right. eauto.
  - destruct Hs as (Hpe & Hco & [(Hst & _)|(Hst & _)]).
    + exists r, t, in_progress. split_and!; try done. left. split_and!; try done.
      left. eauto.
    + exists r, t, rejected. split_and!; try done. left. split_and!; try done.
      left. eauto.
Qed.

Lemma body_consistent cfg ext i rc s o s' :
  consistent s -> body cfg ext i rc s = (o, s') -> consistent s'.
Proof.
  intros Hc Hb.
  destruct (body_summary _ _ _ _ _ _ _ Hc Hb)
    as [(-> & _)|(r & t & st & _ & Hto & _ & _ & Hq)]; [done|].
  eapply consistent_perm; [exact Hc|apply Hto..|].
  unfold queued.
  destruct Hq as [(-> & -> & _)|(to & rc' & idx & _ & _ & _ & Hidx & -> & ->)];
    [done|].
  rewrite app_assoc, <- Permutation_cons_append. symmetry.
  etransitivity; [apply Permutation_app_tail, (delete_Permutation _ _ _ Hidx)|].
  reflexivity.
Qed.

Lemma elem_of_delete_ne {A} (l : list A) idx x y :
  l !! idx = Some x -> y ∈ l -> y <> x -> y ∈ delete idx l.
Proof.
  intros Hidx Hy Hne. rewrite (delete_Permutation _ _ _ Hidx) in Hy.
  apply elem_of_cons in Hy as [?|?]; [done|assumption].
Qed.

Lemma elem_of_delete_NoDup {A} (l : list A) idx x y :
  NoDup l -> l !! idx = Some x -> y ∈ delete idx l -> y ∈ l /\ y <> x.
Proof.
  intros Hnd Hidx Hy. rewrite (delete_Permutation _ _ _ Hidx) in Hnd.
  apply NoDup_cons in Hnd as [Hx _]. split.
  - rewrite (delete_Permutation _ _ _ Hidx). by apply elem_of_cons; right.
  - by intros ->.
Qed.

Lemma is_ready_same_lookup h h' r :
  h' !! r = h !! r -> is_ready h' r = is_ready h r.
Proof. unfold is_ready. by intros ->. Qed.

Lemma is_ready_status s r :
  is_ready (heap s) r = true ->
  status_of s r = Some pending \/ status_of s r = Some approved.
Proof.
  unfold is_ready, status_of. destruct (heap s !! r) as [t|]; [|discriminate].
  simpl. destruct (status t); simpl; auto; discriminate.
Qed.

Lemma find_ready_stable h h' l r :
  (forall r', r' <> r -> h' !! r' = h !! r') ->
  is_ready h' r = true ->
  List.find (is_ready h) l = Some r ->
  List.find (is_ready h') l = Some r.
Proof.
  intros Ho Hr. induction l as [|a l IH]; simpl; [done|].
  destruct (decide (a = r)) as [->|Hne].
  - rewrite Hr. by destruct (is_ready h r).
  - rewrite (is_ready_same_lookup h h' a) by auto.
    destruct (is_ready h a); [by intros [= ->]|auto].
Qed.

Lemma step_invariant cfg ext ls :
  loop_invariant cfg ls -> loop_invariant cfg (step cfg ext ls).
Proof.
  intros Hinv. unfold step.
  destruct (at_ ls) eqn:Hat; try done.
  assert (Hnorej : forall r, status_of (session ls) r <> Some rejected).
  { intros r Hr. apply (inv_verdicts _ _ Hinv) in Hr as [e He]. congruence. }
  assert (Hkeep : forall (p : progress) r,
            (status_of (session ls) r = Some rejected -> exists e, p = Aborted e) /\
            status_of (session ls) r <> Some approved).
  { intros p r. split; [intros Hr; by apply Hnorej in Hr|].
    apply (inv_verdicts _ _ Hinv). }
  destruct (iteration ls <? maxIterations cfg)%nat.
  2: { destruct Hinv. split; simpl; try done. }
  destruct Hinv as [Hc Hatt Hfail Hverd Hrun].
  destruct (Hrun Hat) as [Hrc Hready]. clear Hrun.
  destruct (body _ _ _ _ _) as [o s'] eqn:Hb.
  pose proof (body_consistent _ _ _ _ _ _ _ Hc Hb) as Hc'.
  destruct (body_summary _ _ _ _ _ _ _ Hc Hb)
    as [(-> & [(_ & ->)|(r & t & e & _ & _ & ->)])|
        (r & t & st & Hnext & Hto & Hat' & Hst & Hq)].
  { split; simpl; try done. }
  { split; simpl; try done. }
  apply getNextTask_Some in Hnext as (Hin & Ht & Hrdy & Hfind).
  destruct (Hready r t Hin Ht Hrdy) as [Ha _].
  destruct Hto as [Hids Hdescr Hoth Hplan].
  assert (Hstat : forall r', r' <> r -> status_of s' r' = status_of (session ls) r').
  { intros r' Hr'. unfold status_of. by rewrite Hoth. }
  assert (Hbound : forall tid, attempts tid s' <= S (retryLimit cfg)).
  { intros tid. rewrite Hat'. specialize (Hatt tid).
    destruct (String.eqb_spec (id t) tid) as [<-|_]; lia. }
  assert (Hst_ok : st = in_progress \/ st = pending \/ st = failed \/
                   st = completed \/ (st = rejected /\ exists e, o = Throw e)).
  { destruct Hq as [(_ & _ & [(e & -> & [-> | ->])|[(_ & -> & _)|(to & _ & ->)]])|
                    (to & rc' & idx & _ & -> & _)]; eauto 10. }
  assert (Hverd' : forall r', (status_of s' r' = Some rejected -> exists e, o = Throw e) /\
                              status_of s' r' <> Some approved).
  { intros r'. destruct (decide (r' = r)) as [->|Hne].
    - rewrite Hst.
      destruct Hst_ok as [-> | [-> | [-> | [-> | [-> He]]]]]; split;
        try discriminate; done.
    - rewrite Hstat by done. split; [|apply Hverd].
      intros Hr. by apply Hnorej in Hr. }
  assert (Hpend : forall r', r' <> r ->
            r' ∈ pendingTasks (context (session ls)) ->
            r' ∈ pendingTasks (context s')).
  { intros r' Hne Hr'.
    destruct Hq as [(-> & _)|(to & rc' & idx & _ & _ & _ & Hidx & -> & _)]; [done|].
    eapply elem_of_delete_ne; eauto. }
  assert (Hfail' : forall r', status_of s' r' = Some failed ->
                              r' ∈ pendingTasks (context s')).
  { intros r' Hr'. destruct (decide (r' = r)) as [->|Hne].
    - rewrite Hst in Hr'. injection Hr' as ->.
      destruct Hq as [(-> & _)|(to & rc' & idx & _ & Habs & _)]; [done|discriminate].
    - apply Hpend; [done|]. apply Hfail. by rewrite <- Hstat. }
  assert (Hothers : forall r' t',
            r' <> r -> r' ∈ pendingTasks (context (session ls)) ->
            heap s' !! r' = Some t' -> is_ready (heap s') r' = true ->
            attempts (id t') s' = 0).
  { intros r' t' Hne Hr' Ht' Hrdy'.
    rewrite Hoth in Ht' by done.
    rewrite (is_ready_same_lookup (heap (session ls))) in Hrdy' by auto.
    destruct (Hready r' t' Hr' Ht' Hrdy') as [_ H0].
    rewrite Hat'.
    destruct (String.eqb_spec (id t) (id t')) as [Heq|_].
    - destruct Hne. symmetry. eapply lookup_id_inj; eauto. apply Hc.
    - rewrite H0; [lia|]. rewrite Hfind. by intros [= ->]. }
  assert (Hpnd : NoDup (pendingTasks (context (session ls)))).
  { destruct Hc as [_ _ Hu _]. unfold queued in Hu.
    by apply NoDup_app in Hu as [? _]. }
  destruct o as [[e rc']|x].
  2: { split; simpl; try done. intros r'. split; [eauto|apply Hverd']. }
  assert (Hverd'' : forall r', status_of s' r' <> Some rejected).
  { intros r' Hr'. by apply Hverd' in Hr' as [? ?]. }
  split; simpl; try done.
  { intros r'. split; [|apply Hverd']. intros Hr. by apply Hverd'' in Hr. }
  destruct (breaks e) eqn:Hbr; [done|]. intros _.
  destruct Hq as [(Hpe & Hco & [(x & Habs & _)|[(Ho & -> & Hlt)|
                                (to & Ho & ->)]])|
                  (to & rc0 & idx & Ho & -> & Hrc' & Hidx & Hpe & Hco)];
    [discriminate|injection Ho as -> ->..].
  - (* retried *)
    split; [lia|]. intros r' t' Hr' Ht' Hrdy'. rewrite Hpe in Hr'.
    destruct (decide (r' = r)) as [->|Hne].
    + assert (Hid : id t' = id t).
      { assert (map id (heap s') !! r = Some (id t')) as Hl
          by (by rewrite list_lookup_fmap, Ht').
        rewrite Hids, list_lookup_fmap, Ht in Hl. by injection Hl. }
      rewrite Hid, Hat', String.eqb_refl. split; [lia|].
      intros Hnf. destruct Hnf. rewrite Hpe.
      eapply find_ready_stable; eauto.
    + rewrite (Hothers r' t'); auto. split; [lia|done].
  - (* failed *)
    split; [done|]. intros r' t' Hr' Ht' Hrdy'. rewrite Hpe in Hr'.
    destruct (decide (r' = r)) as [->|Hne].
    + apply is_ready_status in Hrdy'. rewrite Hst in Hrdy'.
      destruct Hrdy'; discriminate.
    + rewrite (Hothers r' t'); auto. split; [lia|done].
  - (* completed *)
    split; [destruct Hrc' as [->| ->]; lia|].
    intros r' t' Hr' Ht' Hrdy'. rewrite Hpe in Hr'.
    apply (elem_of_delete_NoDup _ _ r) in Hr' as [Hr' Hne]; [|done..].
    rewrite (Hothers r' t'); auto. split; [lia|done].
Qed.

End Loop.

(** ** Runs *)

Section Run.
Import ContextManager Orchestrator.

Lemma status_of_fresh s r st :
  fresh s -> status_of s r = Some st -> st = pending.
Proof.
  intros Hf. unfold status_of. destruct (heap s !! r) as [t|] eqn:Ht; [|done].
  intros [= <-]. destruct Hf as [_ _ Hall _].
  rewrite Forall_lookup in Hall. eauto.
Qed.

Lemma start_fresh cfg g ext : fresh (session (start cfg g ext)).
Proof.
  unfold start. destruct (planning _ _ _) as [[[]|e] s] eqn:Hp;
    apply planning_spec in Hp; exact Hp.
Qed.

Lemma start_invariant cfg g ext : loop_invariant cfg (start cfg g ext).
Proof.
  pose proof (start_fresh cfg g ext) as Hf.
  assert (Hrc : retryCount (start cfg g ext) = 0).
  { unfold start. by destruct (planning _ _ _) as [[[]|e] s]. }
  split.
  - apply Hf.
  - intros tid. rewrite (fresh_attempts _ Hf). lia.
  - intros r Hr. by apply (status_of_fresh _ _ _ Hf) in Hr.
  - intros r. split; intros Hr; by apply (status_of_fresh _ _ _ Hf) in Hr.
  - intros _. rewrite Hrc. split; [lia|].
    intros r t _ _ _. rewrite (fresh_attempts _ Hf). split; [lia|done].
Qed.

Lemma after_S cfg g ext k :
  after cfg g ext (S k) = step cfg ext (after cfg g ext k).
Proof. reflexivity. Qed.

Lemma after_invariant cfg g ext k : loop_invariant cfg (after cfg g ext k).
Proof.
  induction k as [|k IH]; [apply start_invariant|].
  rewrite after_S. by apply step_invariant.
Qed.

(** A loop that has exited or thrown does nothing more. *)
Lemma step_ended cfg ext ls : at_ ls <> Running -> step cfg ext ls = ls.
Proof. unfold step. by destruct (at_ ls). Qed.

Lemma iter_step_ended cfg ext ls j :
  at_ ls <> Running -> Nat.iter j (step cfg ext) ls = ls.
Proof.
  intros H. induction j as [|j IH]; [done|].
  simpl. rewrite IH. by apply step_ended.
Qed.

Lemma after_add cfg g ext k j :
  after cfg g ext (k + j) = Nat.iter j (step cfg ext) (after cfg g ext k).
Proof. unfold after. by rewrite Nat.add_comm, Nat.iter_add. Qed.

(** While the loop runs, [iteration] counts the tests of its condition,
    so the test fails at the latest after [maxIterations] passes. *)
Lemma after_running cfg g ext k :
  at_ (after cfg g ext k) = Running ->
  iteration (after cfg g ext k) = k /\ k <= maxIterations cfg.
Proof.
  induction k as [|k IH].
  - intros _. split; [|lia]. unfold after, start. simpl.
    by destruct (planning _ _ _) as [[[]|e] s].
  - rewrite after_S. unfold step.
    destruct (at_ (after cfg g ext k)) eqn:Hat; try (by rewrite Hat).
    destruct (IH eq_refl) as [Hi Hk].
    destruct (iteration _ <? maxIterations cfg)%nat eqn:Hlt; [|done].
    apply Nat.ltb_lt in Hlt.
    destruct (body _ _ _ _ _) as [[[e rc]|x] s']; simpl; [|done].
    intros _. lia.
Qed.

(** The loop always ends: [final] is not [Running]. *)
Lemma final_ended cfg g ext : at_ (final cfg g ext) <> Running.
Proof.
  unfold final. intros H. apply after_running in H as [_ H]. lia.
Qed.

Lemma after_final cfg g ext k :
  S (maxIterations cfg) <= k -> after cfg g ext k = final cfg g ext.
Proof.
  intros Hk. replace k with (S (maxIterations cfg) + (k - S (maxIterations cfg))) by lia.
  rewrite after_add. apply iter_step_ended, final_ended.
Qed.

End Run.

(** ** Invariants of every run *)

Section RunInvariants.
Import ContextManager Orchestrator.

(** C3. At every test of the loop condition of any run, and so at the
    end of the run: no task is in both [pendingTasks] and
    [completedTasks] and neither collection repeats a task; the tasks
    in the two collections are allocated and have pairwise distinct
    ids; and each task of the current plan is in exactly one of the
    two collections, which hold no other task. *)
Theorem collections_partition_plan (cfg : WorkflowConfig) (g : string)
    (ext : Ext) (k : nat) :
  let s := session (after cfg g ext k) in
  let ctx := context s in
  NoDup (pendingTasks ctx ++ completedTasks ctx) /\
  (forall r, r ∈ completedTasks ctx -> r ∉ pendingTasks ctx) /\
  (forall r, r ∈ queued s -> is_Some (heap s !! r)) /\
  (forall r1 r2, r1 ∈ queued s -> r2 ∈ queued s ->
                 id_of s r1 = id_of s r2 -> r1 = r2) /\
  match currentPlan ctx with
  | Some p =>
      forall r, r ∈ tasks p <->
                (r ∈ pendingTasks ctx /\ r ∉ completedTasks ctx) \/
                (r ∈ completedTasks ctx /\ r ∉ pendingTasks ctx)
  | None => pendingTasks ctx = [] /\ completedTasks ctx = []
  end.
Proof.
  intros s ctx.
  destruct (inv_consistent _ _ (after_invariant cfg g ext k))
    as [Hnd Hval Huniq Hplan].
  fold s in Hnd, Hval, Huniq, Hplan. unfold queued in *. fold ctx in Hval, Huniq, Hplan.
  pose proof Huniq as Hu. apply NoDup_app in Hu as (_ & Hdisj & _).
  split_and!.
  - exact Huniq.
  - intros r Hc Hp. by apply (Hdisj r).
  - intros r Hr. apply lookup_lt_is_Some. auto.
  - intros r1 r2 H1 H2. unfold id_of.
    destruct (heap s !! r1) as [t1|] eqn:Ht1.
    2: { apply Hval, lookup_lt_is_Some in H1. rewrite Ht1 in H1. by destruct H1. }
    destruct (heap s !! r2) as [t2|] eqn:Ht2.
    2: { apply Hval, lookup_lt_is_Some in H2. rewrite Ht2 in H2. by destruct H2. }
    simpl. intros [= Hid]. eapply lookup_id_inj; eauto.
  - fold ctx. destruct (currentPlan ctx) as [p|].
    + intros r. rewrite Hplan, elem_of_app. split.
      * intros [Hp|Hc]; [left|right]; split; try done.
        -- intros Hc. by apply (Hdisj r).
        -- intros Hp. by apply (Hdisj r).
      * tauto.
    + by apply app_eq_nil in Hplan.
Qed.

Lemma not_ready_failed s r :
  status_of s r = Some failed -> is_ready (heap s) r = false.
Proof.
  unfold status_of, is_ready. destruct (heap s !! r) as [t|]; [|done].
  simpl. by intros [= ->].
Qed.

(** A failed task is left alone by one more test of the loop condition. *)
Lemma step_failed cfg ext ls r t :
  loop_invariant cfg ls ->
  heap (session ls) !! r = Some t -> status t = failed ->
  exists t', heap (session (step cfg ext ls)) !! r = Some t' /\
             id t' = id t /\ status t' = failed /\
             attempts (id t) (session (step cfg ext ls)) =
             attempts (id t) (session ls).
Proof.
  intros Hinv Ht Hst.
  assert (Hsame : exists t', heap (session ls) !! r = Some t' /\ id t' = id t /\
                    status t' = failed /\
                    attempts (id t) (session ls) = attempts (id t) (session ls))
    by eauto.
  unfold step. destruct (at_ ls); try done.
  destruct (iteration ls <? maxIterations cfg)%nat; [|done].
  destruct (body _ _ _ _ _) as [o s'] eqn:Hb.
  destruct (body_summary _ _ _ _ _ _ _ (inv_consistent _ _ Hinv) Hb)
    as [(-> & [(_ & ->)|(? & ? & ? & _ & _ & ->)])|
        (r0 & t0 & st & Hnext & Hto & Hat & _)]; [done..|].
  apply getNextTask_Some in Hnext as (Hin & Ht0 & Hrdy & _).
  assert (Hne : r <> r0).
  { intros ->. rewrite not_ready_failed in Hrdy; [done|].
    unfold status_of. rewrite Ht. simpl. by rewrite Hst. }
  assert (Hs' : heap s' !! r = Some t /\ attempts (id t) s' = attempts (id t) (session ls)).
  { split; [by rewrite (touches_others _ _ _ Hto)|].
    rewrite Hat. destruct (String.eqb_spec (id t0) (id t)) as [Heq|_]; [|lia].
    destruct Hne. eapply lookup_id_inj; eauto.
    apply (inv_consistent _ _ Hinv). }
  destruct o as [[e rc]|x]; simpl; exists t; tauto.
Qed.

Lemma after_failed cfg g ext k j r t :
  heap (session (after cfg g ext k)) !! r = Some t -> status t = failed ->
  exists t', heap (session (after cfg g ext (k + j))) !! r = Some t' /\
             id t' = id t /\ status t' = failed /\
             attempts (id t) (session (after cfg g ext (k + j))) =
             attempts (id t) (session (after cfg g ext k)).
Proof.
  intros Ht Hst. induction j as [|j (t' & Ht' & Hid & Hst' & Hat)].
  - rewrite Nat.add_0_r. eauto.
  - replace (k + S j) with (S (k + j)) by lia. rewrite after_S.
    destruct (step_failed cfg ext _ r t' (after_invariant cfg g ext (k + j)) Ht' Hst')
      as (t'' & Ht'' & Hid' & Hst'' & Hat').
    exists t''. split_and!; try done; congruence.
Qed.

(** The status [failed] is what a pass that ends in the failure branch
    leaves on its task. *)
Lemma failed_pass_sets_failed cfg g ext k r timed_out :
  trace (after cfg g ext (S k)) = trace (after cfg g ext k) ++ [Failed r timed_out] ->
  status_of (session (after cfg g ext (S k))) r = Some failed.
Proof.
  rewrite after_S. set (ls := after cfg g ext k).
  assert (Hno : trace ls <> trace ls ++ [Failed r timed_out]).
  { intros H. apply (f_equal length) in H. rewrite length_app in H. simpl in H. lia. }
  pose proof (inv_consistent _ _ (after_invariant cfg g ext k)) as Hc. fold ls in Hc.
  unfold step. destruct (at_ ls); try (intros H; by destruct Hno).
  destruct (iteration ls <? maxIterations cfg)%nat; [|intros H; by destruct Hno].
  destruct (body _ _ _ _ _) as [[[e rc]|x] s'] eqn:Hb; simpl;
    [|intros H; by destruct Hno].
  intros H. apply app_inv_head in H. injection H as ->.
  destruct (body_summary _ _ _ _ _ _ _ Hc Hb)
    as [(_ & [(_ & Habs)|(? & ? & ? & _ & _ & Habs)])|
        (r0 & t0 & st & _ & _ & _ & Hst & Hq)]; [discriminate..|].
  destruct Hq as [(_ & _ & [(x & Habs & _)|[(Habs & _)|(to & Ho & ->)]])|
                  (to & rc' & idx & Habs & _)]; try discriminate.
  by injection Ho as <- _.
Qed.

(** C10. Once a task has status [failed] (which only the orchestrator
    writes, when the task's execution failed), at every later test of
    the loop condition it still has status [failed], it is still in
    [pendingTasks], [getNextTask] does not return it and [execute] has
    not been started on it again; and the run's result has
    [success = false]. *)
Theorem failed_task_stays_failed (cfg : WorkflowConfig) (g : string) (ext : Ext)
    (k : nat) (r : ref) (t : Task) :
  heap (session (after cfg g ext k)) !! r = Some t ->
  status t = failed ->
  (forall j,
     let s := session (after cfg g ext (k + j)) in
     status_of s r = Some failed /\
     r ∈ pendingTasks (context s) /\
     (forall t', getNextTask s <> Some (r, t')) /\
     attempts (id t) s = attempts (id t) (session (after cfg g ext k))) /\
  wf_success (run cfg g ext) = false.
Proof.
  intros Ht Hst.
  assert (Hlater : forall j,
    let s := session (after cfg g ext (k + j)) in
    status_of s r = Some failed /\
    r ∈ pendingTasks (context s) /\
    (forall t', getNextTask s <> Some (r, t')) /\
    attempts (id t) s = attempts (id t) (session (after cfg g ext k))).
  { intros j s.
    destruct (after_failed cfg g ext k j r t Ht Hst) as (t' & Ht' & Hid & Hst' & Hat).
    fold s in Ht', Hat.
    assert (Hf : status_of s r = Some failed) by (unfold status_of; rewrite Ht'; simpl; by rewrite Hst').
    split_and!; try done.
    - by apply (inv_failed _ _ (after_invariant cfg g ext (k + j))).
    - intros t'' Hn. apply getNextTask_Some in Hn as (_ & _ & Hrdy & _).
      by rewrite (not_ready_failed _ _ Hf) in Hrdy. }
  split; [exact Hlater|].
  assert (Hfin : r ∈ pendingTasks (context (session (final cfg g ext)))).
  { destruct (decide (k <= S (maxIterations cfg))) as [Hk|Hk].
    - destruct (Hlater (S (maxIterations cfg) - k)) as (_ & Hin & _).
      by replace (k + (S (maxIterations cfg) - k)) with (S (maxIterations cfg)) in Hin by lia.
    - destruct (Hlater 0) as (_ & Hin & _).
      rewrite Nat.add_0_r, after_final in Hin by lia. done. }
  unfold run. destruct (at_ (final cfg g ext)); simpl; try done.
  all: destruct (pendingTasks (context (session (final cfg g ext)))); [|done].
  all: by apply elem_of_nil in Hfin.
Qed.

Lemma failed_task_stays_failed_witness :
  let ext :=
    {| plan_answer := Ok (JObj [("tasks", JArr [JObj [("description", JStr "log in")]])]);
       plan_review_answer := Ok JNull;
       revision_answer := Ok JNull;
       executor_answer := fun _ => Ok JNull;
       review_answer := fun _ => Ok JNull;
       automation := fun _ =>
         {| login := Ok true; extractCarers := Ok [];
            selectCarer := fun _ => Ok true;
            navigateToSupervisoryHomeVisitForm := Ok true;
            fillForm := fun _ => Ok true;
            submitForm := fun _ => Ok (true, "saved");
            getPageState := Ok ("/home", "Home") |};
       elapsed := fun _ => 0%Z |} in
  let t := {| id := "task-0"; description := Some (JStr "log in"); status := failed;
              priority := None; dependencies := None; result := None |} in
  (forall j,
     let s := session (after DEFAULT_CONFIG "goal" ext (1 + j)) in
     status_of s 0 = Some failed /\
     0 ∈ pendingTasks (context s) /\
     (forall t', getNextTask s <> Some (0, t')) /\
     attempts (id t) s = attempts (id t) (session (after DEFAULT_CONFIG "goal" ext 1))) /\
  wf_success (run DEFAULT_CONFIG "goal" ext) = false.
Proof.
  intros ext t.
  apply (failed_task_stays_failed DEFAULT_CONFIG "goal" ext 1 0 t); reflexivity.
Defined.

End RunInvariants.

(** ** A task that is rejected at every attempt *)

Section Rejections.
Import ContextManager Orchestrator.

(** The body on a task whose execution succeeds and whose review rejects,
    when the description and the feedback can be shown: a retry while
    the budget lasts, and completion after that. *)
Lemma body_rejected cfg ext i rc s r t :
  consistent s -> getNextTask s = Some (r, t) ->
  prints (description t) ->
  requireReview cfg = true ->
  execution_succeeds ext i -> review_rejects ext i -> feedback_prints ext i ->
  exists e s',
    body cfg ext i rc s = (Ok (e, if autoRetry cfg && (rc <? retryLimit cfg)%nat
                                  then S rc else rc), s') /\
    touches r s s' /\
    attempts (id t) s' = S (attempts (id t) s) /\
    if autoRetry cfg && (rc <? retryLimit cfg)%nat then
      e = Retried r /\
      pendingTasks (context s') = pendingTasks (context s) /\
      completedTasks (context s') = completedTasks (context s) /\
      status_of s' r = Some pending
    else
      e = Completed r (elapsed ext i >? timeout cfg)%Z /\
      (exists idx, pendingTasks (context s) !! idx = Some r /\
         pendingTasks (context s') = delete idx (pendingTasks (context s))) /\
      completedTasks (context s') = completedTasks (context s) ++ [r] /\
      status_of s' r = Some completed.
Proof.
  intros Hc Hnext [shown Hd] Hrr Hexec (v & Hv & Hverd) Hfb.
  destruct (body cfg ext i rc s) as [o s'] eqn:Hb.
  pose proof (body_spec _ _ _ _ _ _ _ Hc Hb) as Hs. rewrite Hnext, Hd in Hs.
  destruct Hs as (Hto & Hat & Hs). cbv zeta in Hs.
  destruct (Hexec t (updateTask (id t)
              {| upd_status := Some in_progress; upd_result := None |} s))
    as (res & s1 & Hex & Hsucc).
  rewrite Hex in Hs. cbn [fst] in Hs.
  assert (Hat' : attempts (id t) s' = S (attempts (id t) s)).
  { rewrite Hat, String.eqb_refl. lia. }
  destruct o as [[[|r'|r' timed_out|r' timed_out] rc']|x].
  - done.
  - destruct Hs as (-> & -> & Hpe & Hco & Hst & _ & Har & Hlt & _).
    apply Nat.ltb_lt in Hlt. rewrite Har, Hlt. simpl.
    exists (Retried r), s'. split_and!; done.
  - destruct Hs as (-> & -> & Hpe & Hco & Hst & res' & _ & _ & Hrc).
    destruct Hrc as [[Habs _]|[_ (v' & Hv' & Hcase)]]; [congruence|].
    rewrite Hv in Hv'. injection Hv' as <-.
    destruct Hcase as [[Habs _]|(_ & _ & Hno & ->)]; [congruence|].
    rewrite Hno. exists (Completed r (elapsed ext i >? timeout cfg)%Z), s'.
    split_and!; done.
  - destruct Hs as (_ & _ & _ & _ & _ & _ & res' & [= <-] & Habs). congruence.
  - destruct Hs as (_ & _ & [(_ & [Habs|(res' & _ & _ & _ & Habs)])|
                             (_ & res' & v' & _ & _ & _ & Hv' & _ & Habs)]).
    + discriminate.
    + congruence.
    + rewrite Hv in Hv'. injection Hv' as <-.
      destruct (Hfb v Hv) as [fshown Hf]. simpl in Hf. congruence.
Qed.

Lemma getNextTask_only s r t :
  pendingTasks (context s) = [r] -> heap s !! r = Some t -> status t = pending ->
  getNextTask s = Some (r, t).
Proof.
  intros Hpe Ht Hst. unfold getNextTask. rewrite Hpe. simpl.
  unfold is_ready. rewrite Ht, Hst. simpl. by rewrite Ht.
Qed.

(** With nothing pending, the loop leaves the session as it is. *)
Lemma iter_idle cfg ext ls j :
  pendingTasks (context (session ls)) = [] ->
  (forall x, at_ ls <> Aborted x) ->
  session (Nat.iter j (step cfg ext) ls) = session ls /\
  (forall x, at_ (Nat.iter j (step cfg ext) ls) <> Aborted x).
Proof.
  intros Hpe Hat. induction j as [|j [IHs IHa]]; [done|].
  simpl. set (ls' := Nat.iter j (step cfg ext) ls) in *.
  unfold step. destruct (at_ ls') eqn:Hat';
    [|split; [done|by rewrite Hat']..].
  destruct (iteration ls' <? maxIterations cfg)%nat; [|done].
  unfold body, getNextTask. rewrite IHs, Hpe. simpl. done.
Qed.

Lemma touches_task r s s' t st :
  touches r s s' -> heap s !! r = Some t -> status_of s' r = Some st ->
  exists t', heap s' !! r = Some t' /\ status t' = st /\ id t' = id t /\
             description t' = description t.
Proof.
  intros [Hids Hds _ _] Ht. unfold status_of.
  destruct (heap s' !! r) as [t'|] eqn:Ht'; [|done].
  intros [= <-]. exists t'. split_and!; try done.
  - assert (map id (heap s') !! r = Some (id t')) as Hl
      by (by rewrite list_lookup_fmap, Ht').
    rewrite Hids, list_lookup_fmap, Ht in Hl. by injection Hl.
  - assert (map description (heap s') !! r = Some (description t')) as Hl
      by (by rewrite list_lookup_fmap, Ht').
    rewrite Hds, list_lookup_fmap, Ht in Hl. by injection Hl.
Qed.

Section AlwaysRejected.
Variables (cfg : WorkflowConfig) (ext : Ext) (r : ref).
Hypothesis Hreview : requireReview cfg = true.
Hypothesis Hretry : autoRetry cfg = true.
Hypothesis Hexec : forall i, execution_succeeds ext i.
Hypothesis Hreject : forall i, review_rejects ext i.
Hypothesis Hfeedback : forall i, feedback_prints ext i.

Lemma retrying_step j ls :
  retrying r j ls -> j < retryLimit cfg -> j < maxIterations cfg ->
  retrying r (S j) (step cfg ext ls).
Proof.
  intros [Hat Hit Hrc Hc Hpe Hco (t & Ht & Hst & Hpr & Hatt)] Hlim Hmax.
  pose proof (getNextTask_only _ _ _ Hpe Ht Hst) as Hnext.
  destruct (body_rejected cfg ext (S j) j _ r t Hc Hnext Hpr Hreview (Hexec _)
              (Hreject _) (Hfeedback _))
    as (e & s' & Hb & Hto & Hat' & Hcase).
  assert (Hif : autoRetry cfg && (j <? retryLimit cfg)%nat = true).
  { rewrite Hretry. simpl. by apply Nat.ltb_lt. }
  rewrite Hif in Hb, Hcase. destruct Hcase as (-> & Hpe' & Hco' & Hst').
  unfold step. rewrite Hat, Hit, Hrc.
  assert ((j <? maxIterations cfg)%nat = true) as -> by (by apply Nat.ltb_lt).
  rewrite Hb. simpl.
  destruct (touches_task _ _ _ _ _ Hto Ht Hst') as (t' & Ht' & Hs' & Hid & Hds).
  split; simpl; try done; try congruence.
  - eapply body_consistent; eauto.
  - exists t'. split_and!; try done; [by rewrite Hds|].
    rewrite Hid, Hat'. by rewrite Hatt.
Qed.

Lemma retrying_last ls :
  retrying r (retryLimit cfg) ls -> retryLimit cfg < maxIterations cfg ->
  let ls' := step cfg ext ls in
  (forall x, at_ ls' <> Aborted x) /\
  pendingTasks (context (session ls')) = [] /\
  completedTasks (context (session ls')) = [r] /\
  exists t, heap (session ls') !! r = Some t /\ status t = completed /\
            attempts (id t) (session ls') = S (retryLimit cfg).
Proof.
  intros [Hat Hit Hrc Hc Hpe Hco (t & Ht & Hst & Hpr & Hatt)] Hmax.
  pose proof (getNextTask_only _ _ _ Hpe Ht Hst) as Hnext.
  destruct (body_rejected cfg ext (S (retryLimit cfg)) (retryLimit cfg) _ r t
              Hc Hnext Hpr Hreview (Hexec _) (Hreject _) (Hfeedback _))
    as (e & s' & Hb & Hto & Hat' & Hcase).
  rewrite Nat.ltb_irrefl, andb_false_r in Hb, Hcase.
  destruct Hcase as (-> & (idx & Hidx & Hpe') & Hco' & Hst').
  unfold step. rewrite Hat, Hit, Hrc.
  assert ((retryLimit cfg <? maxIterations cfg)%nat = true) as ->
    by (by apply Nat.ltb_lt).
  rewrite Hb. simpl.
  destruct (touches_task _ _ _ _ _ Hto Ht Hst') as (t' & Ht' & Hs' & Hid & _).
  split_and!.
  - intros x. by destruct (elapsed ext _ >? timeout cfg)%Z.
  - rewrite Hpe', Hpe. rewrite Hpe in Hidx.
    destruct idx as [|idx]; [done|by destruct idx].
  - by rewrite Hco', Hco.
  - exists t'. split_and!; try done. rewrite Hid, Hat'. by rewrite Hatt.
Qed.

Lemma retrying_start g :
  at_ (start cfg g ext) = Running ->
  pendingTasks (context (session (start cfg g ext))) = [r] ->
  described (session (start cfg g ext)) r ->
  retrying r 0 (after cfg g ext 0).
Proof.
  intros Hat0 Hpe0 (t & Ht & Hpr).
  pose proof (start_fresh cfg g ext) as Hf. unfold after. simpl.
  split; try done.
  - unfold start. by destruct (planning _ _ _) as [[[]|e] s].
  - unfold start. by destruct (planning _ _ _) as [[[]|e] s].
  - apply Hf.
  - apply Hf.
  - exists t. split_and!; try done.
    + eapply status_of_fresh; [exact Hf|]. unfold status_of. by rewrite Ht.
    + apply Hf.
Qed.

Lemma retrying_after g j :
  retrying r 0 (after cfg g ext 0) ->
  j <= retryLimit cfg -> j <= maxIterations cfg ->
  retrying r j (after cfg g ext j).
Proof.
  intros H0. induction j as [|j IH]; intros Hj Hm; [done|].
  rewrite after_S. apply retrying_step; [apply IH|..]; lia.
Qed.

(** A single task whose execution always succeeds and whose review
    always rejects is executed [retryLimit + 1] times and then
    completed, when the loop has that many passes. *)
Lemma always_rejected_run g :
  retryLimit cfg < maxIterations cfg ->
  at_ (start cfg g ext) = Running ->
  pendingTasks (context (session (start cfg g ext))) = [r] ->
  described (session (start cfg g ext)) r ->
  let ls := final cfg g ext in
  (forall x, at_ ls <> Aborted x) /\
  pendingTasks (context (session ls)) = [] /\
  completedTasks (context (session ls)) = [r] /\
  exists t, heap (session ls) !! r = Some t /\ status t = completed /\
            attempts (id t) (session ls) = S (retryLimit cfg).
Proof.
  intros Hmax Hat0 Hpe0 Hdescr.
  pose proof (retrying_start g Hat0 Hpe0 Hdescr) as Hstart.
  assert (Hloop : retrying r (retryLimit cfg) (after cfg g ext (retryLimit cfg)))
    by (apply retrying_after; [done|lia..]).
  pose proof (retrying_last _ Hloop Hmax) as Hlast.
  cbv zeta in Hlast. rewrite <- after_S in Hlast.
  destruct Hlast as (Ha & Hpe & Hco & Htask).
  intros ls. subst ls. unfold final.
  replace (S (maxIterations cfg))
    with (S (retryLimit cfg) + (maxIterations cfg - retryLimit cfg)) by lia.
  rewrite after_add.
  destruct (iter_idle cfg ext _ (maxIterations cfg - retryLimit cfg) Hpe Ha)
    as [-> Ha'].
  done.
Qed.

(** When the loop has no more passes than the retry budget, the task
    is executed in every pass and is left [pending]. *)
Lemma always_rejected_short_run g :
  maxIterations cfg <= retryLimit cfg ->
  at_ (start cfg g ext) = Running ->
  pendingTasks (context (session (start cfg g ext))) = [r] ->
  described (session (start cfg g ext)) r ->
  let ls := final cfg g ext in
  at_ ls = Exited /\
  pendingTasks (context (session ls)) = [r] /\
  completedTasks (context (session ls)) = [] /\
  exists t, heap (session ls) !! r = Some t /\ status t = pending /\
            attempts (id t) (session ls) = maxIterations cfg.
Proof.
  intros Hmax Hat0 Hpe0 Hdescr.
  pose proof (retrying_start g Hat0 Hpe0 Hdescr) as Hstart.
  assert (Hloop : retrying r (maxIterations cfg) (after cfg g ext (maxIterations cfg)))
    by (apply retrying_after; [done|lia..]).
  intros ls. subst ls. unfold final. rewrite after_S.
  destruct Hloop as [Hat Hit Hrc Hc Hpe Hco (t & Ht & Hst & Hpr & Hatt)].
  unfold step. rewrite Hat, Hit, Nat.ltb_irrefl. simpl.
  split_and!; try done. by exists t.
Qed.

End AlwaysRejected.

End Rejections.

(** ** Scenario C *)

Section ScenarioC.
Import ContextManager Orchestrator Examples.

Lemma always_rejecting_succeeds ds i : execution_succeeds (always_rejecting ds) i.
Proof.
  intros task s. unfold ExecutorAgent.execute, bind, modify, lift, ret. simpl.
  eexists. eexists. split; reflexivity.
Qed.

Lemma always_rejecting_rejects ds i : review_rejects (always_rejecting ds) i.
Proof. eexists. split; reflexivity. Qed.

Lemma always_rejecting_feedback ds i : feedback_prints (always_rejecting ds) i.
Proof. intros v [= <-]. by exists "not what was asked". Qed.

(** C1 (as amended). In a run with [requireReview], [autoRetry],
    [retryLimit = 2] and room for three iterations, a single task whose
    execution succeeds and whose review rejects at every attempt, and
    whose description and review feedback can be converted to strings
    (as they are logged), is executed three times; the third rejected
    result is then accepted: the task ends in status [completed], in
    [completedTasks], nothing is left pending, and the result has
    [success = true]. *)
Theorem rejected_thrice_is_completed (cfg : WorkflowConfig) (g : string)
    (ext : Ext) (r : ref) :
  requireReview cfg = true -> autoRetry cfg = true -> retryLimit cfg = 2 ->
  3 <= maxIterations cfg ->
  at_ (start cfg g ext) = Running ->
  pendingTasks (context (session (start cfg g ext))) = [r] ->
  described (session (start cfg g ext)) r ->
  (forall i, execution_succeeds ext i) ->
  (forall i, review_rejects ext i) ->
  (forall i, feedback_prints ext i) ->
  let s := session (final cfg g ext) in
  status_of s r = Some completed /\
  pendingTasks (context s) = [] /\
  completedTasks (context s) = [r] /\
  (exists t, heap s !! r = Some t /\ attempts (id t) s = 3) /\
  wf_success (run cfg g ext) = true /\
  wf_completedTasks (run cfg g ext) = 1 /\
  error (run cfg g ext) = None.
Proof.
  intros Hrr Har Hlim Hmax Hat Hpe Hdescr Hexec Hrej Hfb s.
  destruct (always_rejected_run cfg ext r Hrr Har Hexec Hrej Hfb g)
    as (Ha & Hp & Hc & t & Ht & Hst & Hatt); [lia|done|done|done|].
  fold s in Hp, Hc, Ht, Hatt. rewrite Hlim in Hatt.
  split_and!; try done.
  - unfold status_of. rewrite Ht. simpl. by rewrite Hst.
  - eauto.
  - unfold run. destruct (at_ (final cfg g ext)) eqn:Hf; simpl.
    + fold s. by rewrite Hp.
    + fold s. by rewrite Hp.
    + by destruct (Ha e).
  - unfold run. destruct (at_ (final cfg g ext)) eqn:Hf; simpl; fold s; by rewrite Hc.
  - unfold run. destruct (at_ (final cfg g ext)) eqn:Hf; simpl; try done.
    by destruct (Ha e).
Qed.

Lemma rejected_thrice_is_completed_witness :
  let ext := always_rejecting ["log in"] in
  let s := session (final DEFAULT_CONFIG "goal" ext) in
  status_of s 0 = Some completed /\
  pendingTasks (context s) = [] /\
  completedTasks (context s) = [0] /\
  (exists t, heap s !! 0 = Some t /\ attempts (id t) s = 3) /\
  wf_success (run DEFAULT_CONFIG "goal" ext) = true /\
  wf_completedTasks (run DEFAULT_CONFIG "goal" ext) = 1 /\
  error (run DEFAULT_CONFIG "goal" ext) = None.
Proof.
  intros ext.
  apply (rejected_thrice_is_completed DEFAULT_CONFIG "goal" ext 0);
    try reflexivity.
  - simpl. lia.
  - eexists. split; [reflexivity|]. eexists. reflexivity.
  - intros i task s. unfold ExecutorAgent.execute, bind, modify, lift, ret. simpl.
    eexists. eexists. split; reflexivity.
  - intros i. eexists. split; reflexivity.
  - intros i v Hv. injection Hv as <-. eexists. reflexivity.
Defined.

(** C1 as stated fails. In Scenario C on the code (default
    configuration, one task, every execution succeeds, every review
    rejects) the task is not left [rejected] outside [completedTasks]
    with [success = false]. *)
Lemma rejected_thrice_not_left_rejected :
  let cfg := DEFAULT_CONFIG in
  let ext := always_rejecting ["log in"] in
  (requireReview cfg = true /\ autoRetry cfg = true /\ retryLimit cfg = 2) /\
  pendingTasks (context (session (start cfg "goal" ext))) = [0] /\
  (forall i, execution_succeeds ext i) /\
  (forall i, review_rejects ext i) /\
  ~ left_rejected cfg "goal" ext 0.
Proof.
  intros cfg ext. split_and!; try reflexivity.
  - intros i. apply always_rejecting_succeeds.
  - intros i. apply always_rejecting_rejects.
  - intros (Hst & _). vm_compute in Hst. discriminate.
Qed.

End ScenarioC.

(** ** The retry bound *)

Section RetryBound.
Import ContextManager Orchestrator Examples.

(** C5 (as amended). With [retryLimit = N], [execute] is started on
    each task at most [N + 1] times, whatever the reviewer answers, and
    the loop ends. When the loop condition is tested, a task is in
    status [rejected] only if the run has been aborted by a throw. With
    [requireReview] and [autoRetry], a single task whose description
    and review feedback can be converted to strings, whose execution
    always succeeds and whose review always rejects is left neither
    [rejected] nor [failed]: when [N < maxIterations] it is executed
    exactly [N + 1] times and is then completed; when
    [maxIterations <= N] it is executed [maxIterations] times and is
    left [pending], with [success = false]. *)
Theorem attempts_bounded (cfg : WorkflowConfig) (g : string) (ext : Ext) :
  (forall k tid, attempts tid (session (after cfg g ext k)) <= retryLimit cfg + 1) /\
  at_ (final cfg g ext) <> Running /\
  (forall k r, status_of (session (after cfg g ext k)) r = Some rejected ->
               exists e, at_ (after cfg g ext k) = Aborted e) /\
  (forall r,
     requireReview cfg = true -> autoRetry cfg = true ->
     at_ (start cfg g ext) = Running ->
     pendingTasks (context (session (start cfg g ext))) = [r] ->
     described (session (start cfg g ext)) r ->
     (forall i, execution_succeeds ext i) ->
     (forall i, review_rejects ext i) ->
     (forall i, feedback_prints ext i) ->
     let s := session (final cfg g ext) in
     exists t, heap s !! r = Some t /\
       if (retryLimit cfg <? maxIterations cfg)%nat then
         status t = completed /\
         completedTasks (context s) = [r] /\
         attempts (id t) s = retryLimit cfg + 1
       else
         status t = pending /\
         pendingTasks (context s) = [r] /\
         attempts (id t) s = maxIterations cfg /\
         wf_success (run cfg g ext) = false).
Proof.
  split_and!.
  - intros k tid.
    pose proof (inv_attempts _ _ (after_invariant cfg g ext k) tid). lia.
  - apply final_ended.
  - intros k r. apply (inv_verdicts _ _ (after_invariant cfg g ext k)).
  - intros r Hrr Har Hat Hpe Hdescr Hexec Hrej Hfb s.
    destruct (retryLimit cfg <? maxIterations cfg)%nat eqn:Hlt.
    + apply Nat.ltb_lt in Hlt.
      destruct (always_rejected_run cfg ext r Hrr Har Hexec Hrej Hfb g Hlt Hat Hpe Hdescr)
        as (_ & _ & Hc & t & Ht & Hst & Hatt).
      fold s in Hc, Ht, Hatt. exists t. split_and!; try done. rewrite Hatt. lia.
    + apply Nat.ltb_ge in Hlt.
      destruct (always_rejected_short_run cfg ext r Hrr Har Hexec Hrej Hfb g Hlt Hat
                  Hpe Hdescr)
        as (Hex & Hp & Hc & t & Ht & Hst & Hatt).
      fold s in Hp, Hc, Ht, Hatt. exists t. split_and!; try done.
      unfold run. rewrite Hex. cbn [wf_success]. fold s. by rewrite Hp.
Qed.

Lemma attempts_bounded_witness :
  let cfg := {| maxIterations := 15; requireReview := true; autoRetry := true;
                retryLimit := 4; timeout := 300000 |} in
  let ext := always_rejecting ["select the carer"] in
  let s := session (final cfg "goal" ext) in
  (forall k tid, attempts tid (session (after cfg "goal" ext k)) <= 5) /\
  exists t, heap s !! 0 = Some t /\
    status t = completed /\
    completedTasks (context s) = [0] /\
    attempts (id t) s = 5.
Proof.
  intros cfg ext s.
  destruct (attempts_bounded cfg "goal" ext) as (Hbound & _ & _ & Hrun).
  split; [exact Hbound|].
  apply (Hrun 0); try reflexivity.
  - eexists. split; [reflexivity|]. eexists. reflexivity.
  - intros i task s0. unfold ExecutorAgent.execute, bind, modify, lift, ret. simpl.
    eexists. eexists. split; reflexivity.
  - intros i. eexists. split; reflexivity.
  - intros i v Hv. injection Hv as <-. eexists. reflexivity.
Defined.

(** C5 as stated fails. With [retryLimit = 2] the always-rejected task
    is executed three times and is then left neither [rejected] nor
    [failed]. *)
Lemma always_rejected_not_left_rejected :
  let cfg := DEFAULT_CONFIG in
  let ext := always_rejecting ["log in"] in
  (autoRetry cfg = true /\ retryLimit cfg = 2) /\
  (forall i, review_rejects ext i) /\
  attempts "task-0" (session (final cfg "goal" ext)) = 3 /\
  ~ left_rejected_or_failed cfg "goal" ext 0.
Proof.
  intros cfg ext. split_and!; try reflexivity.
  - intros i. apply always_rejecting_rejects.
  - intros [H|H]; vm_compute in H; discriminate.
Qed.

End RetryBound.

(** ** Plans without tasks *)

Section EmptyPlans.
Import ContextManager Orchestrator Examples.

Lemma no_tasks_entries parsed :
  no_tasks parsed -> or_else (get_opt parsed "tasks") (JArr []) = JArr [].
Proof.
  unfold no_tasks, or_else. destruct (get_opt parsed "tasks") as [v|]; [|done].
  simpl. intros [->|[= ->]]; done.
Qed.

Lemma dependencies_cases ds :
  let f := fun d => match js_string d with
                    | Ok shown => Ok ("task-" +:+ shown)
                    | Throw e => Throw e
                    end in
  if forallb printable ds then exists deps, map_outcome f ds = Ok deps
  else exists e, map_outcome f ds = Throw e.
Proof.
  intros f. induction ds as [|d ds IH]; simpl; [eauto|].
  pose proof (js_string_printable d) as Hd. unfold f at 1 3.
  destruct (printable d); simpl.
  - destruct Hd as [shown ->].
    destruct (forallb printable ds); destruct IH as [x ->]; eauto.
  - rewrite Hd. eauto.
Qed.

Lemma planned_task_cases i t :
  if entry_ok t then exists x, PlannerAgent.planned_task i t = Ok x
  else exists e, PlannerAgent.planned_task i t = Throw e.
Proof.
  unfold entry_ok, PlannerAgent.planned_task.
  destruct t; eauto;
    (destruct (get _ "dependencies") as [[| | | |ds|]|]; eauto;
     pose proof (dependencies_cases ds) as Hds; cbv zeta in Hds;
     destruct (forallb printable ds); destruct Hds as [x ->]; eauto).
Qed.

Lemma map_indexed_planned k entries :
  if forallb entry_ok entries
  then exists l, map_indexed PlannerAgent.planned_task k entries = Ok l /\
                 length l = length entries
  else exists e, map_indexed PlannerAgent.planned_task k entries = Throw e.
Proof.
  revert k. induction entries as [|t entries IH]; intros k; simpl; [eauto|].
  pose proof (planned_task_cases k t) as Ht.
  destruct (entry_ok t); simpl.
  - destruct Ht as [x ->]. specialize (IH (S k)).
    destruct (forallb entry_ok entries).
    + destruct IH as (l & -> & Hl). exists (x :: l). simpl. auto.
    + destruct IH as [e ->]. eauto.
  - destruct Ht as [e ->]. eauto.
Qed.

(** [createPlan] from the task list on. *)
Lemma createPlan_entries g parsed entries s :
  printable (or_else (selectedCarer (state (context s))) (JStr "none")) = true ->
  or_else (get_opt parsed "tasks") (JArr []) = JArr entries ->
  if forallb entry_ok entries
  then exists plan s', PlannerAgent.createPlan g (Ok parsed) s = (Ok plan, s') /\
                       length (tasks plan) = length entries /\
                       estimatedSteps plan = length entries
  else exists e s', PlannerAgent.createPlan g (Ok parsed) s = (Throw e, s').
Proof.
  intros Hc He. unfold PlannerAgent.createPlan. rewrite bind_createPlan_prompt.
  destruct (printable_prints _ Hc) as [carer Hcarer]. simpl in Hcarer. rewrite Hcarer.
  mstep. mstep. mstep. rewrite He. cbn [as_array]. mstep.
  pose proof (map_indexed_planned 0 entries) as Hm.
  destruct (forallb entry_ok entries).
  - destruct Hm as (l & -> & Hl). unfold allocate. unfold bind at 1. cbv beta iota.
    mstep. mstep. unfold ret. eexists. eexists. split; [reflexivity|].
    simpl. rewrite length_seq. auto.
  - destruct Hm as [e ->]. eauto.
Qed.

(** When [createPlan] returns a plan, and how many tasks it has. *)
Lemma createPlan_cases g answer s :
  match plannable s answer with
  | Some n =>
      exists plan s', PlannerAgent.createPlan g answer s = (Ok plan, s') /\
                      length (tasks plan) = n /\ estimatedSteps plan = n
  | None => exists e s', PlannerAgent.createPlan g answer s = (Throw e, s')
  end.
Proof.
  unfold plannable.
  destruct (printable (or_else (selectedCarer (state (context s))) (JStr "none")))
    eqn:Hc.
  2: { unfold PlannerAgent.createPlan. rewrite bind_createPlan_prompt.
       pose proof (js_string_printable
                     (or_else (selectedCarer (state (context s))) (JStr "none"))) as H.
       rewrite Hc in H. rewrite H. eauto. }
  destruct answer as [parsed|e].
  2: { unfold PlannerAgent.createPlan. rewrite bind_createPlan_prompt.
       destruct (printable_prints _ Hc) as [carer Hcarer]. simpl in Hcarer.
       rewrite Hcarer. mstep. mstep. eauto. }
  assert (Hnone : or_else (get_opt parsed "tasks") (JArr []) = JArr [] ->
            exists plan s', PlannerAgent.createPlan g (Ok parsed) s = (Ok plan, s') /\
                            length (tasks plan) = 0 /\ estimatedSteps plan = 0).
  { intros He. apply (createPlan_entries g parsed [] s Hc He). }
  assert (Hbad : forall v, or_else (get_opt parsed "tasks") (JArr []) = v ->
            as_array v = Throw TypeError_not_a_function ->
            exists e s', PlannerAgent.createPlan g (Ok parsed) s = (Throw e, s')).
  { intros v He Hv. unfold PlannerAgent.createPlan. rewrite bind_createPlan_prompt.
    destruct (printable_prints _ Hc) as [carer Hcarer]. simpl in Hcarer.
    rewrite Hcarer. mstep. mstep. mstep. rewrite He, Hv. eauto. }
  destruct (get_opt parsed "tasks") as [[|b|n|str|entries|fields]|] eqn:Ht;
    cbn [truthy].
  - by apply Hnone.
  - destruct b; [by eapply Hbad|by apply Hnone].
  - destruct (String.eqb n "0") eqn:Hn; cbn [negb].
    + apply Hnone. simpl. by rewrite Hn.
    + eapply Hbad; [simpl; by rewrite Hn|done].
  - destruct (String.eqb str "") eqn:Hn; cbn [negb].
    + apply Hnone. simpl. by rewrite Hn.
    + eapply Hbad; [simpl; by rewrite Hn|done].
  - pose proof (createPlan_entries g parsed entries s Hc) as He.
    rewrite Ht in He. specialize (He eq_refl).
    by destruct (forallb entry_ok entries).
  - by eapply Hbad.
  - by apply Hnone.
Qed.

Lemma no_tasks_plannable g parsed :
  no_tasks parsed -> plannable (new g) (Ok parsed) = Some 0.
Proof.
  unfold no_tasks, plannable. simpl.
  destruct (get_opt parsed "tasks") as [v|]; [|done].
  intros [Hv|[= ->]]; [|done]. simpl in Hv. rewrite Hv. by destruct v.
Qed.

(** A run that enters the loop with a plan of no task. *)
Lemma zero_plan_run cfg g ext :
  at_ (start cfg g ext) = Running ->
  total_tasks (context (session (start cfg g ext))) = 0 ->
  wf_success (run cfg g ext) = true /\
  wf_completedTasks (run cfg g ext) = 0 /\
  wf_totalTasks (run cfg g ext) = 0 /\
  error (run cfg g ext) = None.
Proof.
  intros Hat Htot.
  pose proof (start_fresh cfg g ext) as Hf.
  pose proof (plan_covers _ (fresh_consistent _ Hf)) as Hcov.
  assert (Hq : queued (session (start cfg g ext)) = []).
  { unfold total_tasks in Htot.
    destruct (currentPlan (context (session (start cfg g ext)))) as [p|]; [|done].
    apply nil_length_inv in Htot. rewrite Htot in Hcov.
    symmetry in Hcov. by apply Permutation_nil_r in Hcov. }
  apply app_eq_nil in Hq as [Hpe Hco].
  assert (Ha : forall x, at_ (start cfg g ext) <> Aborted x) by (intros x; by rewrite Hat).
  destruct (iter_idle cfg ext _ (S (maxIterations cfg)) Hpe Ha) as [Hs Hfin].
  change (Nat.iter (S (maxIterations cfg)) (step cfg ext) (start cfg g ext))
    with (final cfg g ext) in Hs, Hfin.
  unfold run. rewrite Hs.
  destruct (at_ (final cfg g ext)) eqn:Hfa; cbn; rewrite ?Hpe, ?Hco, ?Htot; try done.
  by destruct (Hfin e).
Qed.

Lemma revisePlan_no_tasks fb parsed s p :
  currentPlan (context s) = Some p -> tasks p = [] ->
  printable fb = true -> no_tasks parsed ->
  exists plan s',
    PlannerAgent.revisePlan fb (Ok parsed) s = (Ok plan, s') /\
    total_tasks (context s') = 0.
Proof.
  intros Hp Hlen Hfb Hno. unfold PlannerAgent.revisePlan. cbv zeta.
  rewrite Hp, Hlen, bind_describe_tasks. cbn [map_outcome].
  destruct (printable_prints _ Hfb) as [fshown Hshown]. simpl in Hshown.
  mstep. rewrite Hshown. mstep.
  rewrite (no_tasks_entries _ Hno). cbn [as_array]. mstep.
  cbn [map_indexed]. mstep. unfold allocate. unfold bind at 1. cbv beta iota.
  mstep. unfold ret. eexists. eexists. split; reflexivity.
Qed.

(** The planning steps on an answer without tasks, when the plan review
    lets the empty plan stand or replaces it by an empty one. *)
Lemma planning_zero_tasks cfg ext g :
  plannable (new g) (plan_answer ext) = Some 0 ->
  plan_stands cfg ext \/ empty_revision cfg ext ->
  exists s, planning cfg ext (new g) = (Ok tt, s) /\ total_tasks (context s) = 0.
Proof.
  intros Hpl Hcase.
  pose proof (createPlan_cases g (plan_answer ext) (new g)) as Hcp.
  rewrite Hpl in Hcp. destruct Hcp as (plan & s1 & Hcp & Hlen & _).
  apply nil_length_inv in Hlen.
  pose proof (createPlan_spec _ _ _ _ _ Hcp) as (_ & _ & new1 & _ & _ & _ & _ & Hp & _).
  assert (Htot : total_tasks (context s1) = 0)
    by (unfold total_tasks; by rewrite Hp, Hlen).
  unfold planning. cbv beta. change (goal (context (new g))) with g.
  unfold bind at 1. rewrite Hcp.
  destruct Hcase as [[Hrr|(v & Hv & Hverd)]|(Hrr & v & parsed & Hv & Hverd & Hfb & Hrev & Hno)].
  - rewrite Hrr. eauto.
  - destruct (requireReview cfg); [|eauto].
    unfold ReviewerAgent.reviewPlan_prompt. rewrite bind_describe_tasks, Hlen.
    cbn [map_outcome]. unfold ReviewerAgent.reviewPlan. mstep. rewrite Hv. mstep.
    cbn [review_approved]. unfold verdict in Hverd. rewrite Hverd. eauto.
  - rewrite Hrr.
    unfold ReviewerAgent.reviewPlan_prompt. rewrite bind_describe_tasks, Hlen.
    cbn [map_outcome]. unfold ReviewerAgent.reviewPlan. mstep. rewrite Hv. mstep.
    cbn [review_approved feedback]. unfold verdict in Hverd. rewrite Hverd.
    cbn [negb]. rewrite bind_log.
    destruct (printable_prints _ Hfb) as [fshown Hshown]. rewrite Hshown.
    destruct (revisePlan_no_tasks _ parsed s1 plan Hp Hlen Hfb Hno)
      as (plan2 & s2 & Hrp & Htot2).
    unfold bind at 1. rewrite Hrev, Hrp. unfold ret. eauto.
Qed.

(** C6 (as amended). For every goal and every session, [createPlan]
    returns a plan exactly when the selected carer can be shown in the
    prompt, the request to the reasoning service is answered, and the
    task list of the parsed answer is missing, falsy, or an array whose
    entries are not [null] and have [dependencies] that are missing,
    [null] or an array of values that can be converted to strings; the
    plan then has one task per entry, so none for a missing, falsy or
    empty list; in every other case [createPlan] throws. A run that
    enters the loop with a plan of no task returns [success = true],
    [completedTasks = 0] and [totalTasks = 0]; that is the case when
    the planner's answer gives no task and there is no plan review, or
    the review approves, or it rejects with feedback that can be
    shown and the revision has no task either. *)
Theorem zero_task_plan (cfg : WorkflowConfig) (g : string) (ext : Ext) :
  (forall answer s,
     match plannable s answer with
     | Some n =>
         exists plan s', PlannerAgent.createPlan g answer s = (Ok plan, s') /\
                         length (tasks plan) = n /\ estimatedSteps plan = n
     | None => exists e s', PlannerAgent.createPlan g answer s = (Throw e, s')
     end) /\
  (forall parsed, no_tasks parsed -> plannable (new g) (Ok parsed) = Some 0) /\
  (at_ (start cfg g ext) = Running ->
   total_tasks (context (session (start cfg g ext))) = 0 ->
   wf_success (run cfg g ext) = true /\
   wf_completedTasks (run cfg g ext) = 0 /\
   wf_totalTasks (run cfg g ext) = 0 /\
   error (run cfg g ext) = None) /\
  (plannable (new g) (plan_answer ext) = Some 0 ->
   plan_stands cfg ext \/ empty_revision cfg ext ->
   wf_success (run cfg g ext) = true /\
   wf_completedTasks (run cfg g ext) = 0 /\
   wf_totalTasks (run cfg g ext) = 0 /\
   error (run cfg g ext) = None).
Proof.
  split_and!.
  - intros answer s. apply createPlan_cases.
  - intros parsed. apply no_tasks_plannable.
  - apply zero_plan_run.
  - intros Hpl Hcase.
    destruct (planning_zero_tasks cfg ext g Hpl Hcase) as (s & Hs & Htot).
    apply zero_plan_run; unfold start; by rewrite Hs.
Qed.

Lemma zero_task_plan_witness :
  wf_success (run DEFAULT_CONFIG "no-op" empty_twice) = true /\
  wf_completedTasks (run DEFAULT_CONFIG "no-op" empty_twice) = 0 /\
  wf_totalTasks (run DEFAULT_CONFIG "no-op" empty_twice) = 0 /\
  error (run DEFAULT_CONFIG "no-op" empty_twice) = None.
Proof.
  destruct (zero_task_plan DEFAULT_CONFIG "no-op" empty_twice) as (_ & _ & _ & Hrun).
  apply Hrun.
  - reflexivity.
  - right. split; [reflexivity|].
    exists (JObj [("approved", JBool false); ("feedback", JStr "the plan has no steps")]),
           JNull.
    split_and!; try reflexivity. left. reflexivity.
Defined.

(** A throw of [createPlan] is caught by [run] and reported in the
    result. *)
Lemma createPlan_throw_is_reported cfg g ext e s' :
  PlannerAgent.createPlan g (plan_answer ext) (new g) = (Throw e, s') ->
  wf_success (run cfg g ext) = false /\
  error (run cfg g ext) = Some (error_message e) /\
  wf_completedTasks (run cfg g ext) = 0 /\
  wf_totalTasks (run cfg g ext) = 0.
Proof.
  intros Hcp.
  assert (Hstart : start cfg g ext =
            {| iteration := 0; retryCount := 0; session := s';
               at_ := Aborted e; trace := [] |}).
  { unfold start, planning. cbv beta.
    change (goal (context (new g))) with g. unfold bind at 1. by rewrite Hcp. }
  assert (Hfinal : final cfg g ext = start cfg g ext).
  { unfold final, after. apply iter_step_ended. by rewrite Hstart. }
  apply createPlan_spec in Hcp as (_ & Hco & Hh & Hp & Hpe).
  unfold run. rewrite Hfinal, Hstart. simpl.
  unfold total_tasks. rewrite Hco, Hp. done.
Qed.

(** C6 as stated fails, in both halves: [createPlan] throws on an
    answer whose task list holds [null]; and the run on the plan of no
    task that [createPlan] makes from an empty task list returns
    [success = false] when the request for the review of that plan is
    rejected. *)
Lemma zero_task_plan_as_stated_fails :
  ~ createPlan_never_throws /\
  ~ zero_task_run DEFAULT_CONFIG "no-op" review_unavailable.
Proof.
  split.
  - intros H.
    destruct (H "no-op" (Ok (JObj [("tasks", JArr [JNull])])) (new "no-op"))
      as (plan & s' & Hcp).
    vm_compute in Hcp. discriminate.
  - intros H.
    destruct (H {| plan_goal := "no-op"; tasks := []; estimatedSteps := 0 |}
                (snd (PlannerAgent.createPlan "no-op" (plan_answer review_unavailable)
                        (new "no-op"))))
      as (Hs & _); [reflexivity|reflexivity|].
    vm_compute in Hs. discriminate.
Qed.

End EmptyPlans.

(** ** Revising the plan *)

Section Revision.
Import ContextManager Orchestrator Examples.








End Revision.

(** ** Defects *)

Section Defects.
Import ContextManager Orchestrator Examples.

(** C4 on the code. With two tasks, the default configuration and
    reviews that always reject, the first task is completed at the
    third pass with [retryCount] still 2, and the second task is then
    completed at its first attempt, without any retry. *)
Theorem retry_count_survives_completion :
  let ext := always_rejecting ["log in"; "submit the form"] in
  let third := after DEFAULT_CONFIG "goal" ext 3 in
  let last := final DEFAULT_CONFIG "goal" ext in
  trace third = [Retried 0; Retried 0; Completed 0 false] /\
  retryCount third = 2 /\
  trace last = [Retried 0; Retried 0; Completed 0 false; Completed 1 false; NoTask] /\
  attempts "task-0" (session last) = 3 /\
  attempts "task-1" (session last) = 1.
Proof. by vm_compute. Qed.

End Defects.

(* ===================================================================== *)
(** * Further properties of the module *)
(* ===================================================================== *)

(** ** The context manager *)

Section Store.
Import ContextManager.

Lemma findIndex_None {A} (p : A -> bool) (l : list A) :
  findIndex p l = None <-> Forall (fun x => p x = false) l.
Proof.
  induction l as [|x l IH]; simpl; [by split|].
  rewrite Forall_cons. destruct (p x) eqn:Hp.
  - split; [done|]. by intros [? _].
  - destruct (findIndex p l); simpl.
    + split; [done|]. intros [_ H]. by apply IH in H.
    + split; [|done]. intros _. split; [done|]. by apply IH.
Qed.

Lemma find_None {A} (p : A -> bool) (l : list A) :
  List.find p l = None <-> Forall (fun x => p x = false) l.
Proof.
  induction l as [|x l IH]; simpl; [by split|].
  rewrite Forall_cons. destruct (p x) eqn:Hp.
  - split; [done|]. by intros [? _].
  - rewrite IH. tauto.
Qed.

(** The first match of [find], with what comes before it. *)
Lemma find_first {A} (p : A -> bool) (l : list A) x :
  List.find p l = Some x ->
  exists i, l !! i = Some x /\ p x = true /\
            forall j y, j < i -> l !! j = Some y -> p y = false.
Proof.
  induction l as [|a l IH]; simpl; [done|].
  destruct (p a) eqn:Hp.
  - intros [= <-]. exists 0. split_and!; try done. intros; lia.
  - intros H. destruct (IH H) as (i & Hi & Hx & Hbefore).
    exists (S i). split_and!; try done.
    intros [|j] y Hj; simpl; [by intros [= <-]|].
    apply Hbefore. lia.
Qed.

Lemma absent_id_find (h : list Task) (tid : string) (l : list ref) :
  Forall (fun r => id <$> h !! r <> Some tid) l ->
  Forall (fun r => has_id h tid r = false) l.
Proof.
  intros H. eapply Forall_impl; [exact H|]. intros r Hr. cbv beta in Hr.
  unfold has_id. destruct (h !! r) as [t|]; [|done].
  apply String.eqb_neq. intros Heq. apply Hr. by rewrite <- Heq.
Qed.

Lemma absent_id_noop (s : Session) (tid : string) (u : TaskUpdate) (res : TaskResult) :
  Forall (fun r => id_of s r <> Some tid) (pendingTasks (context s)) ->
  updateTask tid u s = s /\ completeTask tid res s = s.
Proof.
  intros H. apply absent_id_find in H. split.
  - unfold updateTask. apply find_None in H. by rewrite H.
  - unfold completeTask. apply findIndex_None in H. by rewrite H.
Qed.

(** X1. [updateTask] and [completeTask] look the task up in
    [pendingTasks] only: with an id that no pending task has, be it
    unknown or the id of a task already completed, they change
    nothing. *)
Theorem unknown_id_is_ignored (s : Session) (tid : string) (u : TaskUpdate)
    (res : TaskResult) :
  Forall (fun r => id_of s r <> Some tid) (pendingTasks (context s)) ->
  updateTask tid u s = s /\ completeTask tid res s = s.
Proof. apply absent_id_noop. Qed.

Lemma unknown_id_is_ignored_witness :
  updateTask "task-7" {| upd_status := Some failed; upd_result := None |}
    Samples.two_pending = Samples.two_pending /\
  completeTask "task-7" {| success := JBool true; data := None; reviewNotes := None |}
    Samples.two_pending = Samples.two_pending.
Proof.
  apply (unknown_id_is_ignored Samples.two_pending "task-7").
  vm_compute. repeat constructor; discriminate.
Defined.

(** After [completeTask tid], no pending task has the id [tid]. *)
Lemma completeTask_removes_id tid res s :
  NoDup (map id (heap s)) -> NoDup (pendingTasks (context s)) ->
  Forall (fun r => id_of (completeTask tid res s) r <> Some tid)
    (pendingTasks (context (completeTask tid res s))).
Proof.
  intros Hids Hnd. unfold completeTask.
  destruct (findIndex _ _) as [idx|] eqn:Hidx.
  - apply findIndex_Some in Hidx as (r0 & Hr0 & Hid0 & _).
    rewrite Hr0.
    unfold has_id in Hid0. destruct (heap s !! r0) as [t0|] eqn:Ht0; [|done].
    apply String.eqb_eq in Hid0. simpl.
    apply Forall_forall. intros r Hr.
    destruct (elem_of_delete_NoDup _ _ _ _ Hnd Hr0 Hr) as [_ Hne].
    unfold id_of. simpl. rewrite list_lookup_insert_ne by done.
    destruct (heap s !! r) as [t|] eqn:Ht; [|done].
    simpl. intros [= Hid]. apply Hne.
    eapply lookup_id_inj; eauto. congruence.
  - apply findIndex_None in Hidx. eapply Forall_impl; [exact Hidx|].
    intros r. cbv beta. unfold has_id, id_of.
    destruct (heap s !! r) as [t|]; [|done].
    simpl. intros Hne [= Heq]. rewrite Heq, String.eqb_refl in Hne. done.
Qed.

(** X2. A completed task is closed: once [completeTask tid] has run, a
    second [completeTask tid] and any [updateTask tid] change nothing,
    so the recorded result and the status [completed] stay. *)
Theorem completed_task_is_closed (s : Session) (tid : string) (res : TaskResult) :
  NoDup (map id (heap s)) -> NoDup (pendingTasks (context s)) ->
  let s' := completeTask tid res s in
  (forall res', completeTask tid res' s' = s') /\
  (forall u, updateTask tid u s' = s').
Proof.
  intros Hids Hnd s'.
  pose proof (completeTask_removes_id tid res s Hids Hnd) as H. fold s' in H.
  split.
  - intros res'.
    apply (absent_id_noop s' tid {| upd_status := None; upd_result := None |} res' H).
  - intros u. apply (absent_id_noop s' tid u res H).
Qed.

Lemma completed_task_is_closed_witness :
  let s' := completeTask "task-0"
              {| success := JBool true; data := None; reviewNotes := None |}
              Samples.two_pending in
  (forall res', completeTask "task-0" res' s' = s') /\
  (forall u, updateTask "task-0" u s' = s').
Proof.
  apply (completed_task_is_closed Samples.two_pending "task-0");
    apply (bool_decide_unpack _); vm_compute; exact I.
Defined.

(** X3. [getNextTask] takes the tasks in the order of [pendingTasks]:
    the task it returns has the status [pending] or [approved], and no
    task before it in [pendingTasks] has one of these two statuses. *)
Theorem getNextTask_first_ready (s : Session) (r : ref) (t : Task) :
  getNextTask s = Some (r, t) ->
  exists i,
    pendingTasks (context s) !! i = Some r /\
    heap s !! r = Some t /\
    (status t = pending \/ status t = approved) /\
    forall j r', j < i -> pendingTasks (context s) !! j = Some r' ->
      status_of s r' <> Some pending /\ status_of s r' <> Some approved.
Proof.
  intros H. apply getNextTask_Some in H as (_ & Ht & Hready & Hfind).
  apply find_first in Hfind as (i & Hi & _ & Hbefore).
  exists i. split_and!; try done.
  - unfold is_ready in Hready. rewrite Ht in Hready.
    destruct (status t); simpl in Hready; auto; discriminate.
  - intros j r' Hj Hr'. specialize (Hbefore j r' Hj Hr').
    unfold is_ready in Hbefore. unfold status_of.
    destruct (heap s !! r') as [t'|]; [|done]. simpl.
    split; intros [= Hst]; rewrite Hst in Hbefore; discriminate.
Qed.

Lemma getNextTask_first_ready_witness :
  exists i,
    pendingTasks (context Samples.second_is_next) !! i = Some 1 /\
    heap Samples.second_is_next !! 1 =
      Some {| id := "task-1"; description := Some (JStr "list carers");
              status := pending; priority := None; dependencies := None;
              result := None |} /\
    (pending = pending \/ pending = approved) /\
    forall j r', j < i ->
      pendingTasks (context Samples.second_is_next) !! j = Some r' ->
      status_of Samples.second_is_next r' <> Some pending /\
      status_of Samples.second_is_next r' <> Some approved.
Proof.
  apply (getNextTask_first_ready Samples.second_is_next 1). reflexivity.
Defined.

Lemma is_ready_by_status (h h' : list Task) (r : ref) :
  map status h = map status h' -> is_ready h r = is_ready h' r.
Proof.
  intros H. apply (f_equal (fun l => l !! r)) in H.
  rewrite !list_lookup_fmap in H. unfold is_ready.
  destruct (h !! r), (h' !! r); simpl in H; try done. by injection H as ->.
Qed.

(** X4. Which task [getNextTask] selects depends on the order of
    [pendingTasks] and on the statuses only: priorities, dependencies,
    descriptions and results play no part. *)
Theorem getNextTask_by_status_only (s s' : Session) :
  pendingTasks (context s) = pendingTasks (context s') ->
  map status (heap s) = map status (heap s') ->
  fst <$> getNextTask s = fst <$> getNextTask s'.
Proof.
  intros Hp Hst. unfold getNextTask. rewrite <- Hp.
  assert (Hfind : List.find (is_ready (heap s)) (pendingTasks (context s)) =
                  List.find (is_ready (heap s')) (pendingTasks (context s))).
  { clear Hp. induction (pendingTasks (context s)) as [|a l IH]; simpl; [done|].
    rewrite (is_ready_by_status _ _ a Hst). by rewrite IH. }
  rewrite <- Hfind.
  destruct (List.find _ _) as [r|] eqn:Hf; [|done].
  apply find_elem in Hf as [_ Hr].
  pose proof Hr as Hr'. rewrite (is_ready_by_status _ _ r Hst) in Hr'.
  unfold is_ready in Hr, Hr'.
  by destruct (heap s !! r), (heap s' !! r).
Qed.

Lemma getNextTask_by_status_only_witness :
  fst <$> getNextTask Samples.two_pending = fst <$> getNextTask Samples.urgent_second.
Proof.
  apply (getNextTask_by_status_only Samples.two_pending Samples.urgent_second);
    reflexivity.
Defined.

(** X5. A value written with [setMemory] is the one [getMemory] reads
    back for that key, whatever the memory held before, and the
    readings of all other keys are unchanged. *)
Theorem setMemory_then_getMemory (s : Session) (k : string) (v : json)
    (src : AgentRole) :
  getMemory k (setMemory k v src s) = Some v /\
  forall k', k' <> k -> getMemory k' (setMemory k v src s) = getMemory k' s.
Proof.
  unfold getMemory. rewrite setMemory_memory. split.
  - change (fun m => String.eqb (key m) k)
      with (keyed (key {| key := k; value := v; source := src |})).
    by rewrite upsert_find.
  - intros k' Hk'. change (fun m => String.eqb (key m) k') with (keyed k').
    by rewrite upsert_find_other.
Qed.

End Store.

(** ** What a run writes *)

Section Writes.
Import ContextManager Orchestrator.

Ltac write_step :=
  eapply rtc_r;
  [ | first [ apply write_history
            | apply write_state
            | apply write_memory; auto
            | apply write_task; first [discriminate | by destruct (truthy _)]
            | apply write_complete
            | apply write_message; assumption
            | apply write_call ] ].

Lemma updateState_writes u s : rtc loop_write s (updateState u s).
Proof. unfold updateState. do 2 write_step. done. Qed.

Lemma call_writes {A} c (o : outcome A) k s r s' :
  (forall a s1 r1 s2, k a s1 = (r1, s2) -> rtc loop_write s1 s2) ->
  ExecutorAgent.call c o k s = (r, s') -> rtc loop_write s s'.
Proof.
  intros Hk. unfold ExecutorAgent.call. destruct o as [a|e].
  - intros H. apply Hk in H. eapply rtc_l; [apply (write_call c)|exact H].
  - intros [= <- <-]. apply rtc_once, (write_call c).
Qed.

Lemma known_action_writes c params auto s r s' :
  ExecutorAgent.known_action c params auto s = (r, s') -> rtc loop_write s s'.
Proof.
  unfold ExecutorAgent.known_action.
  destruct c.
  - apply call_writes. intros a s1 r1 s2 [= <- <-]. apply updateState_writes.
  - apply call_writes. intros a s1 r1 s2 [= <- <-]. write_step. done.
  - destruct (get params "carerCode") as [code|]; [destruct (truthy code)|].
    + apply call_writes. intros a s1 r1 s2 [= <- <-].
      destruct a; [apply updateState_writes|done].
    + by intros [= <- <-].
    + by intros [= <- <-].
  - apply call_writes. intros a s1 r1 s2 [= <- <-].
    destruct a; [apply updateState_writes|done].
  - destruct (get params "formData") as [fd|]; [destruct (truthy fd)|].
    + intros H. eapply rtc_l; [apply (write_memory "formData"); auto|].
      eapply call_writes; [|exact H]. by intros a s1 r1 s2 [= <- <-].
    + by intros [= <- <-].
    + by intros [= <- <-].
  - apply call_writes. by intros a s1 r1 s2 [= <- <-].
  - apply call_writes. intros a s1 r1 s2 [= <- <-]. apply updateState_writes.
Qed.

Lemma performAction_writes act params auto s o s' :
  ExecutorAgent.performAction act params auto s = (o, s') -> rtc loop_write s s'.
Proof.
  intros H. apply performAction_cases in H as [(c & r & _ & H & _)|(_ & -> & _)].
  - eapply known_action_writes, H.
  - done.
Qed.

Lemma execute_writes task ans auto s o s' :
  ExecutorAgent.execute task ans auto s = (o, s') -> rtc loop_write s s'.
Proof.
  unfold ExecutorAgent.execute, bind, modify, lift, ret. simpl.
  destruct ans as [parsed|e]; [|intros [= <- <-]; write_step; done].
  destruct (get_opt parsed "action") as [act|];
    [destruct (truthy act)|]; try (intros [= <- <-]; write_step; done).
  destruct (ExecutorAgent.performAction _ _ _ _) as [[ar|e] s1] eqn:Hp;
    intros [= <- <-]; apply performAction_writes in Hp.
  - write_step. etrans; [|exact Hp]. write_step. done.
  - etrans; [|exact Hp]. write_step. done.
Qed.

(** Everything one pass through the loop body does to the session is a
    sequence of the writes of [loop_write]. *)
Lemma body_writes cfg ext i rc s o s' :
  body cfg ext i rc s = (o, s') -> rtc loop_write s s'.
Proof.
  unfold body.
  destruct (getNextTask s) as [[r t]|]; [|by intros [= <- <-]].
  rewrite bind_log.
  destruct (js_string_val (description t)) as [shown|e0] eqn:Hd;
    [|by intros [= <- <-]].
  cbv zeta. unfold bind at 1. unfold modify at 1.
  set (s1 := updateTask (id t) _ s).
  assert (H1 : rtc loop_write s s1) by (subst s1; write_step; done).
  rewrite bind_execute_prompt, Hd.
  unfold bind at 1.
  destruct (ExecutorAgent.execute _ _ _ s1) as [oe s2] eqn:Hexec.
  apply execute_writes in Hexec.
  assert (H2 : rtc loop_write s s2) by (etrans; eassumption).
  clearbody s1. clear H1 Hexec s1.
  destruct oe as [res|e]; cbv beta iota; [|by intros [= <- <-]].
  destruct (exec_success res) eqn:Hsucc.
  - rewrite andb_true_r. destruct (requireReview cfg).
    + rewrite ?bind_assoc, bind_reviewTaskResult_prompt, Hd.
      unfold ReviewerAgent.reviewTaskResult. mstep. mstep.
      destruct (review_answer ext i) as [v|e].
      2: { intros [= <- <-]. write_step. done. }
      cbv zeta. mstep. mstep. mstep. cbn [review_approved].
      destruct (negb _).
      * rewrite ?bind_assoc, bind_log.
        destruct (js_string_val (Some _)) as [fshown|e].
        2: { intros [= <- <-]. do 3 write_step. done. }
        destruct (autoRetry cfg && (rc <? retryLimit cfg)%nat).
        -- mstep. mstep. unfold ret. intros [= <- <-]. do 4 write_step. done.
        -- mstep. unfold bind, modify, ret. intros [= <- <-]. do 4 write_step. done.
      * mstep. unfold bind, modify, ret. intros [= <- <-]. do 4 write_step. done.
    + cbn [andb]. mstep. unfold bind, modify, ret. intros [= <- <-].
      write_step. done.
  - rewrite andb_false_r. mstep. mstep.
    rewrite ?bind_assoc, bind_log.
    destruct (js_string_val (output res)) as [oshown|e].
    2: { intros [= <- <-]. write_step. done. }
    mstep. unfold ret. intros [= <- <-].
    do 2 write_step. done.
Qed.

Lemma step_writes cfg ext ls :
  rtc loop_write (session ls) (session (step cfg ext ls)).
Proof.
  unfold step. destruct (at_ ls); try done.
  destruct (iteration ls <? maxIterations cfg)%nat; [|done].
  destruct (body _ _ _ _ _) as [[[e rc]|x] s'] eqn:Hb; simpl;
    by apply body_writes in Hb.
Qed.

Lemma iter_writes cfg ext ls j :
  rtc loop_write (session ls) (session (Nat.iter j (step cfg ext) ls)).
Proof.
  induction j as [|j IH]; [done|].
  simpl. etrans; [exact IH|apply step_writes].
Qed.

Lemma after_writes cfg g ext k j :
  rtc loop_write (session (after cfg g ext k)) (session (after cfg g ext (k + j))).
Proof. rewrite after_add. apply iter_writes. Qed.

Lemma loop_writes cfg g ext k :
  rtc loop_write (session (start cfg g ext)) (session (after cfg g ext k)).
Proof. apply (after_writes cfg g ext 0 k). Qed.

Ltac plan_step :=
  eapply rtc_r;
  [ | first [ apply plan_history | apply plan_allocate; assumption
            | apply plan_setPlan ] ].

Lemma createPlan_writes g ans s o s' :
  printable (or_else (selectedCarer (state (context s))) (JStr "none")) = true ->
  PlannerAgent.createPlan g ans s = (o, s') ->
  rtc plan_write (addHistory planner "create_plan" (PGoal g) PNull s) s'.
Proof.
  intros Hc. unfold PlannerAgent.createPlan. rewrite bind_createPlan_prompt.
  destruct (printable_prints _ Hc) as [carer Hcarer]. simpl in Hcarer.
  rewrite Hcarer. mstep.
  mstep. destruct ans as [parsed|e]; [|by intros [= <- <-]].
  mstep. destruct (as_array _) as [entries|e]; [|by intros [= <- <-]].
  mstep. destruct (map_indexed _ 0 entries) as [new_tasks|e] eqn:Hmap;
    [|by intros [= <- <-]].
  pose proof (map_indexed_Forall _ _ _ _ _ planned_task_spec Hmap) as HF.
  apply Forall2_ids in HF as [_ Hst].
  unfold allocate. unfold bind at 1. cbv beta iota.
  mstep. mstep. unfold ret. intros [= <- <-]. do 3 plan_step. done.
Qed.

Lemma revisePlan_writes fb ans s o s' :
  PlannerAgent.revisePlan fb ans s = (o, s') -> rtc plan_write s s'.
Proof.
  unfold PlannerAgent.revisePlan. cbv zeta. rewrite bind_describe_tasks.
  destruct (map_outcome _ _) as [shown|e]; [|by intros [= <- <-]].
  mstep. destruct (js_string fb) as [fshown|e]; [|by intros [= <- <-]].
  mstep. destruct ans as [parsed|e]; [|by intros [= <- <-]].
  mstep. destruct (as_array _) as [entries|e]; [|by intros [= <- <-]].
  mstep. destruct (map_indexed _ 0 entries) as [new_tasks|e] eqn:Hmap;
    [|by intros [= <- <-]].
  pose proof (map_indexed_Forall _ _ _ _ _ revised_task_spec Hmap) as HF.
  apply Forall2_ids in HF as [_ Hst].
  unfold allocate. unfold bind at 1. cbv beta iota zeta.
  mstep. unfold ret. intros [= <- <-]. do 2 plan_step. done.
Qed.

(** The planning steps start with the [create_plan] entry and go on
    with the writes of [plan_write]. *)
Lemma planning_writes cfg ext g o s :
  planning cfg ext (new g) = (o, s) ->
  rtc plan_write (addHistory planner "create_plan" (PGoal g) PNull (new g)) s.
Proof.
  unfold planning. cbv beta. unfold bind at 1.
  destruct (PlannerAgent.createPlan _ _ _) as [[plan|e] s1] eqn:Hcp;
    apply createPlan_writes in Hcp; [|done|by intros [= <- <-]|done].
  destruct (requireReview cfg); [|by intros [= <- <-]].
  unfold ReviewerAgent.reviewPlan_prompt. rewrite bind_describe_tasks.
  destruct (map_outcome _ _) as [shown|e]; [|by intros [= <- <-]].
  unfold ReviewerAgent.reviewPlan. mstep.
  destruct (plan_review_answer ext) as [v|e]; [|by intros [= <- <-]].
  mstep. cbn [review_approved feedback].
  destruct (negb _); [|by intros [= <- <-]].
  rewrite bind_log. destruct (js_string_val _) as [fshown|e]; [|by intros [= <- <-]].
  unfold bind at 1.
  destruct (PlannerAgent.revisePlan _ _ _) as [[plan2|e] s2] eqn:Hrp;
    apply revisePlan_writes in Hrp; intros [= <- <-]; by etrans.
Qed.

Lemma start_writes cfg g ext :
  rtc plan_write (addHistory planner "create_plan" (PGoal g) PNull (new g))
    (session (start cfg g ext)).
Proof.
  unfold start. destruct (planning _ _ _) as [[[]|e] s] eqn:Hp;
    by apply planning_writes in Hp.
Qed.

End Writes.

(** ** What holds throughout a run *)

Section RunFacts.
Import ContextManager Orchestrator.

Lemma history_updateTask tid u s :
  history (context (updateTask tid u s)) = history (context s).
Proof.
  unfold updateTask. destruct (List.find _ _) as [r|]; [|done].
  by destruct (heap s !! r).
Qed.

Lemma history_completeTask tid res s :
  history (context (completeTask tid res s)) = history (context s).
Proof.
  unfold completeTask. destruct (findIndex _ _) as [idx|]; [|done].
  destruct (_ !! idx) as [r|]; [|done]. by destruct (heap s !! r).
Qed.

Lemma history_setMemory k v src s :
  history (context (setMemory k v src s)) = history (context s).
Proof. unfold setMemory. by destruct (findIndex _ _). Qed.

Lemma loop_write_history s s' :
  loop_write s s' -> history (context s) `prefix_of` history (context s').
Proof.
  intros [a act i o s0|u s0|k v s0 _|tid st res s0 _|tid d s0|pl s0 _|c s0];
    rewrite ?history_updateTask, ?history_completeTask, ?history_setMemory;
    try done.
  simpl. by apply prefix_app_r.
Qed.

Lemma plan_write_history s s' :
  plan_write s s' -> history (context s) `prefix_of` history (context s').
Proof. intros [act i o s0|ts s0 _|p s0]; try done. simpl. by apply prefix_app_r. Qed.

Lemma rtc_prefix {A} (R : relation Session) (f : Session -> list A) s s' :
  (forall s1 s2, R s1 s2 -> f s1 `prefix_of` f s2) ->
  rtc R s s' -> f s `prefix_of` f s'.
Proof.
  intros HR H. induction H as [|s1 s2 s3 H12 _ IH]; [done|].
  etrans; [by apply HR|exact IH].
Qed.

(** X6. The history is an append-only log. It starts with the
    planner's [create_plan] entry for the goal, whether or not planning
    succeeds; what it holds at one test of the loop condition is still
    there, in the same place, at every later test; and all of it is in
    the [history] of the result. *)
Theorem history_is_append_only (cfg : WorkflowConfig) (g : string) (ext : Ext)
    (k j : nat) :
  let log n := history (context (session (after cfg g ext n))) in
  [create_plan_entry g] `prefix_of` log k /\
  log k `prefix_of` log (k + j) /\
  log k `prefix_of` wf_history (run cfg g ext).
Proof.
  intros log.
  assert (Hgrow : forall a b, log a `prefix_of` log (a + b)).
  { intros a b. unfold log.
    apply (rtc_prefix loop_write (fun s => history (context s)) _ _
             loop_write_history (after_writes cfg g ext a b)). }
  split_and!.
  - etrans; [|apply (Hgrow 0 k)].
    apply (rtc_prefix plan_write (fun s => history (context s)) _ _
             plan_write_history (start_writes cfg g ext)).
  - apply Hgrow.
  - assert (Hrun : wf_history (run cfg g ext) = log (S (maxIterations cfg))).
    { unfold run, log, final. by destruct (at_ _). }
    rewrite Hrun. destruct (decide (k <= S (maxIterations cfg))) as [Hk|Hk].
    + replace (S (maxIterations cfg)) with (k + (S (maxIterations cfg) - k)) by lia.
      apply Hgrow.
    + unfold log. rewrite (after_final cfg g ext k) by lia. done.
Qed.

Lemma rtc_invariant (R : relation Session) (P : Session -> Prop) s s' :
  (forall s1 s2, R s1 s2 -> P s1 -> P s2) -> rtc R s s' -> P s -> P s'.
Proof. intros HR H. induction H as [|s1 s2 s3 H12 _ IH]; eauto. Qed.

(** A property of the session that the first history entry gives and
    every write keeps holds at each test of the loop condition. *)
Lemma run_invariant (P : Session -> Prop) cfg g ext k :
  P (addHistory planner "create_plan" (PGoal g) PNull (new g)) ->
  (forall s1 s2, plan_write s1 s2 -> P s1 -> P s2) ->
  (forall s1 s2, loop_write s1 s2 -> P s1 -> P s2) ->
  P (session (after cfg g ext k)).
Proof.
  intros H0 Hplan Hloop.
  eapply (rtc_invariant loop_write); [exact Hloop|apply loop_writes|].
  eapply (rtc_invariant plan_write); [exact Hplan|apply start_writes|exact H0].
Qed.

Lemma context_updateTask tid u s : context (updateTask tid u s) = context s.
Proof.
  unfold updateTask. destruct (List.find _ _) as [r|]; [|done].
  by destruct (heap s !! r).
Qed.

Lemma completeTask_frame tid res s :
  let s' := completeTask tid res s in
  goal (context s') = goal (context s) /\
  currentPlan (context s') = currentPlan (context s) /\
  memory (context s') = memory (context s) /\
  state (context s') = state (context s) /\
  messages s' = messages s /\
  automation_calls s' = automation_calls s /\
  map id (heap s') = map id (heap s).
Proof.
  unfold completeTask. destruct (findIndex _ _) as [idx|]; [|done].
  destruct (_ !! idx) as [r|]; [|done].
  destruct (heap s !! r) as [t|] eqn:Ht; [|done].
  simpl. split_and!; try done. by erewrite map_id_insert.
Qed.

Lemma updateTask_frame tid u s :
  let s' := updateTask tid u s in
  messages s' = messages s /\
  automation_calls s' = automation_calls s /\
  map id (heap s') = map id (heap s).
Proof.
  unfold updateTask. destruct (List.find _ _) as [r|]; [|done].
  destruct (heap s !! r) as [t|] eqn:Ht; [|done].
  simpl. split_and!; try done. by erewrite map_id_insert.
Qed.

Lemma setMemory_frame k v src s :
  let s' := setMemory k v src s in
  heap s' = heap s /\
  goal (context s') = goal (context s) /\
  currentPlan (context s') = currentPlan (context s) /\
  state (context s') = state (context s) /\
  messages s' = messages s /\
  automation_calls s' = automation_calls s.
Proof. unfold setMemory. by destruct (findIndex _ _). Qed.

Lemma loop_write_memory s s' :
  loop_write s s' ->
  NoDup (map key (memory (context s))) /\ Forall by_executor (memory (context s)) ->
  NoDup (map key (memory (context s'))) /\ Forall by_executor (memory (context s')).
Proof.
  intros [a act i o s0|u s0|k v s0 Hk|tid st res s0 _|tid d s0|pl s0 _|c s0];
    rewrite ?context_updateTask; try done.
  - intros [Hnd Hall]. split; [by apply setMemory_keys|].
    rewrite setMemory_memory. unfold upsert.
    destruct (findIndex _ _); [apply Forall_insert|apply Forall_app_2]; try done.
    by apply Forall_singleton.
  - by destruct (completeTask_frame tid
                   {| success := JBool true; data := d; reviewNotes := None |} s0)
      as (_ & _ & -> & _).
Qed.

(** X7. Throughout a run the memory holds at most one item per key, and
    only items that the executor wrote under [carers] or [formData]; so
    the object that [compileOutput] builds from the items has one
    property for each of them. *)
Theorem memory_keys_in_a_run (cfg : WorkflowConfig) (g : string) (ext : Ext)
    (k : nat) :
  let s := session (after cfg g ext k) in
  NoDup (map key (memory (context s))) /\
  Forall by_executor (memory (context s)) /\
  NoDup (map fst (out_memory (compileOutput s))).
Proof.
  intros s.
  assert (H : NoDup (map key (memory (context s))) /\
              Forall by_executor (memory (context s))).
  { apply (run_invariant
             (fun s => NoDup (map key (memory (context s))) /\
                       Forall by_executor (memory (context s)))).
    - simpl. split; [apply NoDup_nil_2|done].
    - by intros s1 s2 [act i o s0|ts s0 _|p s0].
    - intros s1 s2 Hw. by apply loop_write_memory. }
  destruct H as [Hnd Hall]. split_and!; try done.
  unfold compileOutput. simpl. by rewrite map_map.
Qed.

Lemma loop_write_state s s' :
  loop_write s s' ->
  formData (state (context s')) = formData (state (context s)) /\
  lastError (state (context s')) = lastError (state (context s)).
Proof.
  intros [a act i o s0|u s0|k v s0 Hk|tid st res s0 _|tid d s0|pl s0 _|c s0];
    rewrite ?context_updateTask; try done.
  - by destruct (setMemory_frame k v executor s0) as (_ & _ & _ & -> & _).
  - by destruct (completeTask_frame tid
                   {| success := JBool true; data := d; reviewNotes := None |} s0)
      as (_ & _ & _ & -> & _).
Qed.

(** X8. Nothing in a run writes the [formData] or the [lastError] of the
    state: both stay undefined, and so does the [formData] that
    [gatherContext] hands to the executor, also after a [FILL_FORM]
    (whose data goes to the memory). *)
Theorem state_formData_is_never_set (cfg : WorkflowConfig) (g : string) (ext : Ext)
    (k : nat) (task : Task) :
  let s := session (after cfg g ext k) in
  formData (state (context s)) = None /\
  lastError (state (context s)) = None /\
  ResearcherAgent.ctx_formData (ResearcherAgent.gatherContext task s) = None.
Proof.
  intros s.
  assert (H : formData (state (context s)) = None /\
              lastError (state (context s)) = None).
  { apply (run_invariant
             (fun s => formData (state (context s)) = None /\
                       lastError (state (context s)) = None)).
    - done.
    - by intros s1 s2 [act i o s0|ts s0 _|p s0].
    - intros s1 s2 Hw [H1 H2]. apply loop_write_state in Hw as [-> ->]. done. }
  destruct H. done.
Qed.

Lemma loop_write_plan s s' :
  loop_write s s' ->
  currentPlan (context s') = currentPlan (context s) /\
  map id (heap s') = map id (heap s) /\
  goal (context s') = goal (context s).
Proof.
  intros [a act i o s0|u s0|k v s0 Hk|tid st res s0 _|tid d s0|pl s0 _|c s0];
    try done.
  - by destruct (setMemory_frame k v executor s0) as (-> & -> & -> & _).
  - rewrite context_updateTask. by destruct (updateTask_frame tid
      {| upd_status := Some st; upd_result := res |} s0) as (_ & _ & ->).
  - by destruct (completeTask_frame tid
                   {| success := JBool true; data := d; reviewNotes := None |} s0)
      as (-> & -> & _ & _ & _ & _ & ->).
Qed.

Lemma rtc_loop_write_plan s s' :
  rtc loop_write s s' ->
  currentPlan (context s') = currentPlan (context s) /\
  map id (heap s') = map id (heap s) /\
  goal (context s') = goal (context s).
Proof.
  intros H. induction H as [|s1 s2 s3 H12 _ IH]; [done|].
  apply loop_write_plan in H12 as (H1 & H2 & H3).
  destruct IH as (-> & -> & ->). done.
Qed.

(** X9. The loop never plans again: at every test of its condition the
    plan is the one the loop was entered with, the heap holds the same
    tasks under the same ids (none is created, deleted or renamed), and
    the goal is the one given. The result reports that goal and the
    size of that plan. *)
Theorem loop_never_replans (cfg : WorkflowConfig) (g : string) (ext : Ext) (k : nat) :
  let s0 := session (start cfg g ext) in
  let s := session (after cfg g ext k) in
  currentPlan (context s) = currentPlan (context s0) /\
  map id (heap s) = map id (heap s0) /\
  goal (context s) = g /\
  wf_goal (run cfg g ext) = g /\
  wf_totalTasks (run cfg g ext) = total_tasks (context s0).
Proof.
  intros s0 s.
  assert (Hg0 : goal (context s0) = g).
  { apply (rtc_invariant plan_write (fun s => goal (context s) = g) _ _)
      with (3 := eq_refl : goal (context (addHistory planner "create_plan"
                                            (PGoal g) PNull (new g))) = g).
    - by intros s1 s2 [act i o s'|ts s' _|p s'].
    - apply start_writes. }
  assert (Hloop : forall n,
    currentPlan (context (session (after cfg g ext n))) = currentPlan (context s0) /\
    map id (heap (session (after cfg g ext n))) = map id (heap s0) /\
    goal (context (session (after cfg g ext n))) = g).
  { intros n. destruct (rtc_loop_write_plan _ _ (loop_writes cfg g ext n))
      as (H1 & H2 & H3). rewrite H3. done. }
  destruct (Hloop k) as (H1 & H2 & H3).
  destruct (Hloop (S (maxIterations cfg))) as (F1 & _ & F3).
  split_and!; try done.
  - unfold run. fold (final cfg g ext) in F3. by destruct (at_ _).
  - unfold run. cbv zeta.
    destruct (at_ (final cfg g ext)); cbn [wf_totalTasks];
      unfold total_tasks, final; by rewrite F1.
Qed.

Lemma loop_write_messages s s' :
  loop_write s s' -> Forall failure_report (messages s) ->
  Forall failure_report (messages s').
Proof.
  intros [a act i o s0|u s0|k v s0 Hk|tid st res s0 _|tid d s0|pl s0 Hpl|c s0];
    try done.
  - by destruct (setMemory_frame k v executor s0) as (_ & _ & _ & _ & -> & _).
  - by destruct (updateTask_frame tid
      {| upd_status := Some st; upd_result := res |} s0) as (-> & _).
  - by destruct (completeTask_frame tid
                   {| success := JBool true; data := d; reviewNotes := None |} s0)
      as (_ & _ & _ & _ & -> & _).
  - intros H. simpl. apply Forall_app_2; [done|]. by apply Forall_singleton.
Qed.

End RunFacts.

(** ** The parts of one pass *)

Section Factor.
Import ContextManager Orchestrator.

Variable R : relation Session.
Variable cfg : WorkflowConfig.
Hypothesis R_refl : forall s, R s s.
Hypothesis R_trans : forall s1 s2 s3, R s1 s2 -> R s2 s3 -> R s1 s3.
Hypothesis R_updateTask : forall tid u s, R s (updateTask tid u s).
Hypothesis R_completeTask : forall tid res s, R s (completeTask tid res s).
Hypothesis R_review :
  requireReview cfg = true -> forall act i o s, R s (addHistory reviewer act i o s).

(** One pass either stops before any write, at the log of the task's
    description, or is: writes to the task, one call of [execute],
    writes to the task and by the reviewer, and a message when the
    execution failed. [R] stands for what the writes other than
    [execute] and [sendMessage] keep. *)
Lemma body_factor ext i rc s o s' :
  body cfg ext i rc s = (o, s') ->
  match getNextTask s with
  | None => o = Ok (NoTask, rc) /\ s' = s
  | Some (r, t) =>
      (s' = s /\ exists e, o = Throw e /\ js_string_val (description t) = Throw e) \/
      exists s1 oe s2 s3,
        R s s1 /\
        ExecutorAgent.execute t (executor_answer ext i) (automation ext i) s1 = (oe, s2) /\
        R s2 s3 /\
        match o with
        | Ok (NoTask, _) => False
        | Ok (Failed _ _, _) =>
            exists res, oe = Ok res /\ exec_success res = false /\
              s' = sendMessage executor planner "error" "Task failed" res s3
        | Ok (Retried _, _) | Ok (Completed _ _, _) =>
            (exists res, oe = Ok res /\ exec_success res = true) /\ s' = s3
        | Throw _ => s' = s3
        end
  end.
Proof.
  unfold body.
  destruct (getNextTask s) as [[r t]|]; [|by intros [= <- <-]].
  rewrite bind_log.
  destruct (js_string_val (description t)) as [shown|e0] eqn:Hd.
  2: { intros [= <- <-]. left. eauto. }
  cbv zeta. unfold bind at 1. unfold modify at 1.
  set (s1 := updateTask (id t) _ s).
  rewrite bind_execute_prompt, Hd.
  unfold bind at 1.
  destruct (ExecutorAgent.execute _ _ _ s1) as [oe s2] eqn:Hexec.
  intros Hrun. right. exists s1, oe, s2.
  assert (H1 : R s s1) by apply R_updateTask.
  destruct oe as [res|e]; cbv beta iota in Hrun.
  2: { injection Hrun as <- <-. exists s2. split_and!; auto. }
  destruct (exec_success res) eqn:Hsucc.
  - rewrite andb_true_r in Hrun. destruct (requireReview cfg) eqn:Hrr.
    + specialize (R_review eq_refl).
      revert Hrun. rewrite ?bind_assoc, bind_reviewTaskResult_prompt, Hd.
      unfold ReviewerAgent.reviewTaskResult. mstep. mstep.
      destruct (review_answer ext i) as [v|e].
      2: { intros [= <- <-]. eexists. split_and!; [done|done| |done]. auto. }
      cbv zeta. mstep. mstep. mstep. cbn [review_approved].
      destruct (negb _).
      * rewrite ?bind_assoc, bind_log.
        destruct (js_string_val (Some _)) as [fshown|e].
        2: { intros [= <- <-]. eexists. split_and!; [done|done| |done]. eauto 10. }
        destruct (autoRetry cfg && (rc <? retryLimit cfg)%nat).
        -- mstep. mstep. unfold ret. intros [= <- <-].
           eexists. split_and!; [done|done| |eauto|done]. eauto 10.
        -- mstep. unfold bind, modify, ret. intros [= <- <-].
           eexists. split_and!; [done|done| |eauto|done]. eauto 10.
      * mstep. unfold bind, modify, ret. intros [= <- <-].
        eexists. split_and!; [done|done| |eauto|done]. eauto 10.
    + revert Hrun. cbn [andb]. mstep. unfold bind, modify, ret. intros [= <- <-].
      eexists. split_and!; [done|done| |eauto|done]. eauto.
  - revert Hrun. rewrite andb_false_r. mstep. mstep.
    rewrite ?bind_assoc, bind_log.
    destruct (js_string_val (output res)) as [oshown|e].
    2: { intros [= <- <-]. eexists. split_and!; [done|done| |done]. eauto. }
    mstep. unfold ret.
    intros [= <- <-]. eexists. split_and!; [done|done| |]; [|eauto]. eauto.
Qed.

End Factor.

(** ** Messages, automation calls and reviews *)

Section Traffic.
Import ContextManager Orchestrator.

Lemma reviews_addHistory a act i o s :
  reviews (addHistory a act i o s) =
  reviews s ++ (if by_reviewer {| agent := a; action := act; input := i;
                                  hist_output := o |}
                then [{| agent := a; action := act; input := i; hist_output := o |}]
                else []).
Proof.
  unfold reviews, addHistory. simpl. rewrite List.filter_app. simpl.
  by destruct (by_reviewer _).
Qed.

Lemma reviews_same_history s s' :
  history (context s') = history (context s) -> reviews s' = reviews s.
Proof. unfold reviews. by intros ->. Qed.

Lemma updateState_silent u s :
  same_traffic s (updateState u s) /\ reviews (updateState u s) = reviews s.
Proof.
  unfold updateState. split; [done|].
  rewrite reviews_addHistory. simpl. by rewrite app_nil_r.
Qed.

Lemma setMemory_silent k v src s :
  same_traffic s (setMemory k v src s) /\ reviews (setMemory k v src s) = reviews s.
Proof.
  split; [unfold same_traffic, setMemory; by destruct (findIndex _ _)|].
  apply reviews_same_history, history_setMemory.
Qed.

Lemma call_traffic {A} c (o : outcome A) k s r s' :
  (forall a s1 r1 s2, k a s1 = (r1, s2) ->
     same_traffic s1 s2 /\ reviews s2 = reviews s1) ->
  ExecutorAgent.call c o k s = (r, s') ->
  messages s' = messages s /\
  automation_calls s' = automation_calls s ++ [c] /\
  reviews s' = reviews s.
Proof.
  intros Hk. unfold ExecutorAgent.call. destruct o as [a|e].
  - intros H. apply Hk in H as [[-> ->] ->]. done.
  - by intros [= <- <-].
Qed.

Ltac after_call lem :=
  intros H; eapply call_traffic in H as (? & ? & ?);
  [eexists [_]; split_and!; [simpl; lia|eassumption..]
  |intros ? ? ? ? [= <- <-]; lem].

(** [performAction] calls at most one automation function, sends no
    message and writes nothing in the reviewer's name. *)
Lemma known_action_traffic c params auto s r s' :
  ExecutorAgent.known_action c params auto s = (r, s') ->
  exists l, length l <= 1 /\
    messages s' = messages s /\
    automation_calls s' = automation_calls s ++ l /\
    reviews s' = reviews s.
Proof.
  assert (Hnone : forall r0, (r0, s) = (r, s') ->
    exists l, length l <= 1 /\ messages s' = messages s /\
      automation_calls s' = automation_calls s ++ l /\ reviews s' = reviews s).
  { intros r0 [= <- <-]. exists []. rewrite app_nil_r. split_and!; [simpl; lia|done..]. }
  unfold ExecutorAgent.known_action.
  destruct c.
  - after_call ltac:(apply updateState_silent).
  - after_call ltac:(apply setMemory_silent).
  - destruct (get params "carerCode") as [code|]; [destruct (truthy code)|];
      [|apply Hnone..].
    after_call ltac:(destruct a; [apply updateState_silent|done]).
  - after_call ltac:(destruct a; [apply updateState_silent|done]).
  - destruct (get params "formData") as [fd|]; [destruct (truthy fd)|];
      [|apply Hnone..].
    destruct (setMemory_silent "formData" fd executor s) as [[Hm Hc] Hr].
    rewrite <- Hm, <- Hc, <- Hr.
    after_call ltac:(done).
  - after_call ltac:(done).
  - after_call ltac:(apply updateState_silent).
Qed.

Lemma performAction_traffic act params auto s o s' :
  ExecutorAgent.performAction act params auto s = (o, s') ->
  exists l, length l <= 1 /\
    messages s' = messages s /\
    automation_calls s' = automation_calls s ++ l /\
    reviews s' = reviews s.
Proof.
  intros H. apply performAction_cases in H as [(c & r & _ & H & _)|(_ & -> & _)].
  - eapply known_action_traffic, H.
  - exists []. rewrite app_nil_r. split_and!; [simpl; lia|done..].
Qed.

Lemma execute_traffic task ans auto s o s' :
  ExecutorAgent.execute task ans auto s = (o, s') ->
  exists l, length l <= 1 /\
    messages s' = messages s /\
    automation_calls s' = automation_calls s ++ l /\
    reviews s' = reviews s.
Proof.
  unfold ExecutorAgent.execute, bind, modify, lift, ret. simpl.
  set (s0 := addHistory executor "execute_start" (PTaskId (id task)) PNull s).
  assert (Hnone : forall (o0 : outcome ExecutionResult), (o0, s0) = (o, s') ->
    exists l, length l <= 1 /\ messages s' = messages s /\
      automation_calls s' = automation_calls s ++ l /\ reviews s' = reviews s).
  { intros o0 [= <- <-]. exists []. rewrite app_nil_r. subst s0.
    rewrite reviews_addHistory. simpl. rewrite app_nil_r.
    split_and!; [simpl; lia|done..]. }
  destruct ans as [parsed|e]; [|apply Hnone].
  destruct (get_opt parsed "action") as [act|];
    [destruct (truthy act)|]; try apply Hnone.
  destruct (ExecutorAgent.performAction _ _ _ _) as [[ar|e] s1] eqn:Hp;
    intros [= <- <-]; apply performAction_traffic in Hp as (l & Hl & Hm & Hc & Hr);
    exists l; rewrite ?reviews_addHistory; simpl; rewrite ?app_nil_r, Hr;
    subst s0; rewrite reviews_addHistory; simpl; rewrite app_nil_r;
    split_and!; done.
Qed.

(** One pass calls at most one automation function, and sends one
    message exactly when it ends with a failed task. *)
Lemma body_traffic cfg ext i rc s o s' :
  body cfg ext i rc s = (o, s') ->
  length (automation_calls s') <= S (length (automation_calls s)) /\
  length (messages s') =
    length (messages s) +
    match o with Ok (e, _) => if is_failure e then 1 else 0 | Throw _ => 0 end.
Proof.
  intros Hb.
  apply (body_factor same_traffic) in Hb.
  2: { by intros ?. }
  2: { intros s1 s2 s3 [? ?] [? ?]. split; congruence. }
  2: { intros tid u s0. by destruct (updateTask_frame tid u s0) as (? & ? & _). }
  2: { intros tid res s0.
       by destruct (completeTask_frame tid res s0) as (_ & _ & _ & _ & ? & ? & _). }
  2: { by intros _ act i0 o0 s0. }
  destruct (getNextTask s) as [[r t]|].
  2: { destruct Hb as [-> ->]. simpl. lia. }
  destruct Hb as [(-> & e & -> & _)|
                  (s1 & oe & s2 & s3 & [Hm1 Hc1] & Hexec & [Hm3 Hc3] & Hend)].
  { simpl. lia. }
  apply execute_traffic in Hexec as (l & Hl & Hm2 & Hc2 & _).
  assert (Hc : length (automation_calls s3) <= S (length (automation_calls s))).
  { rewrite Hc3, Hc2, Hc1, length_app. lia. }
  assert (Hm : messages s3 = messages s) by congruence.
  destruct o as [[[|r'|r' timed_out|r' timed_out] rc']|x]; simpl.
  - done.
  - destruct Hend as [_ ->]. rewrite Hm. lia.
  - destruct Hend as [_ ->]. rewrite Hm. lia.
  - destruct Hend as (res & _ & _ & ->). simpl. rewrite length_app, Hm. simpl. lia.
  - subst s'. rewrite Hm. lia.
Qed.

Lemma iteration_bounded cfg g ext k :
  iteration (after cfg g ext k) <= maxIterations cfg.
Proof.
  induction k as [|k IH].
  - unfold after, start. simpl. destruct (planning _ _ _) as [[[]|e] s]; simpl; lia.
  - rewrite after_S. unfold step. destruct (at_ _); try done.
    destruct (iteration _ <? maxIterations cfg)%nat eqn:Hlt; [|done].
    apply Nat.ltb_lt in Hlt.
    destruct (body _ _ _ _ _) as [[[e rc]|x] s']; simpl; lia.
Qed.

Lemma start_traffic cfg g ext :
  messages (session (start cfg g ext)) = [] /\
  automation_calls (session (start cfg g ext)) = [] /\
  reviews (session (start cfg g ext)) = [].
Proof.
  apply (rtc_invariant plan_write
           (fun s => messages s = [] /\ automation_calls s = [] /\ reviews s = [])
           _ _) with (2 := start_writes cfg g ext); [|done].
  intros s1 s2 [act i o s0|ts s0 _|p s0]; try done.
  intros (? & ? & Hr). split_and!; try done.
  rewrite reviews_addHistory. simpl. by rewrite Hr.
Qed.

(** X10. Messages are failure reports only: every message of a run goes
    from the executor to the planner, has the type [error] and the
    content [Task failed], and carries an execution result with
    [success = false]; and there is one message for each pass that
    ended with a task marked [failed]. *)
Theorem messages_report_failures (cfg : WorkflowConfig) (g : string) (ext : Ext)
    (k : nat) :
  let ls := after cfg g ext k in
  Forall failure_report (getMessages (session ls)) /\
  length (getMessages (session ls)) = length (List.filter is_failure (trace ls)).
Proof.
  intros ls. unfold getMessages. split.
  - apply (rtc_invariant loop_write (fun s => Forall failure_report (messages s))
             _ _ loop_write_messages (loop_writes cfg g ext k)).
    by destruct (start_traffic cfg g ext) as (-> & _).
  - subst ls. induction k as [|k IH].
    + unfold after. simpl. destruct (start_traffic cfg g ext) as (-> & _).
      unfold start. by destruct (planning _ _ _) as [[[]|e] s].
    + rewrite after_S. unfold step. destruct (at_ _); try done.
      destruct (iteration _ <? maxIterations cfg)%nat; [|done].
      destruct (body _ _ _ _ _) as [[[e rc]|x] s'] eqn:Hb;
        apply body_traffic in Hb as [_ Hm]; simpl.
      * rewrite Hm, IH, List.filter_app, length_app. simpl.
        by destruct (is_failure e).
      * rewrite Hm, IH. lia.
Qed.

(** X11. A run calls the automation functions at most [maxIterations]
    times: each pass through the loop makes at most one call, and there
    are at most [maxIterations] passes. *)
Theorem automation_calls_bounded (cfg : WorkflowConfig) (g : string) (ext : Ext)
    (k : nat) :
  let ls := after cfg g ext k in
  length (automation_calls (session ls)) <= iteration ls /\
  iteration ls <= maxIterations cfg.
Proof.
  intros ls. split; [|apply iteration_bounded].
  subst ls. induction k as [|k IH].
  - unfold after. simpl. destruct (start_traffic cfg g ext) as (_ & -> & _).
    simpl. lia.
  - rewrite after_S. unfold step. destruct (at_ _); try done.
    destruct (iteration _ <? maxIterations cfg)%nat; [|done].
    destruct (body _ _ _ _ _) as [[[e rc]|x] s'] eqn:Hb;
      apply body_traffic in Hb as [Hc _]; simpl; lia.
Qed.

End Traffic.

(** ** Completed tasks and the result of a run *)

Section Outcomes.
Import ContextManager Orchestrator.

Lemma fresh_closed s : fresh s -> closed s.
Proof.
  intros Hf. split.
  - intros r Hr. rewrite (fresh_completed _ Hf) in Hr. by apply elem_of_nil in Hr.
  - intros r _ Hst. by apply (status_of_fresh _ _ _ Hf) in Hst.
Qed.

Lemma touches_status r s s' r' :
  touches r s s' -> r' <> r -> status_of s' r' = status_of s r'.
Proof. intros [_ _ Ho _] Hne. unfold status_of. by rewrite Ho. Qed.

Lemma body_closed cfg ext i rc s o s' :
  consistent s -> closed s -> body cfg ext i rc s = (o, s') -> closed s'.
Proof.
  intros Hc [Hdone Htodo] Hb.
  destruct (body_summary _ _ _ _ _ _ _ Hc Hb)
    as [(-> & _)|(r & t & st & Hnext & Hto & _ & Hst & Hq)]; [done|].
  apply getNextTask_Some in Hnext as (Hin & _).
  pose proof (refs_unique _ Hc) as Hnd. unfold queued in Hnd.
  apply NoDup_app in Hnd as (Hnd1 & Hdisj & _).
  destruct Hq as [(Hpe & Hco & Hcase)|(to & rc' & idx & _ & -> & _ & Hidx & Hpe & Hco)].
  - split; intros r'; rewrite ?Hpe, ?Hco; intros Hr'.
    + rewrite (touches_status _ _ _ _ Hto); [auto|].
      intros ->. by apply (Hdisj r).
    + destruct (decide (r' = r)) as [->|Hne].
      * rewrite Hst.
        destruct Hcase as [(e & _ & [-> | ->])|[(_ & -> & _)|(to & _ & ->)]]; done.
      * rewrite (touches_status _ _ _ _ Hto) by done. auto.
  - split; intros r'; rewrite ?Hpe, ?Hco; intros Hr'.
    + apply elem_of_app in Hr' as [Hr'|Hr'].
      * rewrite (touches_status _ _ _ _ Hto); [auto|].
        intros ->. by apply (Hdisj r).
      * apply list_elem_of_singleton in Hr' as ->. done.
    + apply (elem_of_delete_NoDup _ _ _ _ Hnd1 Hidx) in Hr' as [Hr' Hne].
      rewrite (touches_status _ _ _ _ Hto) by done. auto.
Qed.

Lemma after_closed cfg g ext k : closed (session (after cfg g ext k)).
Proof.
  induction k as [|k IH]; [apply fresh_closed, start_fresh|].
  rewrite after_S. unfold step. destruct (at_ _) eqn:Hat; try done.
  destruct (iteration _ <? maxIterations cfg)%nat; [|done].
  pose proof (inv_consistent _ _ (after_invariant cfg g ext k)) as Hc.
  destruct (body _ _ _ _ _) as [[[e rc]|x] s'] eqn:Hb; simpl;
    eapply body_closed; eauto.
Qed.

Lemma success_total cfg g ext :
  let s := session (final cfg g ext) in
  total_tasks (context s) =
    length (pendingTasks (context s)) + length (completedTasks (context s)) /\
  (wf_success (run cfg g ext) = true -> pendingTasks (context s) = []).
Proof.
  intros s.
  pose proof (inv_consistent _ _ (after_invariant cfg g ext (S (maxIterations cfg))))
    as Hc.
  fold (final cfg g ext) in Hc. fold s in Hc. split.
  - pose proof (plan_covers _ Hc) as Hp. unfold total_tasks, queued in *.
    destruct (currentPlan (context s)) as [p|].
    + by rewrite Hp, length_app.
    + apply app_eq_nil in Hp as [-> ->]. done.
  - unfold run. cbv zeta. fold s.
    destruct (at_ (final cfg g ext)); cbn [wf_success]; try done.
    all: intros Hz; by apply Nat.eqb_eq, length_zero_iff_nil in Hz.
Qed.

(** X12. The result of a run says [success] exactly when no error is
    reported and the number of completed tasks is the number of tasks
    of the plan; the first never exceeds the second; and on success
    every task of the plan has the status [completed]. *)
Theorem success_iff_all_completed (cfg : WorkflowConfig) (g : string) (ext : Ext) :
  let res := run cfg g ext in
  let s := session (final cfg g ext) in
  (wf_success res = true <->
   error res = None /\ wf_completedTasks res = wf_totalTasks res) /\
  wf_completedTasks res <= wf_totalTasks res /\
  (wf_success res = true ->
   forall p r, currentPlan (context s) = Some p -> r ∈ tasks p ->
               status_of s r = Some completed).
Proof.
  intros res s.
  pose proof (inv_consistent _ _ (after_invariant cfg g ext (S (maxIterations cfg))))
    as Hc.
  pose proof (after_closed cfg g ext (S (maxIterations cfg))) as Hcl.
  fold (final cfg g ext) in Hc, Hcl. fold s in Hc, Hcl.
  assert (Hlen : total_tasks (context s) =
                 length (pendingTasks (context s)) + length (completedTasks (context s))).
  { pose proof (plan_covers _ Hc) as Hp. unfold total_tasks, queued in *.
    destruct (currentPlan (context s)) as [p|].
    - by rewrite Hp, length_app.
    - apply app_eq_nil in Hp as [-> ->]. done. }
  assert (Hall : pendingTasks (context s) = [] ->
                 forall p r, currentPlan (context s) = Some p -> r ∈ tasks p ->
                             status_of s r = Some completed).
  { intros Hpe p r Hp Hr. pose proof (plan_covers _ Hc) as Hcov.
    rewrite Hp in Hcov. unfold queued in Hcov. rewrite Hpe in Hcov. simpl in Hcov.
    rewrite Hcov in Hr. by apply (closed_completed _ Hcl). }
  subst res. unfold run. cbv zeta. fold s.
  destruct (at_ (final cfg g ext)) as [| |x];
    cbn [wf_success error wf_completedTasks wf_totalTasks]; rewrite Hlen.
  3: { split_and!; [split; [done|by intros [? _]]|lia|done]. }
  all: split_and!;
    [rewrite Nat.eqb_eq; split; [intros Hz; split; [done|lia]|intros [_ Hz]; lia]
    |lia
    |intros Hz; apply Nat.eqb_eq, length_zero_iff_nil in Hz; by apply Hall].
Qed.

Lemma loop_write_results s s' :
  loop_write s s' -> results_recorded s -> results_recorded s'.
Proof.
  unfold results_recorded.
  intros [a act i o s0|u s0|k v s0 Hk|tid st res s0 Hst|tid d s0|pl s0 _|c s0];
    try done.
  - by destruct (setMemory_frame k v executor s0) as (-> & _).
  - unfold updateTask. destruct (List.find _ _) as [r0|]; [|done].
    destruct (heap s0 !! r0) as [t0|] eqn:Ht0; [|done].
    simpl. intros H r t. destruct (decide (r = r0)) as [->|Hne].
    + rewrite list_lookup_insert_eq by (by eapply lookup_lt_Some).
      intros [= <-]. simpl. done.
    + rewrite list_lookup_insert_ne by done. apply H.
  - unfold completeTask. destruct (findIndex _ _) as [idx|]; [|done].
    destruct (_ !! idx) as [r0|]; [|done].
    destruct (heap s0 !! r0) as [t0|] eqn:Ht0; [|done].
    simpl. intros H r t. destruct (decide (r = r0)) as [->|Hne].
    + rewrite list_lookup_insert_eq by (by eapply lookup_lt_Some).
      intros [= <-] _. simpl. by eexists.
    + rewrite list_lookup_insert_ne by done. apply H.
Qed.

Lemma plan_write_results s s' :
  plan_write s s' -> results_recorded s -> results_recorded s'.
Proof.
  unfold results_recorded. intros [act i o s0|ts s0 Hts|p s0]; try done.
  simpl. intros H r t Ht Hst.
  apply lookup_app_Some in Ht as [Ht|[_ Ht]]; [eauto|].
  rewrite Forall_lookup in Hts. apply Hts in Ht. congruence.
Qed.

Lemma omap_describe (h : list Task) (l : list ref) :
  Forall (fun r => exists t, h !! r = Some t /\ successful (result t)) l ->
  length (omap (ResearcherAgent.describe h) l) = length l /\
  Forall (fun e => successful (snd e)) (omap (ResearcherAgent.describe h) l).
Proof.
  induction 1 as [|r l' (t & Ht & Hres) _ [IH1 IH2]]; [by split|].
  assert (Hd : ResearcherAgent.describe h r = Some (description t, result t))
    by (unfold ResearcherAgent.describe; by rewrite Ht).
  cbn -[ResearcherAgent.describe]. rewrite Hd.
  split; [simpl; by rewrite IH1|]. by constructor.
Qed.

Lemma completed_described cfg g ext k :
  let s := session (after cfg g ext k) in
  Forall (fun r => exists t, heap s !! r = Some t /\ successful (result t))
    (completedTasks (context s)).
Proof.
  intros s.
  pose proof (after_closed cfg g ext k) as [Hdone _].
  assert (Hrec : results_recorded s).
  { apply (run_invariant results_recorded cfg g ext k).
    - by intros r t.
    - apply plan_write_results.
    - apply loop_write_results. }
  fold s in Hdone.
  apply Forall_forall. intros r Hr. specialize (Hdone r Hr).
  unfold status_of in Hdone. destruct (heap s !! r) as [t|] eqn:Ht; [|done].
  injection Hdone as Hst. exists t. split; [done|]. by apply (Hrec r).
Qed.

(** X13. What a run reports for its completed tasks: [compileOutput]
    lists one result per task in [completedTasks], and each of them is
    the record [{ success: true, data }] that the loop gave to
    [completeTask], without review notes, also for a task that was
    completed after its reviews had rejected it. *)
Theorem completed_results_are_successes (cfg : WorkflowConfig) (g : string)
    (ext : Ext) (k : nat) :
  let s := session (after cfg g ext k) in
  length (results (compileOutput s)) = length (completedTasks (context s)) /\
  Forall (fun e => successful (snd e)) (results (compileOutput s)).
Proof.
  intros s. unfold compileOutput. cbn [results].
  apply omap_describe, completed_described.
Qed.

(** X25. The previous results that [gatherContext] collects are those
    of the last three completed tasks, or of all of them when fewer
    than three are completed, and each is a successful result. *)
Theorem previous_results_are_the_last_three (cfg : WorkflowConfig) (g : string)
    (ext : Ext) (k : nat) (task : Task) :
  let s := session (after cfg g ext k) in
  let previous := ResearcherAgent.previousResults (ResearcherAgent.gatherContext task s) in
  length previous = Nat.min 3 (length (completedTasks (context s))) /\
  previous = omap (ResearcherAgent.describe (heap s))
               (drop (length (completedTasks (context s)) - 3)
                  (completedTasks (context s))) /\
  Forall (fun e => successful (snd e)) previous.
Proof.
  intros s previous. subst previous.
  unfold ResearcherAgent.gatherContext, ContextManager.getContext.
  cbn [ResearcherAgent.previousResults]. unfold ResearcherAgent.last_three.
  pose proof (completed_described cfg g ext k) as Hall. fold s in Hall.
  apply (Forall_drop _ (length (completedTasks (context s)) - 3)) in Hall.
  apply omap_describe in Hall as [Hlen Hok].
  split_and!; try done. rewrite Hlen, length_drop. lia.
Qed.

Lemma final_of_ended cfg g ext :
  at_ (start cfg g ext) <> Running -> final cfg g ext = start cfg g ext.
Proof. intros H. unfold final, after. by apply iter_step_ended. Qed.

(** X26. When the planning steps throw, nothing is executed: the result
    has [success = false], the message of the error, no output and no
    completed task, no automation function has been called and no
    execution started, even when a plan with tasks had been made before
    the throw. *)
Theorem planning_failure_runs_nothing (cfg : WorkflowConfig) (g : string)
    (ext : Ext) (e : exn) :
  at_ (start cfg g ext) = Aborted e ->
  let res := run cfg g ext in
  let s := session (final cfg g ext) in
  wf_success res = false /\
  error res = Some (error_message e) /\
  wf_output res = None /\
  wf_completedTasks res = 0 /\
  automation_calls s = [] /\
  forall tid, attempts tid s = 0.
Proof.
  intros Hat res s. subst res s. unfold run. cbv zeta.
  rewrite final_of_ended by (by rewrite Hat). rewrite Hat.
  pose proof (start_fresh cfg g ext) as Hf.
  destruct (start_traffic cfg g ext) as (_ & Hcalls & _).
  cbn [wf_success error wf_output wf_completedTasks].
  rewrite (fresh_completed _ Hf). split_and!; try done. apply Hf.
Qed.

Lemma planning_failure_runs_nothing_witness :
  let ext := with_reviews Samples.two_successes (Throw (Error "service unavailable"))
               (Ok JNull) (fun _ => Ok JNull) in
  wf_success (run DEFAULT_CONFIG "goal" ext) = false /\
  error (run DEFAULT_CONFIG "goal" ext) = Some "service unavailable" /\
  wf_output (run DEFAULT_CONFIG "goal" ext) = None /\
  wf_completedTasks (run DEFAULT_CONFIG "goal" ext) = 0 /\
  automation_calls (session (final DEFAULT_CONFIG "goal" ext)) = [] /\
  forall tid, attempts tid (session (final DEFAULT_CONFIG "goal" ext)) = 0.
Proof.
  intros ext.
  apply (planning_failure_runs_nothing DEFAULT_CONFIG "goal" ext
           (Error "service unavailable")).
  reflexivity.
Defined.

(** X27. With [maxIterations = 0] the loop body never runs: the session
    at the end is the one the loop was entered with, no automation
    function is called, no task is executed or completed, and the
    result says [success] only if there was nothing to do. *)
Theorem no_iterations_no_work (cfg : WorkflowConfig) (g : string) (ext : Ext) :
  maxIterations cfg = 0 ->
  let s := session (final cfg g ext) in
  s = session (start cfg g ext) /\
  automation_calls s = [] /\
  (forall tid, attempts tid s = 0) /\
  wf_completedTasks (run cfg g ext) = 0 /\
  (wf_success (run cfg g ext) = true -> wf_totalTasks (run cfg g ext) = 0).
Proof.
  intros Hmax s.
  assert (Hs : s = session (start cfg g ext)).
  { subst s. unfold final. rewrite Hmax. change (after cfg g ext 1)
      with (step cfg ext (start cfg g ext)).
    unfold step. destruct (at_ (start cfg g ext)); try done.
    rewrite Hmax. by destruct (iteration (start cfg g ext)). }
  pose proof (start_fresh cfg g ext) as Hf.
  destruct (start_traffic cfg g ext) as (_ & Hcalls & _).
  destruct (success_total cfg g ext) as [Hlen Hsucc].
  fold s in Hlen, Hsucc.
  assert (Hco : completedTasks (context s) = []) by (rewrite Hs; apply Hf).
  split_and!; try done.
  - by rewrite Hs.
  - intros tid. rewrite Hs. apply Hf.
  - unfold run. cbv zeta. fold s.
    by destruct (at_ (final cfg g ext)); cbn [wf_completedTasks]; rewrite Hco.
  - intros Hok. apply Hsucc in Hok.
    unfold run. cbv zeta. fold s.
    by destruct (at_ (final cfg g ext)); cbn [wf_totalTasks]; rewrite Hlen, Hok, Hco.
Qed.

Lemma no_iterations_no_work_witness :
  let cfg := {| maxIterations := 0; requireReview := true; autoRetry := true;
                retryLimit := 2; timeout := 300000 |} in
  let s := session (final cfg "goal" Samples.two_successes) in
  s = session (start cfg "goal" Samples.two_successes) /\
  automation_calls s = [] /\
  (forall tid, attempts tid s = 0) /\
  wf_completedTasks (run cfg "goal" Samples.two_successes) = 0 /\
  (wf_success (run cfg "goal" Samples.two_successes) = true ->
   wf_totalTasks (run cfg "goal" Samples.two_successes) = 0).
Proof.
  intros cfg. apply (no_iterations_no_work cfg "goal" Samples.two_successes).
  reflexivity.
Defined.

End Outcomes.

(** ** How the loop ends and when it retries *)

Section LoopEnds.
Import ContextManager Orchestrator.

Lemma break_invariant cfg g ext k :
  let ls := after cfg g ext k in
  (at_ ls = Running -> Forall (fun e => breaks e = false) (trace ls)) /\
  (forall e, last (trace ls) = Some e -> breaks e = true -> at_ ls = Exited).
Proof.
  induction k as [|k [IH1 IH2]].
  - unfold after, start. simpl. by destruct (planning _ _ _) as [[[]|e] s].
  - rewrite after_S. cbv zeta. unfold step.
    destruct (at_ (after cfg g ext k)) eqn:Hat.
    2, 3: rewrite Hat; split; [done|exact IH2].
    specialize (IH1 eq_refl).
    destruct (iteration _ <? maxIterations cfg)%nat.
    2: { by simpl. }
    destruct (body _ _ _ _ _) as [[[e rc]|x] s']; simpl.
    + split.
      * destruct (breaks e) eqn:Hb; [done|]. intros _.
        apply Forall_app. split; [done|]. by apply Forall_singleton.
      * intros e'. rewrite last_snoc. intros [= <-] ->. done.
    + split; [done|]. intros e He Hb. by specialize (IH2 e He Hb).
Qed.

(** X14. A [break] ends the run: when a pass finds no task to take, or
    completes or fails a task and then finds the timeout exceeded, the
    loop is left without an error, and nothing is executed or written
    afterwards. *)
Theorem break_ends_the_run (cfg : WorkflowConfig) (g : string) (ext : Ext)
    (k : nat) (e : iteration_end) :
  last (trace (after cfg g ext k)) = Some e ->
  breaks e = true ->
  at_ (after cfg g ext k) = Exited /\
  (forall j, after cfg g ext (k + j) = after cfg g ext k) /\
  error (run cfg g ext) = None.
Proof.
  intros He Hb.
  destruct (break_invariant cfg g ext k) as [_ H]. specialize (H e He Hb).
  assert (Hlater : forall j, after cfg g ext (k + j) = after cfg g ext k).
  { intros j. rewrite after_add. apply iter_step_ended. by rewrite H. }
  split_and!; try done.
  assert (Hfin : at_ (final cfg g ext) = Exited).
  { destruct (decide (k <= S (maxIterations cfg))) as [Hk|Hk].
    - unfold final.
      replace (S (maxIterations cfg)) with (k + (S (maxIterations cfg) - k)) by lia.
      by rewrite Hlater.
    - by rewrite <- (after_final cfg g ext k) by lia. }
  unfold run. by rewrite Hfin.
Qed.

Lemma break_ends_the_run_witness :
  let after_one := after Samples.no_time "goal" Samples.two_successes 1 in
  at_ after_one = Exited /\
  (forall j, after Samples.no_time "goal" Samples.two_successes (1 + j) = after_one) /\
  error (run Samples.no_time "goal" Samples.two_successes) = None.
Proof.
  apply (break_ends_the_run Samples.no_time "goal" Samples.two_successes 1
           (Completed 0 true)); reflexivity.
Defined.

Lemma body_without_retries cfg ext i rc s :
  requireReview cfg = false \/ autoRetry cfg = false \/ retryLimit cfg = 0 ->
  body (without_retries cfg) ext i rc s = body cfg ext i rc s.
Proof.
  destruct cfg as [mi rr ar rl to]. simpl. intros [-> | [-> | ->]]; reflexivity.
Qed.

Lemma after_without_retries cfg g ext k :
  requireReview cfg = false \/ autoRetry cfg = false \/ retryLimit cfg = 0 ->
  let ls := after cfg g ext k in
  let ls0 := after (without_retries cfg) g ext k in
  session ls0 = session ls /\ trace ls0 = trace ls.
Proof.
  intros H.
  assert (Heq : after (without_retries cfg) g ext k = after cfg g ext k);
    [|by rewrite Heq].
  induction k as [|k IH]; [reflexivity|].
  rewrite !after_S, IH. unfold step.
  destruct (at_ _); try done.
  change (maxIterations (without_retries cfg)) with (maxIterations cfg).
  destruct (iteration _ <? maxIterations cfg)%nat; [|done].
  by rewrite body_without_retries.
Qed.

Lemma no_retry_without_budget cfg g ext k :
  retryLimit cfg = 0 -> never_retried (after cfg g ext k).
Proof.
  intros Hrl. unfold never_retried. induction k as [|k IH].
  - unfold after, start. simpl. by destruct (planning _ _ _) as [[[]|e] s].
  - rewrite after_S. unfold step. destruct (at_ _); try done.
    destruct (iteration _ <? maxIterations cfg)%nat; [|done].
    pose proof (inv_consistent _ _ (after_invariant cfg g ext k)) as Hc.
    destruct (body _ _ _ _ _) as [[[e rc]|x] s'] eqn:Hb; simpl; [|done].
    apply Forall_app. split; [done|]. apply Forall_singleton.
    destruct e as [|r0| |]; try done. exfalso.
    destruct (body_summary _ _ _ _ _ _ _ Hc Hb)
      as [(_ & [(_ & Ho)|(? & ? & ? & _ & _ & Ho)])|
          (r & t & st & _ & _ & _ & _ & Hq)]; [done..|].
    destruct Hq as [(_ & _ & [(x & Ho & _)|[(Ho & _ & Hlt)|(to & Ho & _)]])
                   |(to & rc' & idx & Ho & _)]; try done.
    lia.
Qed.

(** X15. Retrying needs all three of [requireReview], [autoRetry] and a
    positive [retryLimit]: when one of them is missing, no pass ends in
    a retry and no task is executed more than once. *)
Theorem single_attempt_without_retry (cfg : WorkflowConfig) (g : string) (ext : Ext)
    (k : nat) (tid : string) :
  requireReview cfg = false \/ autoRetry cfg = false \/ retryLimit cfg = 0 ->
  attempts tid (session (after cfg g ext k)) <= 1 /\
  never_retried (after cfg g ext k).
Proof.
  intros H. destruct (after_without_retries cfg g ext k H) as [Hs Ht].
  split.
  - rewrite <- Hs.
    apply (inv_attempts _ _ (after_invariant (without_retries cfg) g ext k)).
  - unfold never_retried. rewrite <- Ht.
    by apply (no_retry_without_budget (without_retries cfg)).
Qed.

Lemma single_attempt_without_retry_witness :
  attempts "task-0"
    (session (after Examples.without_review "goal"
                (Examples.always_rejecting ["log in"]) 3)) <= 1 /\
  never_retried (after Examples.without_review "goal"
                   (Examples.always_rejecting ["log in"]) 3).
Proof.
  apply (single_attempt_without_retry Examples.without_review "goal"
           (Examples.always_rejecting ["log in"]) 3 "task-0").
  left. reflexivity.
Defined.

Lemma body_with_reviews cfg ext pr rv tr i rc s :
  requireReview cfg = false ->
  body cfg (with_reviews ext pr rv tr) i rc s = body cfg ext i rc s.
Proof. destruct cfg as [mi rr ar rl to]. simpl. intros ->. reflexivity. Qed.

Lemma start_with_reviews cfg g ext pr rv tr :
  requireReview cfg = false ->
  start cfg g (with_reviews ext pr rv tr) = start cfg g ext.
Proof. destruct cfg as [mi rr ar rl to]. simpl. intros ->. reflexivity. Qed.

Lemma body_unreviewed cfg ext i rc s o s' :
  requireReview cfg = false ->
  body cfg ext i rc s = (o, s') -> reviews s' = reviews s.
Proof.
  intros Hrr Hb.
  apply (body_factor (fun s s' => reviews s' = reviews s)) in Hb.
  2: { by intros ?. }
  2: { intros s1 s2 s3 ? ?. congruence. }
  2: { intros tid u s0. apply reviews_same_history, history_updateTask. }
  2: { intros tid res s0. apply reviews_same_history, history_completeTask. }
  2: { congruence. }
  destruct (getNextTask s) as [[r t]|]; [|by destruct Hb as [_ ->]].
  destruct Hb as [(-> & _)|(s1 & oe & s2 & s3 & H1 & Hexec & H3 & Hend)]; [done|].
  apply execute_traffic in Hexec as (_ & _ & _ & _ & H2).
  assert (H : reviews s3 = reviews s) by congruence.
  destruct o as [[[|r'|r' timed_out|r' timed_out] rc']|x].
  - done.
  - by destruct Hend as [_ ->].
  - by destruct Hend as [_ ->].
  - by destruct Hend as (res & _ & _ & ->).
  - by subst s'.
Qed.

(** X16. With [requireReview] off the reviewer plays no part in a run:
    its answers, and the answer to a request for a revised plan, are
    never read (the run is the same whatever they are), and the history
    has no entry written by the reviewer. *)
Theorem unreviewed_run_ignores_reviewer (cfg : WorkflowConfig) (g : string)
    (ext : Ext) (plan_review revision : outcome json)
    (task_review : nat -> outcome json) (k : nat) :
  requireReview cfg = false ->
  after cfg g (with_reviews ext plan_review revision task_review) k = after cfg g ext k /\
  run cfg g (with_reviews ext plan_review revision task_review) = run cfg g ext /\
  reviews (session (after cfg g ext k)) = [].
Proof.
  intros Hrr.
  assert (Heq : forall n,
    after cfg g (with_reviews ext plan_review revision task_review) n =
    after cfg g ext n).
  { induction n as [|n IH]; [by apply start_with_reviews|].
    rewrite !after_S, IH. unfold step. destruct (at_ _); try done.
    destruct (iteration _ <? maxIterations cfg)%nat; [|done].
    by rewrite body_with_reviews. }
  split_and!; [apply Heq| |].
  - unfold run, final. by rewrite Heq.
  - induction k as [|k IH]; [apply start_traffic|].
    rewrite after_S. unfold step. destruct (at_ _); try done.
    destruct (iteration _ <? maxIterations cfg)%nat; [|done].
    destruct (body _ _ _ _ _) as [[[e rc]|x] s'] eqn:Hb; simpl;
      apply body_unreviewed in Hb; congruence.
Qed.

Lemma unreviewed_run_ignores_reviewer_witness :
  let ext := Examples.always_rejecting ["log in"] in
  let ext' := with_reviews ext (Throw Thrown) (Throw Thrown) (fun _ => Throw Thrown) in
  after Examples.without_review "goal" ext' 2 = after Examples.without_review "goal" ext 2 /\
  run Examples.without_review "goal" ext' = run Examples.without_review "goal" ext /\
  reviews (session (after Examples.without_review "goal" ext 2)) = [].
Proof.
  intros ext ext'.
  apply (unreviewed_run_ignores_reviewer Examples.without_review "goal" ext
           (Throw Thrown) (Throw Thrown) (fun _ => Throw Thrown) 2).
  reflexivity.
Defined.

End LoopEnds.

(** ** A run in which every task succeeds *)

Section HappyPath.
Import ContextManager Orchestrator.

Variables (cfg : WorkflowConfig) (g : string) (ext : Ext).
Hypothesis Hexec : forall i, execution_succeeds ext i.
Hypothesis Hreview : requireReview cfg = false \/ forall i, review_approves ext i.

(** The body on a task whose execution succeeds and is not rejected. *)
Lemma body_accepted i rc s r t :
  consistent s -> getNextTask s = Some (r, t) -> prints (description t) ->
  exists rc' s',
    body cfg ext i rc s = (Ok (Completed r (elapsed ext i >? timeout cfg)%Z, rc'), s') /\
    touches r s s' /\
    (exists idx, pendingTasks (context s) !! idx = Some r /\
       pendingTasks (context s') = delete idx (pendingTasks (context s))) /\
    completedTasks (context s') = completedTasks (context s) ++ [r] /\
    status_of s' r = Some completed.
Proof.
  intros Hc Hnext [shown Hd].
  destruct (body cfg ext i rc s) as [o s'] eqn:Hb.
  pose proof (body_spec _ _ _ _ _ _ _ Hc Hb) as Hs. rewrite Hnext, Hd in Hs.
  destruct Hs as (Hto & Hat & Hs). cbv zeta in Hs.
  destruct (Hexec i t (updateTask (id t)
              {| upd_status := Some in_progress; upd_result := None |} s))
    as (res & s1 & Hex & Hsucc).
  rewrite Hex in Hs. cbn [fst] in Hs.
  destruct o as [[[|r'|r' timed_out|r' timed_out] rc']|x].
  - done.
  - exfalso.
    destruct Hs as (_ & _ & _ & _ & _ & Hrr & _ & _ & res' & v & _ & _ & Hv & Hverd & _).
    destruct Hreview as [Hoff|Happ]; [congruence|].
    destruct (Happ i) as (v' & Hv' & Hverd'). congruence.
  - destruct Hs as (-> & -> & Hpe & Hco & Hst & _). eauto 10.
  - exfalso. destruct Hs as (_ & _ & _ & _ & _ & _ & res' & Heq & Habs).
    injection Heq as <-. congruence.
  - exfalso.
    destruct Hs as (_ & _ & [(_ & [Heq|(res' & _ & _ & Hrr & Hv)])|
                             (_ & res' & v & _ & _ & Hrr & Hv & Hverd & _)]);
      [discriminate| |].
    + destruct Hreview as [Hoff|Happ]; [congruence|].
      destruct (Happ i) as (v' & Hv' & _). congruence.
    + destruct Hreview as [Hoff|Happ]; [congruence|].
      destruct (Happ i) as (v' & Hv' & Hverd'). congruence.
Qed.

Lemma touches_described r s s' r' :
  touches r s s' -> described s r' -> described s' r'.
Proof.
  intros [_ Hds _ _] (t & Ht & Hpr).
  assert (Hl : map description (heap s') !! r' = Some (description t))
    by (by rewrite Hds, list_lookup_fmap, Ht).
  rewrite list_lookup_fmap in Hl.
  destruct (heap s' !! r') as [t'|] eqn:Ht'; [|done].
  injection Hl as Hl. exists t'. split; [done|]. by rewrite Hl.
Qed.

Lemma getNextTask_head s r rest :
  pendingTasks (context s) = r :: rest -> status_of s r = Some pending ->
  exists t, getNextTask s = Some (r, t).
Proof.
  intros Hpe Hst. unfold status_of in Hst.
  destruct (heap s !! r) as [t|] eqn:Ht; [|done]. injection Hst as Hst.
  exists t. unfold getNextTask. rewrite Hpe. simpl.
  unfold is_ready. rewrite Ht, Hst. simpl. by rewrite Ht.
Qed.

Variable todo : list ref.
Hypothesis Htime :
  forall i, 0 < i < length todo -> (elapsed ext i <= timeout cfg)%Z.
Hypothesis Hroom : length todo <= maxIterations cfg.

Lemma advancing_step j :
  j < length todo ->
  at_ (after cfg g ext j) = Running ->
  advancing todo j (after cfg g ext j) ->
  advancing todo (S j) (after cfg g ext (S j)) /\
  (S j < length todo -> at_ (after cfg g ext (S j)) = Running).
Proof.
  intros Hj Hat [_ Hc Hpe Hco Hst Hdescr].
  destruct (after_running cfg g ext j Hat) as [Hit _].
  apply lookup_lt_is_Some in Hj as Hr. destruct Hr as [r Hr].
  rewrite (drop_S _ _ _ Hr) in Hpe.
  destruct (getNextTask_head _ _ _ Hpe) as [t Hnext].
  { apply Hst. rewrite Hpe. apply list_elem_of_here. }
  assert (Hpr : prints (description t)).
  { destruct (Hdescr r) as (t' & Ht' & Hpr'); [rewrite Hpe; apply list_elem_of_here|].
    apply getNextTask_Some in Hnext as (_ & Ht & _). congruence. }
  rewrite after_S. unfold step. rewrite Hat, Hit.
  assert (Hlt : (j <? maxIterations cfg)%nat = true) by (apply Nat.ltb_lt; lia).
  rewrite Hlt.
  destruct (body_accepted (S j) (retryCount (after cfg g ext j)) _ r t Hc Hnext Hpr)
    as (rc' & s' & Hb & Hto & (idx & Hidx & Hpe') & Hco' & Hst').
  rewrite Hb. cbn [breaks session at_].
  pose proof (body_consistent _ _ _ _ _ _ _ Hc Hb) as Hc'.
  pose proof (refs_unique _ Hc) as Hnd. unfold queued in Hnd.
  apply NoDup_app in Hnd as (Hnd & _ & _).
  assert (idx = 0) as ->.
  { eapply NoDup_lookup; [exact Hnd|exact Hidx|]. by rewrite Hpe. }
  rewrite Hpe in Hpe'. simpl in Hpe'.
  split.
  - split; cbn [session at_]; try done.
    + by destruct (elapsed ext (S j) >? timeout cfg)%Z.
    + rewrite Hco', Hco. symmetry. by apply take_S_r.
    + intros r' Hr'. rewrite Hpe' in Hr'.
      rewrite Hpe in Hnd. apply NoDup_cons in Hnd as [Hnotin _].
      rewrite (touches_status _ _ _ _ Hto) by (by intros ->).
      apply Hst. rewrite Hpe. by apply list_elem_of_further.
    + intros r' Hr'. rewrite Hpe' in Hr'.
      apply (touches_described _ _ _ _ Hto), Hdescr.
      rewrite Hpe. by apply list_elem_of_further.
  - intros Hmore.
    assert (Hle : (elapsed ext (S j) <= timeout cfg)%Z) by (apply Htime; lia).
    destruct (elapsed ext (S j) >? timeout cfg)%Z eqn:Hgt; [|done].
    apply Z.gtb_lt in Hgt. lia.
Qed.

Hypothesis Hstart : at_ (start cfg g ext) = Running.
Hypothesis Htodo : pendingTasks (context (session (start cfg g ext))) = todo.
Hypothesis Hdescribed : Forall (described (session (start cfg g ext))) todo.

Lemma advancing_after j :
  j <= length todo ->
  advancing todo j (after cfg g ext j) /\
  (j < length todo -> at_ (after cfg g ext j) = Running).
Proof.
  induction j as [|j IH]; intros Hj.
  - split; [|done]. pose proof (start_fresh cfg g ext) as Hf.
    split.
    + intros x. unfold after. simpl. by rewrite Hstart.
    + apply Hf.
    + by rewrite drop_0.
    + rewrite take_0. apply Hf.
    + intros r Hr. unfold after in *. simpl in *.
      assert (Hlt : r < length (heap (session (start cfg g ext)))).
      { apply (refs_valid _ (fresh_consistent _ Hf)). unfold queued.
        apply elem_of_app. by left. }
      apply lookup_lt_is_Some in Hlt as [t Ht].
      unfold status_of. rewrite Ht. simpl. f_equal.
      pose proof (fresh_status _ Hf) as Hall.
      rewrite Forall_lookup in Hall. eauto.
    + intros r Hr. unfold after in *. simpl in *.
      rewrite Forall_forall in Hdescribed. apply Hdescribed. by rewrite <- Htodo.
  - destruct IH as [Hadv Hrun]; [lia|].
    apply advancing_step; [lia|apply Hrun; lia|done].
Qed.

Lemma advancing_final :
  pendingTasks (context (session (final cfg g ext))) = [] /\
  completedTasks (context (session (final cfg g ext))) = todo /\
  consistent (session (final cfg g ext)) /\
  forall x, at_ (final cfg g ext) <> Aborted x.
Proof.
  destruct (advancing_after (length todo)) as [[Halive Hc Hpe Hco _ _] _]; [done|].
  rewrite drop_all in Hpe. rewrite firstn_all in Hco.
  unfold final.
  replace (S (maxIterations cfg))
    with (length todo + (S (maxIterations cfg) - length todo)) by lia.
  rewrite after_add.
  destruct (iter_idle cfg ext (after cfg g ext (length todo))
              (S (maxIterations cfg) - length todo) Hpe Halive) as [-> Hal].
  done.
Qed.

End HappyPath.

(** X17. When the loop is entered with [n] pending tasks, whose
    descriptions can be converted to strings, and room for [n]
    iterations, every execution succeeds, no review rejects (or reviews
    are off) and the timeout is not exceeded before the last task, the
    run completes all the tasks in the order in which they were pending
    and reports success with [completedTasks] and [totalTasks] both
    [n]. *)
Theorem all_tasks_succeed (cfg : WorkflowConfig) (g : string) (ext : Ext) :
  let todo := pendingTasks (context (Orchestrator.session (Orchestrator.start cfg g ext))) in
  let res := Orchestrator.run cfg g ext in
  Orchestrator.at_ (Orchestrator.start cfg g ext) = Orchestrator.Running ->
  Forall (described (Orchestrator.session (Orchestrator.start cfg g ext))) todo ->
  length todo <= maxIterations cfg ->
  (forall i, execution_succeeds ext i) ->
  (requireReview cfg = false \/ forall i, review_approves ext i) ->
  (forall i, 0 < i < length todo -> (elapsed ext i <= timeout cfg)%Z) ->
  wf_success res = true /\
  error res = None /\
  wf_completedTasks res = length todo /\
  wf_totalTasks res = length todo /\
  completedTasks (context (Orchestrator.session (Orchestrator.final cfg g ext))) = todo.
Proof.
  intros todo res Hstart Hdescr Hroom Hexec Hreview Htime.
  destruct (advancing_final cfg g ext Hexec Hreview todo Htime Hroom Hstart eq_refl
              Hdescr)
    as (Hpe & Hco & Hc & Halive).
  assert (Htotal : Orchestrator.total_tasks
                     (context (Orchestrator.session (Orchestrator.final cfg g ext))) =
                   length todo).
  { pose proof (plan_covers _ Hc) as Hp. unfold Orchestrator.total_tasks, queued in *.
    rewrite Hpe, Hco in Hp. simpl in Hp.
    destruct (currentPlan _) as [p|]; [by rewrite Hp|].
    apply (f_equal length) in Hp. by simpl in Hp. }
  subst res. unfold Orchestrator.run. cbv zeta.
  destruct (Orchestrator.at_ (Orchestrator.final cfg g ext)) as [| |x] eqn:Hat;
    [| |by destruct (Halive x)];
    cbn [wf_success error wf_completedTasks wf_totalTasks];
    rewrite Hpe, Hco, Htotal; done.
Qed.

Lemma all_tasks_succeed_witness :
  let res := Orchestrator.run DEFAULT_CONFIG "goal" Samples.two_successes in
  wf_success res = true /\
  error res = None /\
  wf_completedTasks res = 2 /\
  wf_totalTasks res = 2 /\
  completedTasks
    (context (Orchestrator.session
                (Orchestrator.final DEFAULT_CONFIG "goal" Samples.two_successes))) = [0; 1].
Proof.
  apply (all_tasks_succeed DEFAULT_CONFIG "goal" Samples.two_successes).
  - reflexivity.
  - repeat constructor; (eexists; split; [reflexivity|]; eexists; reflexivity).
  - vm_compute. lia.
  - intros i task s.
    unfold ExecutorAgent.execute, bind, modify, lift, ret. simpl.
    eexists. eexists. split; reflexivity.
  - right. intros i. eexists. split; reflexivity.
  - intros i Hi. vm_compute in Hi. simpl. lia.
Defined.

(** ** The executor and the planner *)

Section Agents.
Import ContextManager ExecutorAgent.

Lemma getMemory_setMemory k v src s : getMemory k (setMemory k v src s) = Some v.
Proof.
  unfold getMemory. rewrite setMemory_memory.
  change (fun m => String.eqb (key m) k)
    with (keyed (key {| key := k; value := v; source := src |})).
  by rewrite upsert_find.
Qed.

(** X18. [FILL_FORM] stores the form data in the memory before it calls
    [fillForm]: the data can be read back under [formData] whether the
    call returns true, returns false or throws, and the action succeeds
    only in the first case. *)
Theorem fill_form_is_remembered (act params fd : json) (auto : Automation)
    (s s' : Session) (o : outcome ActionResult) :
  select_case act = Some FILL_FORM ->
  get params "formData" = Some fd ->
  truthy fd = true ->
  performAction act params auto s = (o, s') ->
  exists r, o = Ok r /\
  getMemory "formData" s' = Some fd /\
  ar_success r = match fillForm auto fd with Ok ok => ok | Throw _ => false end /\
  automation_calls s' = automation_calls s ++ [CallFillForm fd].
Proof.
  intros Hact Hfd Htruthy. unfold performAction, known_action.
  rewrite Hact, Hfd, Htruthy. unfold call.
  pose proof (getMemory_setMemory "formData" fd executor s) as Hm.
  destruct (setMemory_frame "formData" fd executor s) as (_ & _ & _ & _ & _ & Hc).
  destruct (fillForm auto fd) as [ok|e]; intros [= <- <-]; eexists;
    (split; [reflexivity|]); unfold getMemory in *; simpl; rewrite Hc; done.
Qed.

Lemma fill_form_is_remembered_witness :
  let fd := JObj [("visitDate", JStr "2024-05-01")] in
  let out := performAction (JStr "FILL_FORM") (JObj [("formData", fd)])
               (broken (Error "page closed")) (new "goal") in
  exists r, fst out = Ok r /\
  getMemory "formData" (snd out) = Some fd /\
  ar_success r = false /\
  automation_calls (snd out) = [CallFillForm fd].
Proof.
  intros fd out.
  apply (fill_form_is_remembered (JStr "FILL_FORM") (JObj [("formData", fd)]) fd
           (broken (Error "page closed")) (new "goal") (snd out) (fst out));
    reflexivity.
Defined.

(** X19. What [GET_CARERS] extracts is what the researcher hands out:
    after the action, [gatherContext] gives the extracted list as
    [carers], also when the list is empty and the action counts as
    failed. *)
Theorem carers_reach_the_researcher (act params : json) (auto : Automation)
    (carers : list json) (s s' : Session) (o : outcome ActionResult) (task : Task) :
  select_case act = Some GET_CARERS ->
  extractCarers auto = Ok carers ->
  performAction act params auto s = (o, s') ->
  exists r, o = Ok r /\
  ResearcherAgent.ctx_carers (ResearcherAgent.gatherContext task s') =
    Some (JArr carers) /\
  ar_success r = negb (Nat.eqb (length carers) 0).
Proof.
  intros Hact Hcarers. unfold performAction, known_action, call.
  rewrite Hact, Hcarers.
  intros [= <- <-]. eexists. split; [reflexivity|]. split; [|done].
  unfold ResearcherAgent.gatherContext. cbn [ResearcherAgent.ctx_carers].
  pose proof (getMemory_setMemory "carers" (JArr carers) executor
                (logged CallExtractCarers s)) as Hm.
  exact Hm.
Qed.

Lemma carers_reach_the_researcher_witness :
  let out := performAction (JStr "GET_CARERS") (JObj [])
               Examples.automation_ok (new "goal") in
  exists r, fst out = Ok r /\
  ResearcherAgent.ctx_carers
    (ResearcherAgent.gatherContext
       {| id := "task-1"; description := None; status := pending; priority := None;
          dependencies := None; result := None |} (snd out)) =
    Some (JArr [JObj [("code", JStr "FCC-18")]]) /\
  ar_success r = negb (Nat.eqb (length [JObj [("code", JStr "FCC-18")]]) 0).
Proof.
  intros out.
  apply (carers_reach_the_researcher (JStr "GET_CARERS") (JObj [])
           Examples.automation_ok [JObj [("code", JStr "FCC-18")]]
           (new "goal") (snd out) (fst out)); reflexivity.
Defined.

Lemma state_setMemory k v src s :
  state (context (setMemory k v src s)) = state (context s).
Proof. by destruct (setMemory_frame k v src s) as (_ & _ & _ & -> & _). Qed.

(** X20. A failed action does not move the state: when [performAction]
    reports [success = false], the current page and the selected carer
    are as before, and so is [isLoggedIn] unless the action was a
    [LOGIN] that returned false, which sets it to false. *)
Theorem failed_action_keeps_state (act params : json) (auto : Automation)
    (s s' : Session) (r : ActionResult) :
  performAction act params auto s = (Ok r, s') ->
  ar_success r = false ->
  currentPage (state (context s')) = currentPage (state (context s)) /\
  selectedCarer (state (context s')) = selectedCarer (state (context s)) /\
  (isLoggedIn (state (context s')) = isLoggedIn (state (context s)) \/
   select_case act = Some LOGIN /\ isLoggedIn (state (context s')) = false).
Proof.
  intros H. apply performAction_cases in H as [(c & r0 & Hc & H & [= <-])|(_ & -> & _)];
    [|auto].
  rewrite Hc. revert H. unfold known_action, call.
  destruct c.
  - destruct (login auto) as [[]|e]; intros [= <- <-]; simpl; try done; auto.
  - destruct (extractCarers auto) as [carers|e]; intros [= <- <-]; simpl; intros _;
      rewrite ?state_setMemory; auto.
  - destruct (get params "carerCode") as [code|]; [destruct (truthy code)|];
      [|intros [= <- <-]; auto..].
    destruct (selectCarer auto code) as [[]|e]; intros [= <- <-]; simpl; try done; auto.
  - destruct (navigateToSupervisoryHomeVisitForm auto) as [[]|e];
      intros [= <- <-]; simpl; try done; auto.
  - destruct (get params "formData") as [fd|]; [destruct (truthy fd)|];
      [|intros [= <- <-]; auto..].
    destruct (fillForm auto fd) as [ok|e]; intros [= <- <-]; simpl; intros _;
      rewrite ?state_setMemory; auto.
  - destruct (submitForm auto _) as [ok|e]; intros [= <- <-]; simpl; auto.
  - destruct (getPageState auto) as [st|e]; intros [= <- <-]; simpl; try done; auto.
Qed.

Lemma failed_action_keeps_state_witness :
  let auto :=
    {| login := Ok false; extractCarers := Ok [];
       selectCarer := fun _ => Ok true;
       navigateToSupervisoryHomeVisitForm := Ok true;
       fillForm := fun _ => Ok true;
       submitForm := fun _ => Ok (true, "saved");
       getPageState := Ok ("/home", "Home") |} in
  let s := snd (performAction (JStr "LOGIN") (JObj []) Examples.automation_ok
                  (new "goal")) in
  let out := known_action LOGIN (JObj []) auto s in
  currentPage (state (context (snd out))) = currentPage (state (context s)) /\
  selectedCarer (state (context (snd out))) = selectedCarer (state (context s)) /\
  (isLoggedIn (state (context (snd out))) = isLoggedIn (state (context s)) \/
   select_case (JStr "LOGIN") = Some LOGIN /\
   isLoggedIn (state (context (snd out))) = false).
Proof.
  intros auto s out.
  apply (failed_action_keeps_state (JStr "LOGIN") (JObj []) auto s (snd out) (fst out));
    reflexivity.
Defined.

(** X21. An automation function that throws is caught, but the catch
    can throw in turn: with functions that all throw [e],
    [performAction] returns [success = false] and leaves the state as
    it is, and unless no function was called (unknown action, missing
    parameter) the data of the result is the message of [e]; except
    that for an action that is none of the seven known ones and cannot
    be converted to a string the message of the default branch throws
    a [TypeError], which the catch throws again when it logs the
    action, so that [performAction] throws and writes nothing. *)
Theorem thrown_error_is_reported (act params : json) (e : exn) (s : Session) :
  let out := performAction act params (broken e) s in
  match select_case act, printable act with
  | None, false => out = (Throw TypeError_not_primitive, s)
  | _, _ =>
      exists r, fst out = Ok r /\
        ar_success r = false /\
        state (context (snd out)) = state (context s) /\
        (ar_data r = Some (JStr (error_message e)) \/
         automation_calls (snd out) = automation_calls s)
  end.
Proof.
  cbv zeta.
  assert (Hknown : forall c, select_case act = Some c ->
    exists r, fst (performAction act params (broken e) s) = Ok r /\
      ar_success r = false /\
      state (context (snd (performAction act params (broken e) s))) =
        state (context s) /\
      (ar_data r = Some (JStr (error_message e)) \/
       automation_calls (snd (performAction act params (broken e) s)) =
         automation_calls s)).
  { intros c Hc. unfold performAction, known_action, call, broken, caught.
    rewrite Hc. destruct c; simpl; eauto 10.
    - destruct (get params "carerCode") as [code|]; [destruct (truthy code)|];
        simpl; eauto 10.
    - destruct (get params "formData") as [fd|]; [destruct (truthy fd)|]; simpl;
        rewrite ?state_setMemory; eauto 10. }
  destruct (select_case act) as [c|] eqn:Hc.
  { destruct (printable act); by apply (Hknown c). }
  unfold performAction. rewrite Hc.
  pose proof (js_string_printable act) as Hp.
  destruct (printable act).
  - destruct Hp as [name ->]. simpl. eauto 10.
  - by rewrite Hp.
Qed.

(** X22. An action that is none of the seven known ones is not carried
    out: [execute] calls no automation function and changes neither
    state nor memory. When the action can be converted to a string (a
    number as [String] gives it), [execute] returns a failed result
    whose output names the action and whose one recorded action has
    failed; when it cannot, [execute] throws the [TypeError] of the
    conversion. *)
Theorem unknown_action_is_refused (task : Task) (parsed act : json)
    (auto : Automation) (s : Session) :
  get_opt parsed "action" = Some act ->
  truthy act = true ->
  select_case act = None ->
  exists o s',
    execute task (Ok parsed) auto s = (o, s') /\
    automation_calls s' = automation_calls s /\
    state (context s') = state (context s) /\
    memory (context s') = memory (context s) /\
    match js_string act with
    | Ok name =>
        exists res, o = Ok res /\
          exec_success res = false /\
          output res = Some (JStr ("Unknown action: " +:+ name)) /\
          map action_success (actions res) = [false]
    | Throw e => o = Throw e /\ e = TypeError_not_primitive
    end.
Proof.
  intros Hact Htruthy Hcase.
  unfold execute, bind, modify, lift, ret. simpl.
  rewrite Hact, Htruthy. unfold performAction. rewrite Hcase.
  destruct (js_string act) as [name|e] eqn:Hname.
  - eexists. eexists. split; [reflexivity|]. split_and!; try done. eauto.
  - eexists. eexists. split; [reflexivity|]. split_and!; try done.
    by eapply js_string_throws.
Qed.

Lemma unknown_action_is_refused_witness :
  let task := {| id := "task-0"; description := None; status := pending;
                 priority := None; dependencies := None; result := None |} in
  exists o s',
    execute task (Ok (JObj [("action", JNum "1e+21")])) Examples.automation_ok
      (new "goal") = (o, s') /\
    automation_calls s' = automation_calls (new "goal") /\
    state (context s') = state (context (new "goal")) /\
    memory (context s') = memory (context (new "goal")) /\
    exists res, o = Ok res /\
      exec_success res = false /\
      output res = Some (JStr "Unknown action: 1e+21") /\
      map action_success (actions res) = [false].
Proof.
  intros task.
  apply (unknown_action_is_refused task (JObj [("action", JNum "1e+21")])
           (JNum "1e+21")); reflexivity.
Defined.

(** X23. [createPlan] is all or nothing: when it throws, no task has
    been created, and the plan and the collections are untouched. When
    the throw is that of the prompt (the selected carer cannot be
    converted to a string), the session is as before; in the other
    cases (the request to the reasoning service is rejected, [tasks] is
    not an array, an entry is [null], or its dependencies are not an
    array or hold a value that cannot be converted to a string) it is
    as before but for the [create_plan] history entry. *)
Theorem createPlan_is_all_or_nothing (g : string) (answer : outcome json)
    (s s' : Session) (e : exn) :
  PlannerAgent.createPlan g answer s = (Throw e, s') ->
  if printable (or_else (selectedCarer (state (context s))) (JStr "none"))
  then s' = addHistory planner "create_plan" (PGoal g) PNull s
  else s' = s /\ e = TypeError_not_primitive.
Proof.
  unfold PlannerAgent.createPlan. rewrite bind_createPlan_prompt.
  pose proof (js_string_printable
                (or_else (selectedCarer (state (context s))) (JStr "none"))) as Hc.
  destruct (printable _).
  2: { rewrite Hc. by intros [= <- <-]. }
  destruct Hc as [carer ->]. mstep.
  mstep. destruct answer as [parsed|x]; [|by intros [= <- <-]].
  mstep. destruct (as_array _) as [entries|x]; [|by intros [= <- <-]].
  mstep. destruct (map_indexed _ 0 entries) as [new_tasks|x]; [|by intros [= <- <-]].
  unfold allocate. unfold bind at 1. cbv beta iota.
  mstep. mstep. unfold ret. discriminate.
Qed.

Lemma createPlan_is_all_or_nothing_witness :
  snd (PlannerAgent.createPlan "goal"
         (Ok (JObj [("tasks",
                     JArr [JObj [("description", JStr "log in");
                                 ("dependencies", JArr [JObj [("toString", JNum "1")]])]])]))
         Samples.two_pending) =
  addHistory planner "create_plan" (PGoal "goal") PNull Samples.two_pending.
Proof.
  apply (createPlan_is_all_or_nothing "goal"
           (Ok (JObj [("tasks",
                       JArr [JObj [("description", JStr "log in");
                                   ("dependencies",
                                    JArr [JObj [("toString", JNum "1")]])]])]))
           Samples.two_pending _ TypeError_not_primitive).
  reflexivity.
Defined.

End Agents.

(** ** Statuses between passes, and a throw inside a pass *)

Section Statuses.
Import ContextManager Orchestrator.

(** X28. Between two passes, and at the end of a run, every task has
    the status [pending], [completed] or [failed], unless the run was
    aborted by a throw while the task was being worked on, which can
    leave it [in_progress] or [rejected]: [needs_review] and [approved]
    are never left on a task, and [in_progress] and [rejected] only by
    an aborted run. *)
Theorem statuses_between_passes (cfg : WorkflowConfig) (g : string) (ext : Ext)
    (k : nat) (r : ref) (st : TaskStatus) :
  status_of (session (after cfg g ext k)) r = Some st ->
  settled (after cfg g ext k) st.
Proof.
  revert r st. induction k as [|k IH]; intros r st.
  - intros Hst. apply (status_of_fresh _ _ _ (start_fresh cfg g ext)) in Hst.
    by left.
  - rewrite after_S. unfold step.
    destruct (at_ (after cfg g ext k)) eqn:Hat.
    2, 3: intros Hst; specialize (IH r st Hst); unfold settled in *; by rewrite Hat in *.
    assert (IH' : forall r' st', status_of (session (after cfg g ext k)) r' = Some st' ->
              st' = pending \/ st' = completed \/ st' = failed).
    { intros r' st' Hst'. destruct (IH r' st' Hst') as [?|[?|[?|[_ [x Hx]]]]]; auto.
      congruence. }
    destruct (iteration _ <? maxIterations cfg)%nat.
    2: { simpl. intros Hst. unfold settled. destruct (IH' r st Hst) as [?|[?|?]]; auto. }
    pose proof (inv_consistent _ _ (after_invariant cfg g ext k)) as Hc.
    destruct (body _ _ _ _ _) as [o s'] eqn:Hb.
    destruct (body_summary _ _ _ _ _ _ _ Hc Hb)
      as [(-> & [(_ & ->)|(? & ? & ? & _ & _ & ->)])|
          (r0 & t & st0 & _ & Hto & _ & Hst0 & Hq)].
    1, 2: simpl; intros Hst; unfold settled;
      destruct (IH' r st Hst) as [?|[?|?]]; auto.
    assert (Hother : status_of s' r = Some st -> r <> r0 ->
              st = pending \/ st = completed \/ st = failed).
    { intros Hst Hne. rewrite (touches_status _ _ _ _ Hto) in Hst by done. eauto. }
    destruct (decide (r = r0)) as [->|Hne].
    2: { destruct o as [[e rc]|x]; simpl; intros Hst; unfold settled;
         destruct (Hother Hst Hne) as [?|[?|?]]; auto. }
    destruct Hq as [(_ & _ & [(x & Ho & [Hi|Hi])|[(Ho & Hi & _)|(to & Ho & Hi)]])
                   |(to & rc' & idx & Ho & Hi & _)];
      subst o st0; simpl; rewrite Hst0; intros Hst; injection Hst as <-;
      unfold settled; simpl; eauto 10.
Qed.

Lemma statuses_between_passes_witness :
  settled (after DEFAULT_CONFIG "goal" Samples.unprintable_feedback 1) rejected.
Proof.
  apply (statuses_between_passes DEFAULT_CONFIG "goal"
           Samples.unprintable_feedback 1 0 rejected).
  reflexivity.
Defined.

Lemma body_executor_throw cfg ext i rc s r t e :
  getNextTask s = Some (r, t) ->
  prints (description t) ->
  executor_answer ext i = Throw e ->
  body cfg ext i rc s =
    (Throw e,
     addHistory executor "execute_start" (PTaskId (id t)) PNull
       (updateTask (id t) {| upd_status := Some in_progress; upd_result := None |} s)).
Proof.
  intros Hnext [shown Hd] Hans. unfold body. rewrite Hnext.
  rewrite bind_log, Hd. cbv zeta. unfold bind at 1. unfold modify at 1.
  rewrite bind_execute_prompt, Hd.
  unfold ExecutorAgent.execute, bind, modify, lift. simpl. by rewrite Hans.
Qed.

(** X29. A rejected request of the executor aborts the run: when the
    reasoning service rejects the executor's request for the task that
    a pass has taken, a task whose description can be converted to a
    string (so that the pass gets as far as the request), the run ends
    there with [success = false], the message of the error and no
    output; the task is left [in_progress] in [pendingTasks], the tasks
    completed before stay counted, and no automation function is called
    for the task. *)
Theorem executor_throw_aborts_the_run (cfg : WorkflowConfig) (g : string) (ext : Ext)
    (k : nat) (r : ref) (t : Task) (e : exn) :
  at_ (after cfg g ext k) = Running ->
  k < maxIterations cfg ->
  getNextTask (session (after cfg g ext k)) = Some (r, t) ->
  prints (description t) ->
  executor_answer ext (S k) = Throw e ->
  let before := session (after cfg g ext k) in
  let s := session (final cfg g ext) in
  let res := run cfg g ext in
  wf_success res = false /\
  error res = Some (error_message e) /\
  wf_output res = None /\
  wf_completedTasks res = length (completedTasks (context before)) /\
  status_of s r = Some in_progress /\
  r ∈ pendingTasks (context s) /\
  automation_calls s = automation_calls before.
Proof.
  intros Hat Hk Hnext Hpr Hans before s res.
  destruct (after_running cfg g ext k Hat) as [Hit _].
  pose proof (inv_consistent _ _ (after_invariant cfg g ext k)) as Hc.
  pose proof (body_executor_throw cfg ext (S k) (retryCount (after cfg g ext k))
                _ r t e Hnext Hpr Hans) as Hb.
  assert (Hnext' : after cfg g ext (S k) =
    {| iteration := S k; retryCount := retryCount (after cfg g ext k);
       session := addHistory executor "execute_start" (PTaskId (id t)) PNull
                    (updateTask (id t)
                       {| upd_status := Some in_progress; upd_result := None |} before);
       at_ := Aborted e; trace := trace (after cfg g ext k) |}).
  { rewrite after_S. unfold step. rewrite Hat, Hit.
    assert ((k <? maxIterations cfg)%nat = true) as -> by (by apply Nat.ltb_lt).
    by rewrite Hb. }
  assert (Hfin : final cfg g ext = after cfg g ext (S k)).
  { unfold final.
    replace (S (maxIterations cfg)) with (S k + (maxIterations cfg - k)) by lia.
    rewrite after_add. apply iter_step_ended. by rewrite Hnext'. }
  pose proof (body_spec _ _ _ _ _ _ _ Hc Hb) as Hs. fold before in Hs.
  unfold before in Hs. rewrite Hnext in Hs. fold before in Hs.
  destruct Hpr as [shown Hd]. rewrite Hd in Hs.
  destruct Hs as (_ & _ & Hpe & Hco & Hst).
  assert (Hst' : status_of
            (addHistory executor "execute_start" (PTaskId (id t)) PNull
               (updateTask (id t)
                  {| upd_status := Some in_progress; upd_result := None |} before))
            r = Some in_progress).
  { destruct Hst as [[Hst _]|(_ & res0 & v0 & Habs & _)]; [done|].
    unfold ExecutorAgent.execute, bind, modify, lift in Habs. simpl in Habs.
    rewrite Hans in Habs. discriminate. }
  clear Hst.
  apply getNextTask_Some in Hnext as (Hin & _).
  destruct (updateTask_frame (id t)
              {| upd_status := Some in_progress; upd_result := None |} before)
    as (_ & Hcalls & _).
  subst res s. unfold run. cbv zeta. rewrite Hfin, Hnext'.
  cbn [at_ session wf_success error wf_output wf_completedTasks].
  rewrite Hco, Hpe. split_and!; try done.
Qed.

Lemma executor_throw_aborts_the_run_witness :
  let ext :=
    {| plan_answer := Ok (Examples.plan_of ["log in"; "list carers"]);
       plan_review_answer := Ok JNull;
       revision_answer := Ok JNull;
       executor_answer := fun i =>
         match i with
         | 1 => Ok (JObj [("action", JStr "LOGIN")])
         | _ => Throw (Error "rate limit")
         end;
       review_answer := fun _ => Ok JNull;
       automation := fun _ => Examples.automation_ok;
       elapsed := fun _ => 0%Z |} in
  let before := session (after DEFAULT_CONFIG "goal" ext 1) in
  let s := session (final DEFAULT_CONFIG "goal" ext) in
  let res := run DEFAULT_CONFIG "goal" ext in
  wf_success res = false /\
  error res = Some "rate limit" /\
  wf_output res = None /\
  wf_completedTasks res = length (completedTasks (context before)) /\
  status_of s 1 = Some in_progress /\
  1 ∈ pendingTasks (context s) /\
  automation_calls s = automation_calls before.
Proof.
  intros ext.
  apply (executor_throw_aborts_the_run DEFAULT_CONFIG "goal" ext 1 1
           {| id := "task-1"; description := Some (JStr "list carers");
              status := pending; priority := None; dependencies := None;
              result := None |} (Error "rate limit")).
  - reflexivity.
  - vm_compute. lia.
  - reflexivity.
  - eexists. reflexivity.
  - reflexivity.
Defined.

(** X24. A rejection whose feedback cannot be logged aborts the run:
    when a task is executed with success and its review rejects with a
    feedback that cannot be converted to a string (an object with a
    property named [toString], or an array that holds one), the log of
    the rejection throws a [TypeError] after the reviewer has marked
    the task. The run ends there with [success = false], the message
    of the [TypeError] and no output; the task is left [rejected] in
    [pendingTasks] and outside [completedTasks], and it has been
    executed once in this pass. *)
Theorem unshown_rejection_aborts_the_run (cfg : WorkflowConfig) (g : string)
    (ext : Ext) (k : nat) (r : ref) (t : Task) (v : json) :
  at_ (after cfg g ext k) = Running ->
  k < maxIterations cfg ->
  getNextTask (session (after cfg g ext k)) = Some (r, t) ->
  prints (description t) ->
  requireReview cfg = true ->
  execution_succeeds ext (S k) ->
  review_answer ext (S k) = Ok v ->
  verdict v = false ->
  printable (feedback_of v) = false ->
  let before := session (after cfg g ext k) in
  let s := session (final cfg g ext) in
  let res := run cfg g ext in
  at_ (final cfg g ext) = Aborted TypeError_not_primitive /\
  wf_success res = false /\
  error res = Some (error_message TypeError_not_primitive) /\
  wf_output res = None /\
  status_of s r = Some rejected /\
  r ∈ pendingTasks (context s) /\
  (r ∉ completedTasks (context s)) /\
  attempts (id t) s = S (attempts (id t) before).
Proof.
  intros Hat Hk Hnext [shown Hd] Hrr Hexec Hv Hverd Hfb before s res.
  destruct (after_running cfg g ext k Hat) as [Hit _].
  pose proof (inv_consistent _ _ (after_invariant cfg g ext k)) as Hc.
  destruct (body cfg ext (S k) (retryCount (after cfg g ext k)) before)
    as [o s'] eqn:Hb.
  pose proof (body_spec _ _ _ _ _ _ _ Hc Hb) as Hs. fold before in Hs.
  unfold before in Hs. rewrite Hnext, Hd in Hs. fold before in Hs.
  destruct Hs as (Hto & Hatt & Hs). cbv zeta in Hs.
  destruct (Hexec t (updateTask (id t)
              {| upd_status := Some in_progress; upd_result := None |} before))
    as (res0 & s1 & Hex & Hsucc).
  rewrite Hex in Hs. cbn [fst] in Hs.
  assert (Hnot : ~ prints (Some (feedback_of v))).
  { intros Hp. apply prints_printable in Hp. congruence. }
  assert (Ho : o = Throw TypeError_not_primitive /\
               pendingTasks (context s') = pendingTasks (context before) /\
               completedTasks (context s') = completedTasks (context before) /\
               status_of s' r = Some rejected).
  { destruct o as [[[|r'|r' timed_out|r' timed_out] rc']|x].
    - done.
    - destruct Hs as (_ & _ & _ & _ & _ & _ & _ & _ & res' & v' & _ & _ & Hv' & _ & Hp).
      rewrite Hv in Hv'. injection Hv' as <-. by destruct Hnot.
    - destruct Hs as (_ & _ & _ & _ & _ & res' & _ & _ &
                      [[Habs _]|[_ (v' & Hv' & [[Habs _]|(_ & Hp & _)])]]).
      + congruence.
      + rewrite Hv in Hv'. injection Hv' as <-. congruence.
      + rewrite Hv in Hv'. injection Hv' as <-. by destruct Hnot.
    - destruct Hs as (_ & _ & _ & _ & _ & _ & res' & Heq & Habs).
      injection Heq as <-. congruence.
    - destruct Hs as (Hpe & Hco & [(_ & [Habs|(res' & _ & _ & _ & Habs)])|
                                   (Hst & res' & v' & _ & _ & _ & Hv' & _ & Hthrow)]).
      + discriminate.
      + congruence.
      + apply js_string_throws in Hthrow as ->. done. }
  destruct Ho as (-> & Hpe & Hco & Hst).
  assert (Hnext' : after cfg g ext (S k) =
    {| iteration := S k; retryCount := retryCount (after cfg g ext k);
       session := s'; at_ := Aborted TypeError_not_primitive;
       trace := trace (after cfg g ext k) |}).
  { rewrite after_S. unfold step. rewrite Hat, Hit.
    assert ((k <? maxIterations cfg)%nat = true) as -> by (by apply Nat.ltb_lt).
    fold before. by rewrite Hb. }
  assert (Hfin : final cfg g ext = after cfg g ext (S k)).
  { unfold final.
    replace (S (maxIterations cfg)) with (S k + (maxIterations cfg - k)) by lia.
    rewrite after_add. apply iter_step_ended. by rewrite Hnext'. }
  apply getNextTask_Some in Hnext as (Hin & _).
  pose proof (refs_unique _ Hc) as Hnd. unfold queued in Hnd.
  apply NoDup_app in Hnd as (_ & Hdisj & _).
  subst res s. unfold run. cbv zeta. rewrite Hfin, Hnext'.
  cbn [at_ session wf_success error wf_output].
  rewrite Hpe, Hco. split_and!; try done.
  - by apply Hdisj.
  - rewrite Hatt, String.eqb_refl. lia.
Qed.

Lemma unshown_rejection_aborts_the_run_witness :
  let s := session (final DEFAULT_CONFIG "goal" Samples.unprintable_feedback) in
  let res := run DEFAULT_CONFIG "goal" Samples.unprintable_feedback in
  at_ (final DEFAULT_CONFIG "goal" Samples.unprintable_feedback) =
    Aborted TypeError_not_primitive /\
  wf_success res = false /\
  error res = Some "Cannot convert object to primitive value" /\
  wf_output res = None /\
  status_of s 0 = Some rejected /\
  0 ∈ pendingTasks (context s) /\
  (0 ∉ completedTasks (context s)) /\
  attempts "task-0" s = 1.
Proof.
  apply (unshown_rejection_aborts_the_run DEFAULT_CONFIG "goal"
           Samples.unprintable_feedback 0 0
           {| id := "task-0"; description := Some (JStr "log in"); status := pending;
              priority := None; dependencies := None; result := None |}
           (JObj [("approved", JBool false);
                  ("feedback", JObj [("toString", JNum "1")])])).
  - reflexivity.
  - vm_compute. lia.
  - reflexivity.
  - eexists. reflexivity.
  - reflexivity.
  - intros task s0. unfold ExecutorAgent.execute, bind, modify, lift, ret. simpl.
    eexists. eexists. split; reflexivity.
  - reflexivity.
  - reflexivity.
  - reflexivity.
Defined.

(** X30. A task whose description cannot be logged aborts the run
    before anything is done for it: when the description of the task
    that a pass takes cannot be converted to a string, the log of the
    description throws a [TypeError] and the session stays as it was
    at the test of the loop condition. The task is still [pending],
    no request is made to the executor (whatever its answer would
    have been), and the run ends with [success = false], the message
    of the [TypeError] and no output. *)
Theorem unshown_description_aborts_the_run (cfg : WorkflowConfig) (g : string)
    (ext : Ext) (k : nat) (r : ref) (t : Task) :
  at_ (after cfg g ext k) = Running ->
  k < maxIterations cfg ->
  getNextTask (session (after cfg g ext k)) = Some (r, t) ->
  ~ prints (description t) ->
  let before := session (after cfg g ext k) in
  let res := run cfg g ext in
  session (final cfg g ext) = before /\
  at_ (final cfg g ext) = Aborted TypeError_not_primitive /\
  status_of before r = Some pending /\
  wf_success res = false /\
  error res = Some (error_message TypeError_not_primitive) /\
  wf_output res = None.
Proof.
  intros Hat Hk Hnext Hpr before res.
  destruct (after_running cfg g ext k Hat) as [Hit _].
  assert (Hd : js_string_val (description t) = Throw TypeError_not_primitive).
  { destruct (description t) as [d|]; [|destruct Hpr; by exists "undefined"].
    simpl. pose proof (js_string_printable d) as Hp.
    destruct (printable d); [destruct Hpr; exact Hp|exact Hp]. }
  assert (Hb : body cfg ext (S k) (retryCount (after cfg g ext k)) before =
               (Throw TypeError_not_primitive, before)).
  { unfold body. unfold before. rewrite Hnext. by rewrite bind_log, Hd. }
  assert (Hnext' : after cfg g ext (S k) =
    {| iteration := S k; retryCount := retryCount (after cfg g ext k);
       session := before; at_ := Aborted TypeError_not_primitive;
       trace := trace (after cfg g ext k) |}).
  { rewrite after_S. unfold step. rewrite Hat, Hit.
    assert ((k <? maxIterations cfg)%nat = true) as -> by (by apply Nat.ltb_lt).
    fold before. by rewrite Hb. }
  assert (Hfin : final cfg g ext = after cfg g ext (S k)).
  { unfold final.
    replace (S (maxIterations cfg)) with (S k + (maxIterations cfg - k)) by lia.
    rewrite after_add. apply iter_step_ended. by rewrite Hnext'. }
  apply getNextTask_Some in Hnext as (_ & _ & Hrdy & _).
  apply is_ready_status in Hrdy as [Hst|Hst].
  2: { by apply (inv_verdicts _ _ (after_invariant cfg g ext k)) in Hst. }
  subst res. unfold run. cbv zeta. rewrite Hfin, Hnext'.
  cbn [at_ session wf_success error wf_output]. done.
Qed.

Lemma unshown_description_aborts_the_run_witness :
  let before := session (start Examples.without_review "goal" Samples.unprintable_description) in
  let res := run Examples.without_review "goal" Samples.unprintable_description in
  session (final Examples.without_review "goal" Samples.unprintable_description) = before /\
  at_ (final Examples.without_review "goal" Samples.unprintable_description) =
    Aborted TypeError_not_primitive /\
  status_of before 0 = Some pending /\
  wf_success res = false /\
  error res = Some "Cannot convert object to primitive value" /\
  wf_output res = None.
Proof.
  apply (unshown_description_aborts_the_run Examples.without_review "goal"
           Samples.unprintable_description 0 0
           {| id := "task-0"; description := Some (JObj [("toString", JNum "1")]);
              status := pending; priority := None; dependencies := None;
              result := None |}).
  - reflexivity.
  - vm_compute. lia.
  - reflexivity.
  - intros [shown Hshown]. discriminate.
Defined.

End Statuses.
